(** * Intelligence Hub nodes: a shallow embedding of the adapters

    The repository is a set of n8n nodes (Terminal Agent, MCP Connector,
    Web Browse Agent, LM Studio Agent, Hub Monitor).  Each node is a thin
    adapter around an external library.  The embedding keeps the code's own
    logic (event handlers, loops, try/catch/finally, string massaging) and
    represents the outside world by the events and answers it delivers.

    Layout: the embedding first (one module per source unit), the
    properties afterwards. *)

From Stdlib Require Import List ZArith NArith QArith Qround Bool Lia Lqa.
From Stdlib Require Import String Ascii DecimalString.
Import ListNotations.

Set Implicit Arguments.
Set Warnings "-register-all".

(* ================================================================== *)
(** * JavaScript values                                                 *)
(* ================================================================== *)

Module JS.

(** A JavaScript string is a sequence of UTF-16 code units. *)
Definition char := N.
Definition jsstring := list char.

(** String literals of the source, written as Rocq strings. *)
Definition js (s : string) : jsstring :=
  map N_of_ascii (list_ascii_of_string s).

Definition char_eqb (a b : char) : bool := N.eqb a b.

Fixpoint str_eqb (a b : jsstring) : bool :=
  match a, b with
  | [], [] => true
  | x :: a', y :: b' => char_eqb x y && str_eqb a' b'
  | _, _ => false
  end.

(** ECMAScript WhiteSpace and LineTerminator code points: what
    [String.prototype.trim] strips and what [\s] matches. *)
Definition isWhiteSpace (c : char) : bool :=
  ((9 <=? c) && (c <=? 13)        (* TAB LF VT FF CR *)
   || (c =? 32)                   (* SPACE *)
   || (c =? 160)                  (* NBSP *)
   || (c =? 0x1680)
   || ((0x2000 <=? c) && (c <=? 0x200a))
   || (c =? 0x2028) || (c =? 0x2029)
   || (c =? 0x202f) || (c =? 0x205f)
   || (c =? 0x3000) || (c =? 0xfeff))%N.

Fixpoint trimStart (s : jsstring) : jsstring :=
  match s with
  | [] => []
  | c :: s' => if isWhiteSpace c then trimStart s' else s
  end.

Definition trimEnd (s : jsstring) : jsstring := rev (trimStart (rev s)).

(** [s.trim()] *)
Definition trim (s : jsstring) : jsstring := trimEnd (trimStart s).

(** Truthiness of a string: the empty string is the only falsy one. *)
Definition truthy (s : jsstring) : bool :=
  match s with [] => false | _ :: _ => true end.

(** [s.split(sep)] for a one-code-unit separator: the pieces between
    the separators, empty pieces included; never the empty list. *)
Fixpoint split_acc (sep : char) (cur : jsstring) (s : jsstring)
  : list jsstring :=
  match s with
  | [] => [rev cur]
  | c :: s' =>
      if char_eqb c sep then rev cur :: split_acc sep [] s'
      else split_acc sep (c :: cur) s'
  end.

Definition split (sep : char) (s : jsstring) : list jsstring :=
  split_acc sep [] s.

(** [s.split(/\s+/)]: a maximal run of white space is one separator.  A
    leading or trailing run leaves an empty first or last piece.
    [inRun] says that the code unit before was white space. *)
Fixpoint split_ws_acc (inRun : bool) (cur : jsstring) (s : jsstring)
  : list jsstring :=
  match s with
  | [] => [rev cur]
  | c :: s' =>
      if isWhiteSpace c
      then if inRun then split_ws_acc true cur s'
           else rev cur :: split_ws_acc true [] s'
      else split_ws_acc false (c :: cur) s'
  end.

Definition split_ws (s : jsstring) : list jsstring :=
  split_ws_acc false [] s.

(** [parts.join(sep)] *)
Fixpoint join (sep : jsstring) (parts : list jsstring) : jsstring :=
  match parts with
  | [] => []
  | [p] => p
  | p :: rest => p ++ sep ++ join sep rest
  end.

(** [parts.slice(n)] for n >= 0 *)
Definition slice_from {A} (n : nat) (parts : list A) : list A := skipn n parts.

(** [s.replace(re, '')] for a global one-character pattern (the source
    strips the double-quote character, code unit 34): every occurrence of
    the code unit is removed. *)
Definition remove_all (c : char) (s : jsstring) : jsstring :=
  filter (fun x => negb (char_eqb x c)) s.

(** The error values of the code: only their [message] is ever read. *)
Record Error := mkError { message : jsstring }.

(** A number is a finite IEEE double; every such value is a rational and
    the comparisons of the source are the comparisons of rationals.
    Products and quotients are exact here, where the source rounds each to
    the nearest double: the two can differ by that rounding, which shows
    only where a value is compared with a threshold it all but equals. *)
Definition number := Q.

(** The values parameters and results are made of.  An object keeps its
    keys in insertion order. *)
Inductive value :=
| VUndefined
| VNull
| VBool (b : bool)
| VNum (n : number)
| VStr (s : jsstring)
| VArr (items : list value)
| VObj (fields : list (jsstring * value)).

(** [obj[key] = v] on an object with string keys. *)
Fixpoint obj_set (key : jsstring) (v : value) (fields : list (jsstring * value))
  : list (jsstring * value) :=
  match fields with
  | [] => [(key, v)]
  | (k, w) :: rest =>
      if str_eqb k key then (k, v) :: rest
      else (k, w) :: obj_set key v rest
  end.

(** [{ ...base, ...extra }] *)
Definition obj_spread (base extra : list (jsstring * value))
  : list (jsstring * value) :=
  fold_left (fun acc kv => obj_set (fst kv) (snd kv) acc) extra base.

Fixpoint obj_get (key : jsstring) (fields : list (jsstring * value))
  : option value :=
  match fields with
  | [] => None
  | (k, w) :: rest => if str_eqb k key then Some w else obj_get key rest
  end.

(** [Math.round]: nearest integer, ties towards plus infinity. *)
Definition Math_round (x : number) : Z := Qfloor (x + (1 # 2)).

End JS.

(* ================================================================== *)
(** * The host contract and the shape of asynchronous code              *)
(* ================================================================== *)

Module Host.
Import JS.

(** Synchronous code either returns or throws. *)
Inductive result (A : Type) :=
| Ok (a : A)
| Throw (e : Error).
Arguments Throw {A} e.

(** An awaited call returns, throws, or never settles. *)
Inductive outcome (A : Type) :=
| Returned (a : A)
| Thrown (e : Error)
| Hung.
Arguments Thrown {A} e.
Arguments Hung {A}.

Definition bind {A B} (m : outcome A) (k : A -> outcome B) : outcome B :=
  match m with
  | Returned a => k a
  | Thrown e => Thrown e
  | Hung => Hung
  end.

Definition lift {A} (r : result A) : outcome A :=
  match r with
  | Ok a => Returned a
  | Throw e => Thrown e
  end.

(** [new NodeOperationError(node, text)]: the error the host library
    builds from [text]; the node only attributes it.  The library's
    constructor may put a description of its own in place of a text that
    holds a system error code (ENOENT, ECONNREFUSED, EPERM, ...), so the
    properties below name such an error by the text it is constructed
    from, and take [message] only of the error as a whole. *)
Definition NodeOperationError (text : jsstring) : Error := mkError text.

(** [try { body } catch (error) { throw new NodeOperationError(node,
    prefix + error.message) }] *)
Definition rethrow {A} (prefix : jsstring) (body : outcome A) : outcome A :=
  match body with
  | Thrown e => Thrown (NodeOperationError (prefix ++ message e))
  | other => other
  end.

(** A promise settles once: the first [resolve] or [reject] wins and the
    later ones do nothing. *)
Inductive settlement (A : Type) :=
| Pending
| Resolved (v : A)
| Rejected (e : Error).
Arguments Pending {A}.
Arguments Rejected {A} e.

Definition resolve {A} (v : A) (p : settlement A) : settlement A :=
  match p with Pending => Resolved v | _ => p end.

Definition reject {A} (e : Error) (p : settlement A) : settlement A :=
  match p with Pending => Rejected e | _ => p end.

(** [await promise] *)
Definition await {A} (p : settlement A) : outcome A :=
  match p with
  | Pending => Hung
  | Resolved v => Returned v
  | Rejected e => Thrown e
  end.

(** The part of [IExecuteFunctions] the nodes use.  [getNodeParameter]
    is read at the type the source casts it to. *)
Record IExecuteFunctions := {
  getInputData : list value;
  getNodeParameter_string : jsstring -> nat -> result jsstring;
  getNodeParameter_number : jsstring -> nat -> result number;
  getNodeParameter_boolean : jsstring -> nat -> result bool;
  getNodeParameter_any : jsstring -> nat -> result value;
  continueOnFail : bool
}.

(** Services of the JavaScript runtime that the code calls and that the
    embedding does not re-implement. *)
Class Runtime := {
  (** number to string, as in a template literal *)
  Number_toString : number -> jsstring;
  (** [JSON.parse] *)
  JSON_parse : jsstring -> result value;
  (** [new RegExp(pattern, 'i')] and the [test] of the regular
      expression it builds; with no [g] or [y] flag [test] keeps no
      state between calls *)
  RegExp_i : jsstring -> result (jsstring -> bool)
}.

(** The item loop every node's [execute] is built on:
    [for (let i = 0; i < items.length; i++) { try { push(body(i)) }
     catch (error) { if (continueOnFail()) { push(onError(error));
     continue; } throw error; } }]. *)
Fixpoint itemLoop (body : nat -> outcome value) (onError : nat -> Error -> value)
    (continueOnFail : bool) (remaining : nat) (i : nat)
    (returnData : list value) : outcome (list value) :=
  match remaining with
  | O => Returned returnData
  | S remaining' =>
      match body i with
      | Returned entry =>
          itemLoop body onError continueOnFail remaining' (S i)
                   (returnData ++ [entry])
      | Thrown e =>
          if continueOnFail
          then itemLoop body onError continueOnFail remaining' (S i)
                        (returnData ++ [onError i e])
          else Thrown e
      | Hung => Hung
      end
  end.

(** What a child process started with [spawn] emits; the payload of a
    data event is [data.toString()], the code of a close event is null
    when the process ended on a signal. *)
Inductive ChildEvent :=
| StdoutData (data : jsstring)
| StderrData (data : jsstring)
| ChildClose (code : option Z)
| ChildError (error : Error).

(** [code === 0] *)
Definition isZero (code : option Z) : bool :=
  match code with Some z => Z.eqb z 0 | None => false end.

(** One output entry: [{ json: fields }]. *)
Definition entry (fields : list (jsstring * value)) : value :=
  VObj [(js "json", VObj fields)].

End Host.

Declare Scope outcome_scope.
Delimit Scope outcome_scope with outcome.
Notation "x <- m ;; k" := (Host.bind m (fun x => k))
  (at level 61, m at next level, right associativity) : outcome_scope.

(* ================================================================== *)
(** * Terminal Agent (TerminalAgent.node.ts)                            *)
(* ================================================================== *)

Module TerminalAgent.
Import JS Host.
Local Open Scope outcome_scope.

(** The record both command paths resolve with. *)
Record CommandResult := {
  exitCode : option Z;       (* null when the process ended on a signal *)
  stdout : jsstring;
  stderr : jsstring;
  success : bool
}.

(** The exit code as the record shows it; [None] is the null a local
    process that ended on a signal reports. *)
Definition exitCodeValue (code : option Z) : value :=
  match code with Some z => VNum (inject_Z z) | None => VNull end.

Definition resultFields (r : CommandResult) : list (jsstring * value) :=
  [ (js "exitCode", exitCodeValue (exitCode r));
    (js "stdout", VStr (stdout r));
    (js "stderr", VStr (stderr r));
    (js "success", VBool (success r)) ].

(** ** executeLocalCommand *)

Record LocalState := {
  l_stdout : jsstring;
  l_stderr : jsstring;
  l_promise : settlement CommandResult
}.

Definition local_init : LocalState :=
  {| l_stdout := []; l_stderr := []; l_promise := Pending |}.

Definition local_on (st : LocalState) (ev : ChildEvent) : LocalState :=
  match ev with
  | StdoutData data =>
      {| l_stdout := l_stdout st ++ data;
         l_stderr := l_stderr st;
         l_promise := l_promise st |}
  | StderrData data =>
      {| l_stdout := l_stdout st;
         l_stderr := l_stderr st ++ data;
         l_promise := l_promise st |}
  | ChildClose code =>
      {| l_stdout := l_stdout st;
         l_stderr := l_stderr st;
         l_promise :=
           resolve {| exitCode := code;
                      stdout := trim (l_stdout st);
                      stderr := trim (l_stderr st);
                      success := isZero code |}
                   (l_promise st) |}
  | ChildError error =>
      {| l_stdout := l_stdout st;
         l_stderr := l_stderr st;
         l_promise :=
           reject (NodeOperationError
                     (js "Command execution failed: " ++ message error))
                  (l_promise st) |}
  end.

Definition local_run (events : list ChildEvent) : LocalState :=
  fold_left local_on events local_init.

(** The promise [executeLocalCommand] returns, given what the child
    emits.  The working directory only goes into the spawn options. *)
Definition executeLocalCommand (h : IExecuteFunctions) (command : jsstring)
    (itemIndex : nat) (events : list ChildEvent) : settlement CommandResult :=
  match getNodeParameter_string h (js "workingDirectory") itemIndex with
  | Throw e => Rejected e
  | Ok workingDirectory => l_promise (local_run events)
  end.

(** ** executeRemoteCommand *)

Inductive SshEvent :=
| ConnReady
| ConnError (err : Error)
| ExecCallback (err : option Error)   (* the callback of [conn.exec] *)
| StreamData (data : jsstring)
| StreamStderr (data : jsstring)
| StreamClose (code : option Z)
| TimerFired.                          (* [timeout * 1000] ms elapsed *)

Record SshState := {
  s_timer : bool;          (* the timeout is armed: neither cleared nor fired *)
  s_execPending : bool;    (* [conn.exec] called, callback not yet run *)
  s_stream : bool;         (* the stream's handlers are registered *)
  s_ended : bool;          (* [conn.end()] was called *)
  s_stdout : jsstring;
  s_stderr : jsstring;
  s_promise : settlement CommandResult
}.

Definition ssh_init : SshState :=
  {| s_timer := true; s_execPending := false; s_stream := false;
     s_ended := false; s_stdout := []; s_stderr := [];
     s_promise := Pending |}.

Section Remote.
Context {rt : Runtime}.
Variable timeout : number.

Definition timeoutError : Error :=
  NodeOperationError
    (js "SSH connection timeout after " ++ Number_toString timeout
        ++ js " seconds").

Definition ssh_on (st : SshState) (ev : SshEvent) : SshState :=
  match ev with
  | TimerFired =>
      if s_timer st then
        {| s_timer := false; s_execPending := s_execPending st;
           s_stream := s_stream st; s_ended := true;
           s_stdout := s_stdout st; s_stderr := s_stderr st;
           s_promise := reject timeoutError (s_promise st) |}
      else st
  | ConnReady =>
      {| s_timer := false; s_execPending := true;
         s_stream := s_stream st; s_ended := s_ended st;
         s_stdout := s_stdout st; s_stderr := s_stderr st;
         s_promise := s_promise st |}
  | ExecCallback err =>
      if s_execPending st then
        match err with
        | Some e =>
            {| s_timer := s_timer st; s_execPending := false;
               s_stream := s_stream st; s_ended := true;
               s_stdout := s_stdout st; s_stderr := s_stderr st;
               s_promise :=
                 reject (NodeOperationError
                           (js "SSH exec failed: " ++ message e))
                        (s_promise st) |}
        | None =>
            {| s_timer := s_timer st; s_execPending := false;
               s_stream := true; s_ended := s_ended st;
               s_stdout := []; s_stderr := [];
               s_promise := s_promise st |}
        end
      else st
  | StreamClose code =>
      if s_stream st then
        {| s_timer := s_timer st; s_execPending := s_execPending st;
           s_stream := s_stream st; s_ended := true;
           s_stdout := s_stdout st; s_stderr := s_stderr st;
           s_promise :=
             resolve {| exitCode := code;
                        stdout := trim (s_stdout st);
                        stderr := trim (s_stderr st);
                        success := isZero code |}
                     (s_promise st) |}
      else st
  | StreamData data =>
      if s_stream st then
        {| s_timer := s_timer st; s_execPending := s_execPending st;
           s_stream := s_stream st; s_ended := s_ended st;
           s_stdout := s_stdout st ++ data; s_stderr := s_stderr st;
           s_promise := s_promise st |}
      else st
  | StreamStderr data =>
      if s_stream st then
        {| s_timer := s_timer st; s_execPending := s_execPending st;
           s_stream := s_stream st; s_ended := s_ended st;
           s_stdout := s_stdout st; s_stderr := s_stderr st ++ data;
           s_promise := s_promise st |}
      else st
  | ConnError err =>
      {| s_timer := false; s_execPending := s_execPending st;
         s_stream := s_stream st; s_ended := s_ended st;
         s_stdout := s_stdout st; s_stderr := s_stderr st;
         s_promise :=
           reject (NodeOperationError
                     (js "SSH connection failed: " ++ message err))
                  (s_promise st) |}
  end.

Definition ssh_run (events : list SshEvent) : SshState :=
  fold_left ssh_on events ssh_init.

End Remote.

(** The promise [executeRemoteCommand] returns, given what the SSH
    client and the timer deliver. *)
Definition executeRemoteCommand {rt : Runtime} (h : IExecuteFunctions)
    (command : jsstring) (itemIndex : nat) (timeout : number)
    (events : list SshEvent) : settlement CommandResult :=
  match getNodeParameter_string h (js "host") itemIndex,
        getNodeParameter_number h (js "port") itemIndex,
        getNodeParameter_string h (js "username") itemIndex,
        getNodeParameter_string h (js "authMethod") itemIndex,
        getNodeParameter_string h (js "password") itemIndex,
        getNodeParameter_string h (js "privateKey") itemIndex with
  | Ok _, Ok _, Ok _, Ok _, Ok _, Ok _ =>
      s_promise (ssh_run timeout events)
  | Throw e, _, _, _, _, _
  | Ok _, Throw e, _, _, _, _
  | Ok _, Ok _, Throw e, _, _, _
  | Ok _, Ok _, Ok _, Throw e, _, _
  | Ok _, Ok _, Ok _, Ok _, Throw e, _
  | Ok _, Ok _, Ok _, Ok _, Ok _, Throw e => Rejected e
  end.

(** ** The call of [conn.connect]

    [conn.connect(connectionConfig)] is the last statement of the
    executor, after the timer is set and the handlers are registered;
    [ssh_init] is the state when it has returned.  When it throws (the
    client cannot parse the private key it is given) the exception leaves
    the executor and the promise is rejected with it, as thrown; nothing
    clears the timer, which fires later, ends the connection and rejects
    a promise that is settled already. *)
Definition ssh_start (connect : result unit) : SshState :=
  match connect with
  | Ok _ => ssh_init
  | Throw e =>
      {| s_timer := true; s_execPending := false; s_stream := false;
         s_ended := false; s_stdout := []; s_stderr := [];
         s_promise := Rejected e |}
  end.

Definition ssh_run_from {rt : Runtime} (timeout : number)
    (connect : result unit) (events : list SshEvent) : SshState :=
  fold_left (ssh_on timeout) events (ssh_start connect).

(** [executeRemoteCommand] with the outcome of [conn.connect] made
    explicit. *)
Definition executeRemoteCommand_from {rt : Runtime} (h : IExecuteFunctions)
    (command : jsstring) (itemIndex : nat) (timeout : number)
    (connect : result unit) (events : list SshEvent)
  : settlement CommandResult :=
  match getNodeParameter_string h (js "host") itemIndex,
        getNodeParameter_number h (js "port") itemIndex,
        getNodeParameter_string h (js "username") itemIndex,
        getNodeParameter_string h (js "authMethod") itemIndex,
        getNodeParameter_string h (js "password") itemIndex,
        getNodeParameter_string h (js "privateKey") itemIndex with
  | Ok _, Ok _, Ok _, Ok _, Ok _, Ok _ =>
      s_promise (ssh_run_from timeout connect events)
  | Throw e, _, _, _, _, _
  | Ok _, Throw e, _, _, _, _
  | Ok _, Ok _, Throw e, _, _, _
  | Ok _, Ok _, Ok _, Throw e, _, _
  | Ok _, Ok _, Ok _, Ok _, Throw e, _
  | Ok _, Ok _, Ok _, Ok _, Ok _, Throw e => Rejected e
  end.

(** ** TerminalAgent.execute *)

(** What the outside delivers to the process or connection of item [i]. *)
Record World := {
  childEvents : nat -> list ChildEvent;
  sshEvents : nat -> list SshEvent
}.

Definition executeItem {rt : Runtime} (h : IExecuteFunctions) (w : World)
    (i : nat) : outcome value :=
  executionMode <- lift (getNodeParameter_string h (js "executionMode") i) ;;
  command <- lift (getNodeParameter_string h (js "command") i) ;;
  timeout <- lift (getNodeParameter_number h (js "timeout") i) ;;
  result <-
    (if str_eqb executionMode (js "local")
     then await (executeLocalCommand h command i (childEvents w i))
     else await (executeRemoteCommand h command i timeout (sshEvents w i))) ;;
  Returned
    (entry (obj_spread [ (js "command", VStr command);
                         (js "executionMode", VStr executionMode) ]
                       (resultFields result))).

Definition errorEntry (i : nat) (error : Error) : value :=
  entry [ (js "error", VStr (message error)) ].

Definition execute {rt : Runtime} (h : IExecuteFunctions) (w : World)
  : outcome (list value) :=
  itemLoop (executeItem h w) errorEntry (continueOnFail h)
           (List.length (getInputData h)) 0 [].

End TerminalAgent.

(* ================================================================== *)
(** * MCP Connector (MCPConnector.node.ts)                              *)
(* ================================================================== *)

Module MCPConnector.
Import JS Host.
Local Open Scope outcome_scope.

Definition rbind {A B} (r : result A) (k : A -> result B) : result B :=
  match r with Ok a => k a | Throw e => Throw e end.

(** ** buildMCPMessage *)

(** [id] is the value of [Math.random().toString(36).substring(7)]. *)
Definition baseMessage (id : jsstring) : list (jsstring * value) :=
  [ (js "jsonrpc", VStr (js "2.0"));
    (js "id", VStr id);
    (js "method", VStr []);
    (js "params", VObj []) ].

Definition initializeParams : value :=
  VObj [ (js "protocolVersion", VStr (js "2024-11-05"));
         (js "capabilities",
           VObj [ (js "tools", VObj []); (js "resources", VObj []) ]);
         (js "clientInfo",
           VObj [ (js "name", VStr (js "n8n-intelligence-hub"));
                  (js "version", VStr (js "1.0.0")) ]) ].

Definition buildMCPMessage {rt : Runtime} (h : IExecuteFunctions)
    (id : jsstring) (operation : jsstring) (itemIndex : nat) : result value :=
  let base := baseMessage id in
  if str_eqb operation (js "initialize") then
    Ok (VObj (obj_spread base [ (js "method", VStr (js "initialize"));
                                (js "params", initializeParams) ]))
  else if str_eqb operation (js "listTools") then
    Ok (VObj (obj_spread base [ (js "method", VStr (js "tools/list")) ]))
  else if str_eqb operation (js "callTool") then
    rbind (getNodeParameter_string h (js "toolName") itemIndex) (fun toolName =>
    rbind (getNodeParameter_string h (js "toolArguments") itemIndex) (fun toolArguments =>
    rbind (JSON_parse toolArguments) (fun arguments =>
    Ok (VObj (obj_spread base
                [ (js "method", VStr (js "tools/call"));
                  (js "params",
                    VObj [ (js "name", VStr toolName);
                           (js "arguments", arguments) ]) ])))))
  else if str_eqb operation (js "listResources") then
    Ok (VObj (obj_spread base [ (js "method", VStr (js "resources/list")) ]))
  else if str_eqb operation (js "readResource") then
    rbind (getNodeParameter_string h (js "resourceUri") itemIndex) (fun resourceUri =>
    Ok (VObj (obj_spread base
                [ (js "method", VStr (js "resources/read"));
                  (js "params", VObj [ (js "uri", VStr resourceUri) ]) ])))
  else if str_eqb operation (js "sendMessage") then
    rbind (getNodeParameter_string h (js "customMessage") itemIndex) (fun customMessage =>
    JSON_parse customMessage)
  else
    Throw (NodeOperationError (js "Unknown operation: " ++ operation)).

(** ** executeWebSocketOperation *)

Inductive WsEvent :=
| WsOpen
| WsMessage (data : jsstring)
| WsError (error : Error)
| WsClose
| WsTimerFired.                      (* [timeout * 1000] ms elapsed *)

Record WsState := {
  responseReceived : bool;
  w_timer : bool;            (* the timeout is armed: neither cleared nor fired *)
  w_closeCalls : nat;        (* how often the code called [ws.close()] *)
  w_sent : list value;       (* the messages handed to [ws.send] *)
  w_promise : settlement (list (jsstring * value))
}.

Definition ws_init : WsState :=
  {| responseReceived := false; w_timer := true; w_closeCalls := 0;
     w_sent := []; w_promise := Pending |}.

Section WebSocket.
Context {rt : Runtime}.
Variable h : IExecuteFunctions.
Variable id : jsstring.            (* the random id drawn for the message *)
Variable now : jsstring.           (* [new Date().toISOString()] *)
Variable operation : jsstring.
Variable itemIndex : nat.
Variable timeout : number.

Definition wsTimeoutError : Error :=
  NodeOperationError
    (js "WebSocket operation timeout after " ++ Number_toString timeout
        ++ js " seconds").

Definition wsClosedError : Error :=
  NodeOperationError (js "WebSocket connection closed unexpectedly").

Definition ws_on (st : WsState) (ev : WsEvent) : WsState :=
  match ev with
  | WsTimerFired =>
      if w_timer st then
        if responseReceived st then
          {| responseReceived := responseReceived st; w_timer := false;
             w_closeCalls := w_closeCalls st; w_sent := w_sent st;
             w_promise := w_promise st |}
        else
          {| responseReceived := responseReceived st; w_timer := false;
             w_closeCalls := S (w_closeCalls st); w_sent := w_sent st;
             w_promise := reject wsTimeoutError (w_promise st) |}
      else st
  | WsOpen =>
      match buildMCPMessage h id operation itemIndex with
      | Ok message =>
          {| responseReceived := responseReceived st; w_timer := w_timer st;
             w_closeCalls := w_closeCalls st;
             w_sent := w_sent st ++ [message];
             w_promise := w_promise st |}
      | Throw error =>
          {| responseReceived := responseReceived st; w_timer := false;
             w_closeCalls := S (w_closeCalls st); w_sent := w_sent st;
             w_promise :=
               reject (NodeOperationError
                         (js "Failed to send message: " ++ message error))
                      (w_promise st) |}
      end
  | WsMessage data =>
      match JSON_parse data with
      | Ok response =>
          {| responseReceived := true; w_timer := false;
             w_closeCalls := S (w_closeCalls st); w_sent := w_sent st;
             w_promise :=
               resolve [ (js "success", VBool true);
                         (js "response", response);
                         (js "timestamp", VStr now) ]
                       (w_promise st) |}
      | Throw error =>
          {| responseReceived := true; w_timer := false;
             w_closeCalls := S (w_closeCalls st); w_sent := w_sent st;
             w_promise :=
               reject (NodeOperationError
                         (js "Failed to parse response: " ++ message error))
                      (w_promise st) |}
      end
  | WsError error =>
      {| responseReceived := true; w_timer := false;
         w_closeCalls := w_closeCalls st; w_sent := w_sent st;
         w_promise :=
           reject (NodeOperationError
                     (js "WebSocket error: " ++ message error))
                  (w_promise st) |}
  | WsClose =>
      if responseReceived st then st
      else
        {| responseReceived := responseReceived st; w_timer := false;
           w_closeCalls := w_closeCalls st; w_sent := w_sent st;
           w_promise := reject wsClosedError (w_promise st) |}
  end.

Definition ws_run (events : list WsEvent) : WsState :=
  fold_left ws_on events ws_init.

(** The promise [executeWebSocketOperation] returns, once
    [new WebSocket(serverUrl)] has built the socket; the events are what
    that socket and the timer deliver. *)
Definition executeWebSocketOperation (events : list WsEvent)
  : settlement (list (jsstring * value)) :=
  w_promise (ws_run events).

End WebSocket.

(** ** executeHttpOperation *)

(** A request the connector would put on the network. *)
Record HttpRequest := { req_url : jsstring; req_body : value }.

Definition placeholderResponse (now : jsstring) : list (jsstring * value) :=
  [ (js "success", VBool true);
    (js "response",
      VObj [ (js "message", VStr (js "HTTP MCP not fully implemented yet")) ]);
    (js "timestamp", VStr now) ].

(** The result of [executeHttpOperation] together with the requests it
    performed.  The [axios.post] of the source is commented out: the
    message is built and dropped. *)
Definition executeHttpOperation {rt : Runtime} (h : IExecuteFunctions)
    (id now : jsstring) (serverUrl operation : jsstring) (itemIndex : nat)
    (timeout : number)
  : outcome (list (jsstring * value)) * list HttpRequest :=
  match buildMCPMessage h id operation itemIndex with
  | Throw e => (Thrown e, [])
  | Ok message => (Returned (placeholderResponse now), [])
  end.

(** ** MCPConnector.execute *)

Record World := {
  wsEvents : nat -> list WsEvent;
  randomId : nat -> jsstring;
  clock : nat -> jsstring
}.

Definition executeItem {rt : Runtime} (h : IExecuteFunctions) (w : World)
    (i : nat) : outcome value :=
  connectionType <- lift (getNodeParameter_string h (js "connectionType") i) ;;
  serverUrl <- lift (getNodeParameter_string h (js "serverUrl") i) ;;
  operation <- lift (getNodeParameter_string h (js "operation") i) ;;
  timeout <- lift (getNodeParameter_number h (js "timeout") i) ;;
  result <-
    (if str_eqb connectionType (js "websocket")
     then await (executeWebSocketOperation h (randomId w i) (clock w i)
                   operation i timeout (wsEvents w i))
     else fst (executeHttpOperation h (randomId w i) (clock w i)
                 serverUrl operation i timeout)) ;;
  Returned
    (entry (obj_spread [ (js "operation", VStr operation);
                         (js "connectionType", VStr connectionType);
                         (js "serverUrl", VStr serverUrl) ]
                       result)).

Definition errorEntry (i : nat) (error : Error) : value :=
  entry [ (js "error", VStr (message error)) ].

Definition execute {rt : Runtime} (h : IExecuteFunctions) (w : World)
  : outcome (list value) :=
  itemLoop (executeItem h w) errorEntry (continueOnFail h)
           (List.length (getInputData h)) 0 [].

End MCPConnector.

(* ================================================================== *)
(** * Hub Monitor (HubMonitor.node.ts)                                  *)
(* ================================================================== *)

Module HubMonitor.
Import JS Host.
Local Open Scope outcome_scope.

(** [x > y] on numbers *)
Definition gt (x y : number) : bool := negb (Qle_bool x y).

(** The expression [usage > 90 ? 'critical' : usage > 70 ? 'warning' :
    'ok'] of [checkMemoryUsage] and [checkCpuUsage]. *)
Inductive Status := ok | warning | critical.

Definition statusName (s : Status) : jsstring :=
  match s with
  | ok => js "ok"
  | warning => js "warning"
  | critical => js "critical"
  end.

Definition usageStatus (usage : number) : Status :=
  if gt usage 90 then critical else if gt usage 70 then warning else ok.

(** ** checkDiskSpace *)

Record DiskCheck := {
  d_total : jsstring; d_free : jsstring; d_usage : number; d_status : jsstring
}.

Definition diskOk : DiskCheck :=
  {| d_total := js "100GB"; d_free := js "50GB"; d_usage := 50;
     d_status := js "ok" |}.

Definition diskUnknown : DiskCheck :=
  {| d_total := js "unknown"; d_free := js "unknown"; d_usage := 0;
     d_status := js "error" |}.

Definition diskFields (d : DiskCheck) : list (jsstring * value) :=
  [ (js "total", VStr (d_total d)); (js "free", VStr (d_free d));
    (js "usage", VNum (d_usage d)); (js "status", VStr (d_status d)) ].

(** The listing is collected and ignored: close resolves with a fixed
    record, a spawn error with the unknown one. *)
Definition disk_on (p : settlement DiskCheck) (ev : ChildEvent)
  : settlement DiskCheck :=
  match ev with
  | StdoutData _ => p
  | StderrData _ => p
  | ChildClose _ => resolve diskOk p
  | ChildError _ => resolve diskUnknown p
  end.

Definition checkDiskSpace (events : list ChildEvent) : settlement DiskCheck :=
  fold_left disk_on events Pending.

(** ** checkMemoryUsage *)

(** [process.memoryUsage()]: byte counts. *)
Record MemoryUsage := { heapTotal : Z; heapUsed : Z }.

Definition rawUsage (m : MemoryUsage) : number :=
  (inject_Z (heapUsed m) / inject_Z (heapTotal m)) * 100.

Definition megabytes {rt : Runtime} (bytes : Z) : jsstring :=
  Number_toString (inject_Z (Math_round (inject_Z bytes / 1024 / 1024)))
    ++ js "MB".

Record MemoryCheck := {
  m_total : jsstring;
  m_used : jsstring;
  m_free : jsstring;
  m_usage : Z;
  m_status : Status
}.

Definition checkMemoryUsage {rt : Runtime} (totalMem : MemoryUsage)
  : MemoryCheck :=
  let freeMem := (heapTotal totalMem - heapUsed totalMem)%Z in
  let usage := rawUsage totalMem in
  {| m_total := megabytes (heapTotal totalMem);
     m_used := megabytes (heapUsed totalMem);
     m_free := megabytes freeMem;
     m_usage := Math_round usage;
     m_status := usageStatus usage |}.

Definition memoryFields (m : MemoryCheck) : list (jsstring * value) :=
  [ (js "total", VStr (m_total m)); (js "used", VStr (m_used m));
    (js "free", VStr (m_free m)); (js "usage", VNum (inject_Z (m_usage m)));
    (js "status", VStr (statusName (m_status m))) ].

(** ** checkCpuUsage: [random] is the value of [Math.random()] *)

Record CpuCheck := { c_usage : Z; c_cores : nat; c_status : Status }.

Definition checkCpuUsage (random : number) (cores : nat) : CpuCheck :=
  let usage := random * 100 in
  {| c_usage := Math_round usage; c_cores := cores;
     c_status := usageStatus usage |}.

Definition cpuFields (c : CpuCheck) : list (jsstring * value) :=
  [ (js "usage", VNum (inject_Z (c_usage c)));
    (js "cores", VNum (inject_Z (Z.of_nat (c_cores c))));
    (js "status", VStr (statusName (c_status c))) ].

(** ** parseProcessList *)

Record Process := { name : jsstring; pid : jsstring }.

Definition LF : char := 10%N.
Definition COMMA : char := 44%N.
Definition QUOTE : char := 34%N.
Definition SPACE : char := 32%N.

(** The name and pid the loop body reads off one line. *)
Definition parseLine (isWindows : bool) (line : jsstring)
  : jsstring * jsstring :=
  if isWindows then
    let parts := split COMMA line in
    if Nat.ltb 1 (List.length parts)
    then (remove_all QUOTE (nth 0 parts []), remove_all QUOTE (nth 1 parts []))
    else ([], [])
  else
    let parts := split_ws (trim line) in
    if Nat.ltb 10 (List.length parts)
    then (join [SPACE] (slice_from 10 parts), nth 1 parts [])
    else ([], []).

Definition pushLine (isWindows : bool) (regex : option (jsstring -> bool))
    (processes : list Process) (line : jsstring) : list Process :=
  if negb (truthy (trim line)) then processes
  else
    let '(processName, pid) := parseLine isWindows line in
    if truthy processName
       && match regex with
          | None => true
          | Some test => test processName
          end
    then processes ++ [ {| name := processName; pid := pid |} ]
    else processes.

Definition parseProcessList {rt : Runtime} (output pattern : jsstring)
    (isWindows : bool) : result (list Process) :=
  let lines := split LF output in
  let regex :=
    if truthy pattern
    then match RegExp_i pattern with
         | Ok test => Ok (Some test)
         | Throw e => Throw e
         end
    else Ok None in
  match regex with
  | Throw e => Throw e
  | Ok regex => Ok (fold_left (pushLine isWindows regex) lines [])
  end.

Definition processValue (p : Process) : value :=
  VObj [ (js "name", VStr (name p)); (js "pid", VStr (pid p)) ].

(** ** executeProcessMonitor *)

Record MonitorState := {
  output : jsstring;
  p_promise : settlement (list (jsstring * value))
}.

Section ProcessMonitor.
Context {rt : Runtime}.
Variable processPattern : jsstring.
Variable isWindows : bool.

Definition listingFailed : Error :=
  NodeOperationError (js "Failed to get process list").

(** An exception thrown by a listener (here: [new RegExp] on a
    malformed pattern inside the close listener) is not a rejection:
    the promise is left as it was. *)
Definition monitor_on (st : MonitorState) (ev : ChildEvent) : MonitorState :=
  match ev with
  | StdoutData data =>
      {| output := output st ++ data; p_promise := p_promise st |}
  | StderrData _ => st
  | ChildClose code =>
      if negb (isZero code) then
        {| output := output st;
           p_promise := reject listingFailed (p_promise st) |}
      else
        match parseProcessList (output st) processPattern isWindows with
        | Throw _ => st
        | Ok processes =>
            {| output := output st;
               p_promise :=
                 resolve
                   [ (js "processes", VArr (map processValue processes));
                     (js "pattern", VStr processPattern);
                     (js "count",
                       VNum (inject_Z (Z.of_nat (List.length processes)))) ]
                   (p_promise st) |}
        end
  | ChildError error =>
      {| output := output st;
         p_promise :=
           reject (NodeOperationError
                     (js "Process monitor failed: " ++ message error))
                  (p_promise st) |}
  end.

Definition monitor_run (events : list ChildEvent) : MonitorState :=
  fold_left monitor_on events {| output := []; p_promise := Pending |}.

End ProcessMonitor.

Definition executeProcessMonitor {rt : Runtime} (h : IExecuteFunctions)
    (itemIndex : nat) (isWindows : bool) (events : list ChildEvent)
  : settlement (list (jsstring * value)) :=
  match getNodeParameter_string h (js "processPattern") itemIndex with
  | Throw e => Rejected e
  | Ok processPattern => p_promise (monitor_run processPattern isWindows events)
  end.

(** ** executeSystemHealth *)

Record Health := { h_status : jsstring; h_checks : list (jsstring * value);
                   h_overall : bool }.

Definition healthFields (x : Health) : list (jsstring * value) :=
  [ (js "status", VStr (h_status x)); (js "checks", VObj (h_checks x));
    (js "overall", VBool (h_overall x)) ].

(** [if (cond) { health.overall = false; health.status = status; }] *)
Definition flag (cond : bool) (status : jsstring) (x : Health) : Health :=
  if cond
  then {| h_status := status; h_checks := h_checks x; h_overall := false |}
  else x.

Definition addCheck (key : jsstring) (fields : list (jsstring * value))
    (x : Health) : Health :=
  {| h_status := h_status x;
     h_checks := obj_set key (VObj fields) (h_checks x);
     h_overall := h_overall x |}.

(** What the machine and the operating system deliver while item [i] is
    processed. *)
Record World := {
  diskEvents : nat -> list ChildEvent;
  memoryUsage : nat -> MemoryUsage;
  random : nat -> number;
  cores : nat;
  psEvents : nat -> list ChildEvent;
  (** the HTTP probes of [executeServiceStatus] and [executeNetworkScan],
      by their settled outcome *)
  serviceStatus : nat -> outcome (list (jsstring * value));
  networkScan : nat -> outcome (list (jsstring * value));
  clock : nat -> jsstring;
  uptime : nat -> number;
  nodeVersion : jsstring;
  platform : jsstring;
  arch : jsstring
}.

(** [process.platform === 'win32'] *)
Definition isWindows (w : World) : bool := str_eqb (platform w) (js "win32").

Definition executeSystemHealth {rt : Runtime} (w : World) (i : nat)
  : outcome (list (jsstring * value)) :=
  let health :=
    {| h_status := js "healthy"; h_checks := []; h_overall := true |} in
  rethrow (js "System health check failed: ")
    (diskSpace <- await (checkDiskSpace (diskEvents w i)) ;;
     let health := addCheck (js "diskSpace") (diskFields diskSpace) health in
     let health := flag (gt (d_usage diskSpace) 90) (js "warning") health in
     let memory := checkMemoryUsage (memoryUsage w i) in
     let health := addCheck (js "memory") (memoryFields memory) health in
     let health :=
       flag (gt (inject_Z (m_usage memory)) 90) (js "warning") health in
     let cpu := checkCpuUsage (random w i) (cores w) in
     let health := addCheck (js "cpu") (cpuFields cpu) health in
     let health :=
       flag (gt (inject_Z (c_usage cpu)) 90) (js "critical") health in
     Returned (healthFields health)).

(** ** executePerformanceMetrics *)

Definition executePerformanceMetrics {rt : Runtime} (w : World) (i : nat)
  : outcome (list (jsstring * value)) :=
  rethrow (js "Performance metrics failed: ")
    (let cpu := checkCpuUsage (random w i) (cores w) in
     let memory := checkMemoryUsage (memoryUsage w i) in
     disk <- await (checkDiskSpace (diskEvents w i)) ;;
     Returned
       [ (js "metrics",
           VObj [ (js "cpu", VObj (cpuFields cpu));
                  (js "memory", VObj (memoryFields memory));
                  (js "disk", VObj (diskFields disk));
                  (js "uptime", VNum (uptime w i));
                  (js "nodeVersion", VStr (nodeVersion w));
                  (js "platform", VStr (platform w));
                  (js "arch", VStr (arch w)) ]) ]).

(** ** HubMonitor.execute *)

Definition executeItem {rt : Runtime} (h : IExecuteFunctions) (w : World)
    (i : nat) : outcome value :=
  operation <- lift (getNodeParameter_string h (js "operation") i) ;;
  result <-
    (if str_eqb operation (js "systemHealth") then executeSystemHealth w i
     else if str_eqb operation (js "serviceStatus") then serviceStatus w i
     else if str_eqb operation (js "networkScan") then networkScan w i
     else if str_eqb operation (js "processMonitor") then
       await (executeProcessMonitor h i (isWindows w) (psEvents w i))
     else if str_eqb operation (js "performanceMetrics") then
       executePerformanceMetrics w i
     else Thrown (NodeOperationError (js "Unknown operation: " ++ operation))) ;;
  Returned
    (entry (obj_spread [ (js "operation", VStr operation);
                         (js "timestamp", VStr (clock w i)) ]
                       result)).

Definition errorEntry (w : World) (i : nat) (error : Error) : value :=
  entry [ (js "error", VStr (message error));
          (js "timestamp", VStr (clock w i)) ].

Definition execute {rt : Runtime} (h : IExecuteFunctions) (w : World)
  : outcome (list value) :=
  itemLoop (executeItem h w) (errorEntry w) (continueOnFail h)
           (List.length (getInputData h)) 0 [].

End HubMonitor.

(* ================================================================== *)
(** * LM Studio Agent (LMStudioAgent.node.ts)                           *)
(* ================================================================== *)

Module LMStudioAgent.
Import JS Host.
Local Open Scope outcome_scope.

(** What the try block of each operation comes to for item [i]: the
    record it returns from the server's answer, the error that the
    request or the reading of the answer throws, or no answer. *)
Record World := {
  chatCompletion : nat -> outcome (list (jsstring * value));
  textCompletion : nat -> outcome (list (jsstring * value));
  listModels : nat -> outcome (list (jsstring * value))
}.

Definition executeChatCompletion (h : IExecuteFunctions) (w : World)
    (lmStudioUrl : jsstring) (itemIndex : nat)
  : outcome (list (jsstring * value)) :=
  model <- lift (getNodeParameter_string h (js "model") itemIndex) ;;
  message <- lift (getNodeParameter_string h (js "message") itemIndex) ;;
  systemMessage <- lift (getNodeParameter_string h (js "systemMessage") itemIndex) ;;
  temperature <- lift (getNodeParameter_number h (js "temperature") itemIndex) ;;
  maxTokens <- lift (getNodeParameter_number h (js "maxTokens") itemIndex) ;;
  stream <- lift (getNodeParameter_boolean h (js "stream") itemIndex) ;;
  rethrow (js "LM Studio chat completion failed: ") (chatCompletion w itemIndex).

Definition executeTextCompletion (h : IExecuteFunctions) (w : World)
    (lmStudioUrl : jsstring) (itemIndex : nat)
  : outcome (list (jsstring * value)) :=
  model <- lift (getNodeParameter_string h (js "model") itemIndex) ;;
  prompt <- lift (getNodeParameter_string h (js "prompt") itemIndex) ;;
  temperature <- lift (getNodeParameter_number h (js "temperature") itemIndex) ;;
  maxTokens <- lift (getNodeParameter_number h (js "maxTokens") itemIndex) ;;
  stream <- lift (getNodeParameter_boolean h (js "stream") itemIndex) ;;
  rethrow (js "LM Studio text completion failed: ") (textCompletion w itemIndex).

Definition executeListModels (w : World) (lmStudioUrl : jsstring)
    (itemIndex : nat) : outcome (list (jsstring * value)) :=
  rethrow (js "LM Studio list models failed: ") (listModels w itemIndex).

Definition executeItem (h : IExecuteFunctions) (w : World) (i : nat)
  : outcome value :=
  lmStudioUrl <- lift (getNodeParameter_string h (js "lmStudioUrl") i) ;;
  operation <- lift (getNodeParameter_string h (js "operation") i) ;;
  result <-
    (if str_eqb operation (js "chat") then
       executeChatCompletion h w lmStudioUrl i
     else if str_eqb operation (js "completion") then
       executeTextCompletion h w lmStudioUrl i
     else if str_eqb operation (js "listModels") then
       executeListModels w lmStudioUrl i
     else Thrown (NodeOperationError (js "Unknown operation: " ++ operation))) ;;
  Returned (entry (obj_spread [ (js "operation", VStr operation) ] result)).

Definition errorEntry (i : nat) (error : Error) : value :=
  entry [ (js "error", VStr (message error)) ].

Definition execute (h : IExecuteFunctions) (w : World) : outcome (list value) :=
  itemLoop (executeItem h w) errorEntry (continueOnFail h)
           (List.length (getInputData h)) 0 [].

End LMStudioAgent.

(* ================================================================== *)
(** * Web Browse Agent (WebBrowseAgent.node.ts)                         *)
(* ================================================================== *)

Module WebBrowseAgent.
Import JS Host.

(** The calls the node makes on the browser driver, in order. *)
Inductive BrowserCall :=
| Launch (headless : bool)
| NewPage
| SetViewport (width height : value)
| SetUserAgent (userAgent : value)
| PageWork (itemIndex : nat)        (* the page calls of one operation *)
| Close.

(** What the driver answers.  The page is one stateful handle shared by
    all items; its answers are given per item. *)
Record World := {
  launch : outcome unit;
  newPage : outcome unit;
  setViewport : outcome unit;
  setUserAgent : outcome unit;
  (** the try block of the operation run for item [i]: the record it
      returns or the error a page call throws *)
  pageWork : nat -> outcome (list (jsstring * value));
  close : outcome unit
}.

(** The state the code of [execute] runs in: the driver calls made so
    far and whether the variable [browser] holds a browser. *)
Record State := { calls : list BrowserCall; browser : bool }.

(** Code that calls the driver; the state is threaded through also when
    the code throws or hangs. *)
Definition Browse (A : Type) := State -> outcome A * State.

Definition ret {A} (a : A) : Browse A := fun st => (Returned a, st).

Definition throw {A} (e : Error) : Browse A := fun st => (Thrown e, st).

Definition bindB {A B} (m : Browse A) (k : A -> Browse B) : Browse B :=
  fun st =>
    match m st with
    | (Returned a, st') => k a st'
    | (Thrown e, st') => (Thrown e, st')
    | (Hung, st') => (Hung, st')
    end.

(** An awaited driver call and its answer. *)
Definition call {A} (c : BrowserCall) (answer : outcome A) : Browse A :=
  fun st => (answer, {| calls := calls st ++ [c]; browser := browser st |}).

(** [browser = ...] once the launch has returned *)
Definition assignBrowser : Browse unit :=
  fun st => (Returned tt, {| calls := calls st; browser := true |}).

Definition liftB {A} (r : result A) : Browse A :=
  fun st => (lift r, st).

Definition rethrowB {A} (prefix : jsstring) (m : Browse A) : Browse A :=
  fun st => let '(o, st') := m st in (rethrow prefix o, st').

Declare Scope browse_scope.
Delimit Scope browse_scope with browse.
Notation "x <- m ;; k" := (bindB m (fun x => k))
  (at level 61, m at next level, right associativity) : browse_scope.
Local Open Scope browse_scope.

(** ** The seven operations: parameters are read outside the try block,
    whatever the page calls throw is re-raised with the operation's
    prefix. *)

Definition pageOperation (w : World) (prefix : jsstring) (itemIndex : nat)
  : Browse (list (jsstring * value)) :=
  rethrowB prefix (call (PageWork itemIndex) (pageWork w itemIndex)).

Definition executeNavigate (h : IExecuteFunctions) (w : World) (itemIndex : nat)
  : Browse (list (jsstring * value)) :=
  url <- liftB (getNodeParameter_string h (js "url") itemIndex) ;;
  pageOperation w (js "Navigation failed: ") itemIndex.

Definition executeScreenshot (h : IExecuteFunctions) (w : World) (itemIndex : nat)
  : Browse (list (jsstring * value)) :=
  screenshotOptions <- liftB (getNodeParameter_any h (js "screenshotOptions") itemIndex) ;;
  pageOperation w (js "Screenshot failed: ") itemIndex.

Definition executeGetText (h : IExecuteFunctions) (w : World) (itemIndex : nat)
  : Browse (list (jsstring * value)) :=
  selector <- liftB (getNodeParameter_string h (js "selector") itemIndex) ;;
  pageOperation w (js "Get text failed: ") itemIndex.

Definition executeClick (h : IExecuteFunctions) (w : World) (itemIndex : nat)
  : Browse (list (jsstring * value)) :=
  selector <- liftB (getNodeParameter_string h (js "selector") itemIndex) ;;
  pageOperation w (js "Click failed: ") itemIndex.

Definition executeFillForm (h : IExecuteFunctions) (w : World) (itemIndex : nat)
  : Browse (list (jsstring * value)) :=
  selector <- liftB (getNodeParameter_string h (js "selector") itemIndex) ;;
  textValue <- liftB (getNodeParameter_string h (js "textValue") itemIndex) ;;
  pageOperation w (js "Fill form failed: ") itemIndex.

Definition executeWaitForElement (h : IExecuteFunctions) (w : World)
    (itemIndex : nat) : Browse (list (jsstring * value)) :=
  selector <- liftB (getNodeParameter_string h (js "selector") itemIndex) ;;
  waitTimeout <- liftB (getNodeParameter_number h (js "waitTimeout") itemIndex) ;;
  pageOperation w (js "Wait for element failed: ") itemIndex.

Definition executeScript (h : IExecuteFunctions) (w : World) (itemIndex : nat)
  : Browse (list (jsstring * value)) :=
  jsCode <- liftB (getNodeParameter_string h (js "jsCode") itemIndex) ;;
  pageOperation w (js "Script execution failed: ") itemIndex.

(** ** WebBrowseAgent.execute *)

Definition executeItem (h : IExecuteFunctions) (w : World) (i : nat)
  : Browse value :=
  operation <- liftB (getNodeParameter_string h (js "operation") i) ;;
  result <-
    (if str_eqb operation (js "navigate") then executeNavigate h w i
     else if str_eqb operation (js "screenshot") then executeScreenshot h w i
     else if str_eqb operation (js "getText") then executeGetText h w i
     else if str_eqb operation (js "click") then executeClick h w i
     else if str_eqb operation (js "fillForm") then executeFillForm h w i
     else if str_eqb operation (js "waitForElement") then
       executeWaitForElement h w i
     else if str_eqb operation (js "executeScript") then executeScript h w i
     else throw (NodeOperationError (js "Unknown operation: " ++ operation))) ;;
  ret (entry (obj_spread [ (js "operation", VStr operation) ] result)).

Definition errorEntry (error : Error) : value :=
  entry [ (js "error", VStr (message error)) ].

(** The inner [for] loop with its try/catch. *)
Fixpoint itemLoopB (h : IExecuteFunctions) (w : World) (remaining : nat)
    (i : nat) (returnData : list value) : Browse (list value) :=
  match remaining with
  | O => ret returnData
  | S remaining' =>
      fun st =>
        match executeItem h w i st with
        | (Returned item, st') =>
            itemLoopB h w remaining' (S i) (returnData ++ [item]) st'
        | (Thrown e, st') =>
            if continueOnFail h
            then itemLoopB h w remaining' (S i)
                           (returnData ++ [errorEntry e]) st'
            else (Thrown e, st')
        | (Hung, st') => (Hung, st')
        end
  end.

(** [options.key]: reading a property of null or undefined throws, a
    missing property is undefined. *)
Definition getProp (options : value) (key : jsstring) : result value :=
  match options with
  | VNull =>
      Throw (mkError (js "Cannot read properties of null (reading '"
                        ++ key ++ js "')"))
  | VUndefined =>
      Throw (mkError (js "Cannot read properties of undefined (reading '"
                        ++ key ++ js "')"))
  | VObj fields =>
      Ok (match obj_get key fields with Some v => v | None => VUndefined end)
  | _ => Ok VUndefined
  end.

Definition truthyValue (v : value) : bool :=
  match v with
  | VUndefined => false
  | VNull => false
  | VBool b => b
  | VNum n => negb (Qeq_bool n 0)
  | VStr s => truthy s
  | VArr _ => true
  | VObj _ => true
  end.

(** [x !== false] *)
Definition notFalse (v : value) : bool :=
  match v with VBool false => false | _ => true end.

(** [x || fallback] *)
Definition orElse (v fallback : value) : value :=
  if truthyValue v then v else fallback.

(** Initialize browser once for all items. *)
Definition launchBrowser (h : IExecuteFunctions) (w : World) : Browse value :=
  browserOptions <- liftB (getNodeParameter_any h (js "browserOptions") 0) ;;
  headless <- liftB (getProp browserOptions (js "headless")) ;;
  _ <- call (Launch (notFalse headless)) (launch w) ;;
  _ <- assignBrowser ;;
  ret browserOptions.

(** The page, its viewport and its user agent. *)
Definition openPage (w : World) (browserOptions : value) : Browse unit :=
  _ <- call NewPage (newPage w) ;;
  viewportWidth <- liftB (getProp browserOptions (js "viewportWidth")) ;;
  viewportHeight <- liftB (getProp browserOptions (js "viewportHeight")) ;;
  _ <- (if truthyValue viewportWidth || truthyValue viewportHeight
        then call (SetViewport (orElse viewportWidth (VNum 1280))
                               (orElse viewportHeight (VNum 720)))
                  (setViewport w)
        else ret tt) ;;
  userAgent <- liftB (getProp browserOptions (js "userAgent")) ;;
  if truthyValue userAgent
  then call (SetUserAgent userAgent) (setUserAgent w)
  else ret tt.

(** The body of the outer try. *)
Definition tryBlock (h : IExecuteFunctions) (w : World)
  : Browse (list value) :=
  browserOptions <- launchBrowser h w ;;
  _ <- openPage w browserOptions ;;
  itemLoopB h w (List.length (getInputData h)) 0 [].

Definition start : State := {| calls := []; browser := false |}.

(** [try { ... } finally { if (browser) await browser.close(); }]: a
    block that never settles never reaches the finally clause; a close
    that throws replaces the outcome of the block. *)
Definition execute (h : IExecuteFunctions) (w : World)
  : outcome (list value) * State :=
  match tryBlock h w start with
  | (Hung, st) => (Hung, st)
  | (blockOutcome, st) =>
      if browser st then
        match call Close (close w) st with
        | (Returned _, st') => (blockOutcome, st')
        | (Thrown e, st') => (Thrown e, st')
        | (Hung, st') => (Hung, st')
        end
      else (blockOutcome, st)
  end.

End WebBrowseAgent.

(* ================================================================== *)
(** * Vocabulary for event traces                                       *)
(* ================================================================== *)

Module Trace.
Import JS Host.

(** A data event of a child process: neither close nor error. *)
Definition isData (ev : ChildEvent) : bool :=
  match ev with
  | StdoutData _ | StderrData _ => true
  | ChildClose _ | ChildError _ => false
  end.

(** Everything the child wrote to its standard output, in order. *)
Fixpoint stdoutOf (events : list ChildEvent) : jsstring :=
  match events with
  | [] => []
  | StdoutData d :: rest => d ++ stdoutOf rest
  | _ :: rest => stdoutOf rest
  end.

Fixpoint stderrOf (events : list ChildEvent) : jsstring :=
  match events with
  | [] => []
  | StderrData d :: rest => d ++ stderrOf rest
  | _ :: rest => stderrOf rest
  end.

(** A WebSocket event that is a message from the server. *)
Definition isMessage (ev : MCPConnector.WsEvent) : bool :=
  match ev with MCPConnector.WsMessage _ => true | _ => false end.

Definition isSettled {A} (p : settlement A) : bool :=
  match p with Pending => false | _ => true end.

Definition isThrown {A} (o : outcome A) : bool :=
  match o with Thrown _ => true | _ => false end.

Definition isHung {A} (o : outcome A) : bool :=
  match o with Hung => true | _ => false end.


(** SSH events that arrive while the remote command runs and say
    nothing about its end: output chunks and the passing of time. *)
Definition sshQuiet (ev : TerminalAgent.SshEvent) : bool :=
  match ev with
  | TerminalAgent.StreamData _
  | TerminalAgent.StreamStderr _
  | TerminalAgent.TimerFired => true
  | _ => false
  end.

(** SSH events the handlers registered before the connection is ready do
    not listen to. *)
Definition sshUnheard (ev : TerminalAgent.SshEvent) : bool :=
  match ev with
  | TerminalAgent.ExecCallback _
  | TerminalAgent.StreamData _
  | TerminalAgent.StreamStderr _
  | TerminalAgent.StreamClose _ => true
  | _ => false
  end.

(** A received response or a cleared timer means the WebSocket call is
    settled. *)
Definition wsInvariant (st : MCPConnector.WsState) : Prop :=
  (MCPConnector.responseReceived st = true ->
   isSettled (MCPConnector.w_promise st) = true)
  /\ (MCPConnector.w_timer st = false ->
      isSettled (MCPConnector.w_promise st) = true).

(** What makes the loop body of [parseProcessList] push an entry for a
    line. *)
Definition pushed (isWindows : bool) (regex : option (jsstring -> bool))
    (line : jsstring) (p : HubMonitor.Process) : Prop :=
  truthy (trim line) = true
  /\ HubMonitor.parseLine isWindows line = (HubMonitor.name p, HubMonitor.pid p)
  /\ truthy (HubMonitor.name p) = true
  /\ match regex with
     | None => True
     | Some test => test (HubMonitor.name p) = true
     end.

(** Browser code that leaves the variable [browser] alone and only adds
    calls other than the closing of the browser. *)
Definition quiet {A} (m : WebBrowseAgent.Browse A) : Prop :=
  forall st,
    WebBrowseAgent.browser (snd (m st)) = WebBrowseAgent.browser st
    /\ exists more,
         WebBrowseAgent.calls (snd (m st)) = WebBrowseAgent.calls st ++ more
         /\ ~ In WebBrowseAgent.Close more.

(** The entry item [i] contributes when the batch continues on failure. *)
Definition entryOf (body : nat -> outcome value) (onError : nat -> Error -> value)
    (i : nat) : value :=
  match body i with
  | Returned e => e
  | Thrown e => onError i e
  | Hung => VUndefined
  end.

(** The launch of the browser or the opening of the page threw [e]. *)
Definition setupThrew (h : IExecuteFunctions) (w : WebBrowseAgent.World)
    (e : Error) : Prop :=
  fst (WebBrowseAgent.launchBrowser h w WebBrowseAgent.start) = Thrown e
  \/ exists browserOptions st,
       WebBrowseAgent.launchBrowser h w WebBrowseAgent.start
       = (Returned browserOptions, st)
       /\ fst (WebBrowseAgent.openPage w browserOptions st) = Thrown e.

(** One output entry per input item: the run does not throw, what it
    returns is the items' entries in order, and it returns whenever no
    item hangs. *)
Definition oneEntryPerItem (items : nat) (body : nat -> outcome value)
    (onError : nat -> Error -> value) (run : outcome (list value)) : Prop :=
  isThrown run = false
  /\ (forall out, run = Returned out ->
        List.length out = items
        /\ out = map (entryOf body onError) (seq 0 items))
  /\ ((forall i, (i < items)%nat -> isHung (body i) = false) ->
      exists out, run = Returned out).

End Trace.

(* ================================================================== *)
(** * Concrete hosts, runtimes and worlds                               *)
(* ================================================================== *)

Module Examples.
Import JS Host.

(** Integer-valued numbers print in decimal. *)
Definition showNumber (n : number) : jsstring :=
  js (NilZero.string_of_int (Z.to_int (Qfloor n))).

Definition lower (c : char) : char :=
  (if (65 <=? c) && (c <=? 90) then c + 32 else c)%N.

Definition isAlnum (c : char) : bool :=
  ((48 <=? c) && (c <=? 57) || (65 <=? c) && (c <=? 90)
   || (97 <=? c) && (c <=? 122))%N.

Fixpoint prefix_ci (p s : jsstring) : bool :=
  match p, s with
  | [], _ => true
  | x :: p', y :: s' => char_eqb (lower x) (lower y) && prefix_ci p' s'
  | _ :: _, [] => false
  end.

Fixpoint contains_ci (p s : jsstring) : bool :=
  prefix_ci p s
  || match s with [] => false | _ :: s' => contains_ci p s' end.

(** A pattern of letters and digits only matches where it occurs,
    whatever the case; these are the patterns the examples use. *)
Definition literalRegExp (pattern : jsstring) : result (jsstring -> bool) :=
  if forallb isAlnum pattern then Ok (contains_ci pattern)
  else Throw (mkError (js "Invalid regular expression")).

(** The one text the examples parse is the empty object. *)
Definition parseEmptyObject (text : jsstring) : result value :=
  if str_eqb (trim text) (js "{}") then Ok (VObj [])
  else Throw (mkError (js "Unexpected token")).

Definition runtime : Runtime :=
  {| Number_toString := showNumber;
     JSON_parse := parseEmptyObject;
     RegExp_i := literalRegExp |}.

(** A host whose string parameters are given by [strings]; numbers are
    30, booleans false, free-form parameters the empty object. *)
Definition host (strings : jsstring -> jsstring) (items : nat)
    (continue : bool) : IExecuteFunctions :=
  {| getInputData := repeat (VObj []) items;
     getNodeParameter_string := fun name _ => Ok (strings name);
     getNodeParameter_number := fun _ _ => Ok 30;
     getNodeParameter_boolean := fun _ _ => Ok false;
     getNodeParameter_any := fun _ _ => Ok (VObj []);
     continueOnFail := continue |}.

Definition terminalParams (mode : jsstring) (name : jsstring) : jsstring :=
  if str_eqb name (js "executionMode") then mode
  else if str_eqb name (js "command") then js "echo hello"
  else [].

Definition monitorParams (pattern : jsstring) (name : jsstring) : jsstring :=
  if str_eqb name (js "operation") then js "processMonitor"
  else if str_eqb name (js "processPattern") then pattern
  else [].

Definition mcpParams (name : jsstring) : jsstring :=
  if str_eqb name (js "connectionType") then js "http"
  else if str_eqb name (js "serverUrl") then js "http://localhost:8080"
  else if str_eqb name (js "operation") then js "listTools"
  else [].

Definition browseParams (name : jsstring) : jsstring :=
  if str_eqb name (js "operation") then js "navigate"
  else if str_eqb name (js "url") then js "http://localhost"
  else [].

(** Eleven columns of a [ps aux] line; the command comes last. *)
Definition psListing : jsstring :=
  js "USER PID CPU MEM VSZ RSS TTY STAT START TIME COMMAND" ++ [10%N]
  ++ js "root 1 0.0 0.1 100 200 ? Ss 10:00 0:01 /sbin/init" ++ [10%N]
  ++ js "me 42 1.0 2.0 300 400 ? Sl 10:01 0:09 Node server.js" ++ [10%N].

(** The listing command fails for item 0 and succeeds for the others. *)
Definition monitorWorld : HubMonitor.World :=
  {| HubMonitor.diskEvents := fun _ => [ChildClose (Some 0%Z)];
     HubMonitor.memoryUsage := fun _ =>
       {| HubMonitor.heapTotal := 100000000; HubMonitor.heapUsed := 70100000 |};
     HubMonitor.random := fun _ => 1 # 2;
     HubMonitor.cores := 4;
     HubMonitor.psEvents := fun i =>
       match i with
       | O => [ChildClose (Some 1%Z)]
       | _ => [StdoutData psListing; ChildClose (Some 0%Z)]
       end;
     HubMonitor.serviceStatus := fun _ => Returned [];
     HubMonitor.networkScan := fun _ => Returned [];
     HubMonitor.clock := fun _ => js "2024-01-01T00:00:00.000Z";
     HubMonitor.uptime := fun _ => 1;
     HubMonitor.nodeVersion := js "v20";
     HubMonitor.platform := js "linux";
     HubMonitor.arch := js "x64" |}.

(** The browser starts; the page call of item 0 fails, the others
    succeed. *)
Definition browseWorld : WebBrowseAgent.World :=
  {| WebBrowseAgent.launch := Returned tt;
     WebBrowseAgent.newPage := Returned tt;
     WebBrowseAgent.setViewport := Returned tt;
     WebBrowseAgent.setUserAgent := Returned tt;
     WebBrowseAgent.pageWork := fun i =>
       match i with
       | O => Thrown (mkError (js "net::ERR_CONNECTION_REFUSED"))
       | _ => Returned [ (js "success", VBool true) ]
       end;
     WebBrowseAgent.close := Returned tt |}.

End Examples.


(* ================================================================== *)
(** * The export fixer (fix-exports.js)                                 *)
(* ================================================================== *)

Module FixExports.
Import JS.

(** The classes of the four node files the script visits:
    [path.basename(filePath).replace('.node.ts', '')]. *)
Definition classNames : list jsstring :=
  [ js "LMStudioAgent"; js "MCPConnector"; js "WebBrowseAgent"; js "HubMonitor" ].

Fixpoint isPrefix (p s : jsstring) : bool :=
  match p, s with
  | [], _ => true
  | x :: p', y :: s' => char_eqb x y && isPrefix p' s'
  | _ :: _, [] => false
  end.

(** [s.includes(p)] *)
Fixpoint includes (p s : jsstring) : bool :=
  isPrefix p s
  || match s with [] => false | _ :: s' => includes p s' end.

(** [s.replace(new RegExp(p, 'g'), r)] for a non-empty pattern [p] of
    ordinary characters and a replacement without dollar signs, as the
    class names above give: the occurrences of [p] are replaced from left
    to right, without overlap.  [skip] counts the code units of a replaced
    occurrence that are still to be dropped. *)
Fixpoint replaceAll_acc (p r : jsstring) (skip : nat) (s : jsstring) : jsstring :=
  match s with
  | [] => []
  | c :: s' =>
      match skip with
      | S skip' => replaceAll_acc p r skip' s'
      | O =>
          if isPrefix p s then r ++ replaceAll_acc p r (List.length p - 1) s'
          else c :: replaceAll_acc p r 0 s'
      end
  end.

Definition replaceAll (p r s : jsstring) : jsstring := replaceAll_acc p r 0 s.

Definition exportClass (className : jsstring) : jsstring :=
  js "export class " ++ className.

Definition exportStatement (className : jsstring) : jsstring :=
  js "export { " ++ className ++ js " }".

(** What the loop body writes back for a file that exists. *)
Definition fixContent (className content : jsstring) : jsstring :=
  let content := replaceAll (exportClass className) (js "class " ++ className)
                   content in
  if negb (includes (exportStatement className) content)
  then trim content ++ [10%N; 10%N] ++ exportStatement className
         ++ js ";" ++ [10%N]
  else content.

End FixExports.

(* ================================================================== *)
(** * More vocabulary for traces and call logs                          *)
(* ================================================================== *)

Module Observations.
Import JS Host.

(** Everything the remote command wrote to its standard output. *)
Fixpoint sshStdoutOf (events : list TerminalAgent.SshEvent) : jsstring :=
  match events with
  | [] => []
  | TerminalAgent.StreamData d :: rest => d ++ sshStdoutOf rest
  | _ :: rest => sshStdoutOf rest
  end.

Fixpoint sshStderrOf (events : list TerminalAgent.SshEvent) : jsstring :=
  match events with
  | [] => []
  | TerminalAgent.StreamStderr d :: rest => d ++ sshStderrOf rest
  | _ :: rest => sshStderrOf rest
  end.

Definition isOpen (ev : MCPConnector.WsEvent) : bool :=
  match ev with MCPConnector.WsOpen => true | _ => false end.

Definition isResolved {A} (p : settlement A) : bool :=
  match p with Resolved _ => true | _ => false end.

Definition isRejected {A} (p : settlement A) : bool :=
  match p with Rejected _ => true | _ => false end.

(** Browser code all of whose driver calls satisfy [P]. *)
Definition onlyCalls {A} (P : WebBrowseAgent.BrowserCall -> Prop)
    (m : WebBrowseAgent.Browse A) : Prop :=
  forall st, exists more,
    WebBrowseAgent.calls (snd (m st)) = WebBrowseAgent.calls st ++ more
    /\ Forall P more.

(** A call that hands the driver no missing or zero viewport dimension
    and no empty user agent. *)
Definition saneCall (c : WebBrowseAgent.BrowserCall) : Prop :=
  match c with
  | WebBrowseAgent.SetViewport width height =>
      WebBrowseAgent.truthyValue width = true
      /\ WebBrowseAgent.truthyValue height = true
  | WebBrowseAgent.SetUserAgent userAgent =>
      WebBrowseAgent.truthyValue userAgent = true
  | _ => True
  end.

(** A call that is no page work, or page work for an item below [n]. *)
Definition withinBatch (n : nat) (c : WebBrowseAgent.BrowserCall) : Prop :=
  match c with
  | WebBrowseAgent.PageWork i => (i < n)%nat
  | _ => True
  end.

(** The names the six known MCP operations go by. *)
Definition knownOperation (operation : jsstring) : bool :=
  str_eqb operation (js "initialize")
  || str_eqb operation (js "listTools")
  || str_eqb operation (js "callTool")
  || str_eqb operation (js "listResources")
  || str_eqb operation (js "readResource")
  || str_eqb operation (js "sendMessage").

(** The operations the other nodes dispatch on. *)
Definition knownMonitorOperation (operation : jsstring) : bool :=
  str_eqb operation (js "systemHealth")
  || str_eqb operation (js "serviceStatus")
  || str_eqb operation (js "networkScan")
  || str_eqb operation (js "processMonitor")
  || str_eqb operation (js "performanceMetrics").

Definition knownLmOperation (operation : jsstring) : bool :=
  str_eqb operation (js "chat")
  || str_eqb operation (js "completion")
  || str_eqb operation (js "listModels").

Definition knownBrowseOperation (operation : jsstring) : bool :=
  str_eqb operation (js "navigate")
  || str_eqb operation (js "screenshot")
  || str_eqb operation (js "getText")
  || str_eqb operation (js "click")
  || str_eqb operation (js "fillForm")
  || str_eqb operation (js "waitForElement")
  || str_eqb operation (js "executeScript").

(** The JSON-RPC methods of the five enveloped operations. *)
Definition methods : list jsstring :=
  [ js "initialize"; js "tools/list"; js "tools/call"; js "resources/list";
    js "resources/read" ].

(** What a resolved WebSocket call has been through: a response was
    received, the timer is cleared and the socket was told to close. *)
Definition wsResolvedInvariant (st : MCPConnector.WsState) : Prop :=
  isResolved (MCPConnector.w_promise st) = true ->
  MCPConnector.responseReceived st = true
  /\ MCPConnector.w_timer st = false
  /\ (1 <= MCPConnector.w_closeCalls st)%nat.

(** The run throws the error of the first item that fails, provided the
    items before it returned. *)
Definition abortsOnFirstFailure (items : nat) (body : nat -> outcome value)
    (run : outcome (list value)) : Prop :=
  forall k e,
    (k < items)%nat ->
    (forall j, (j < k)%nat -> exists v, body j = Returned v) ->
    body k = Thrown e ->
    run = Thrown e.

(** When every item returns, the run returns the items' entries in input
    order. *)
Definition returnsEveryEntry (items : nat) (body : nat -> outcome value)
    (run : outcome (list value)) : Prop :=
  forall entries,
    List.length entries = items ->
    (forall j, (j < items)%nat -> body j = Returned (nth j entries VUndefined)) ->
    run = Returned entries.

(** A string without white space. *)
Definition wsFree (s : jsstring) : bool :=
  forallb (fun c => negb (isWhiteSpace c)) s.

(** A heap reading a running process can give. *)
Definition saneHeap (m : HubMonitor.MemoryUsage) : Prop :=
  (0 <= HubMonitor.heapUsed m <= HubMonitor.heapTotal m)%Z
  /\ (0 < HubMonitor.heapTotal m)%Z.

(** Browser code whose outcome is the same whatever calls were made
    before it. *)
Definition outcomeOnly {A} (m : WebBrowseAgent.Browse A) : Prop :=
  forall st st', fst (m st) = fst (m st').

(** What item [i] of a Web Browse batch comes to, and the entry built
    from its failure. *)
Definition browseItem (h : IExecuteFunctions) (w : WebBrowseAgent.World)
    (i : nat) : outcome value :=
  fst (WebBrowseAgent.executeItem h w i WebBrowseAgent.start).

Definition browseError (i : nat) (error : Error) : value :=
  WebBrowseAgent.errorEntry error.

(** The launch of the browser and the opening of the page returned,
    leaving the state [st]. *)
Definition setupReturned (h : IExecuteFunctions) (w : WebBrowseAgent.World)
    (st : WebBrowseAgent.State) : Prop :=
  exists browserOptions st1 u,
    WebBrowseAgent.launchBrowser h w WebBrowseAgent.start
    = (Returned browserOptions, st1)
    /\ WebBrowseAgent.openPage w browserOptions st1 = (Returned u, st).

End Observations.

(* ================================================================== *)
(** * More concrete worlds                                              *)
(* ================================================================== *)

Module MoreExamples.
Import JS Host.

(** A machine whose heap is 90.2 percent used. *)
Definition hotWorld : HubMonitor.World :=
  {| HubMonitor.diskEvents := fun _ => [ChildClose (Some 0%Z)];
     HubMonitor.memoryUsage := fun _ =>
       {| HubMonitor.heapTotal := 1000; HubMonitor.heapUsed := 902 |};
     HubMonitor.random := fun _ => 1 # 2;
     HubMonitor.cores := 4;
     HubMonitor.psEvents := fun _ => [];
     HubMonitor.serviceStatus := fun _ => Returned [];
     HubMonitor.networkScan := fun _ => Returned [];
     HubMonitor.clock := fun _ => js "2024-01-01T00:00:00.000Z";
     HubMonitor.uptime := fun _ => 1;
     HubMonitor.nodeVersion := js "v20";
     HubMonitor.platform := js "linux";
     HubMonitor.arch := js "x64" |}.

(** The operation is written with a capital letter. *)
Definition shoutedParams (name : jsstring) : jsstring :=
  if str_eqb name (js "operation") then js "SystemHealth" else [].

(** No browser can be started. *)
Definition noBrowserWorld : WebBrowseAgent.World :=
  {| WebBrowseAgent.launch := Thrown (mkError (js "no chrome"));
     WebBrowseAgent.newPage := Returned tt;
     WebBrowseAgent.setViewport := Returned tt;
     WebBrowseAgent.setUserAgent := Returned tt;
     WebBrowseAgent.pageWork := fun _ => Returned [];
     WebBrowseAgent.close := Returned tt |}.

(** Everything works but the closing of the browser. *)
Definition closeFailsWorld : WebBrowseAgent.World :=
  {| WebBrowseAgent.launch := Returned tt;
     WebBrowseAgent.newPage := Returned tt;
     WebBrowseAgent.setViewport := Returned tt;
     WebBrowseAgent.setUserAgent := Returned tt;
     WebBrowseAgent.pageWork := fun _ => Returned [];
     WebBrowseAgent.close := Thrown (mkError (js "Target closed")) |}.

(** A batch for the process monitor that continues on failure: the
    pattern of item 0 opens a group it never closes and is no regular
    expression, the pattern of every other item is the word node. *)
Definition patternsHost (items : nat) : IExecuteFunctions :=
  {| getInputData := repeat (VObj []) items;
     getNodeParameter_string := fun name i =>
       Ok (Examples.monitorParams
             (match i with O => js "(node" | _ => js "node" end) name);
     getNodeParameter_number := fun _ _ => Ok 30;
     getNodeParameter_boolean := fun _ _ => Ok false;
     getNodeParameter_any := fun _ _ => Ok (VObj []);
     continueOnFail := true |}.

(** The listing command prints its listing and ends with exit code 0,
    for every item. *)
Definition listingWorld : HubMonitor.World :=
  {| HubMonitor.diskEvents := fun _ => [ChildClose (Some 0%Z)];
     HubMonitor.memoryUsage := fun _ =>
       {| HubMonitor.heapTotal := 100000000; HubMonitor.heapUsed := 70100000 |};
     HubMonitor.random := fun _ => 1 # 2;
     HubMonitor.cores := 4;
     HubMonitor.psEvents := fun _ =>
       [StdoutData Examples.psListing; ChildClose (Some 0%Z)];
     HubMonitor.serviceStatus := fun _ => Returned [];
     HubMonitor.networkScan := fun _ => Returned [];
     HubMonitor.clock := fun _ => js "2024-01-01T00:00:00.000Z";
     HubMonitor.uptime := fun _ => 1;
     HubMonitor.nodeVersion := js "v20";
     HubMonitor.platform := js "linux";
     HubMonitor.arch := js "x64" |}.

(** The worlds of the nodes a batch does not run on. *)
Definition idleLmWorld : LMStudioAgent.World :=
  {| LMStudioAgent.chatCompletion := fun _ => Hung;
     LMStudioAgent.textCompletion := fun _ => Hung;
     LMStudioAgent.listModels := fun _ => Hung |}.

Definition idleTerminalWorld : TerminalAgent.World :=
  {| TerminalAgent.childEvents := fun _ => [];
     TerminalAgent.sshEvents := fun _ => [] |}.

Definition idleMcpWorld : MCPConnector.World :=
  {| MCPConnector.wsEvents := fun _ => [];
     MCPConnector.randomId := fun _ => [];
     MCPConnector.clock := fun _ => [] |}.

End MoreExamples.

(* ================================================================== *)
(** * Properties                                                        *)
(* ================================================================== *)

Import JS Host Trace Observations.

Unset Implicit Arguments.

(** ** Strings *)

Lemma str_eqb_eq (a b : jsstring) : str_eqb a b = true <-> a = b.
Proof.
  revert b; induction a as [|x a IH]; intros [|y b]; simpl;
    try (split; [discriminate | intros H; inversion H]); try tauto.
  unfold char_eqb. rewrite andb_true_iff, N.eqb_eq, IH.
  split; [intros [-> ->]; reflexivity | intros H; inversion H; auto].
Qed.

Lemma trimStart_split (s : jsstring) :
  exists l, s = l ++ trimStart s /\ forallb isWhiteSpace l = true.
Proof.
  induction s as [|c s [l [Hs Hl]]]; simpl.
  - exists []; auto.
  - destruct (isWhiteSpace c) eqn:Hc.
    + exists (c :: l); simpl; rewrite Hc, Hl; split; [congruence | reflexivity].
    + exists []; auto.
Qed.

Lemma trimStart_head (s : jsstring) (c : char) (rest : jsstring) :
  trimStart s = c :: rest -> isWhiteSpace c = false.
Proof.
  induction s as [|x s IH]; simpl; [discriminate|].
  destruct (isWhiteSpace x) eqn:Hx; [exact IH|].
  intros H; inversion H; subst; exact Hx.
Qed.

Lemma trimStart_idem_head (s : jsstring) :
  match s with [] => True | c :: _ => isWhiteSpace c = false end ->
  trimStart s = s.
Proof. destruct s as [|c s]; simpl; [reflexivity | intros ->; reflexivity]. Qed.

Lemma forallb_rev {A} (f : A -> bool) (l : list A) :
  forallb f (rev l) = forallb f l.
Proof.
  induction l as [|a l IH]; simpl; [reflexivity|].
  rewrite forallb_app, IH; simpl. rewrite andb_true_r, andb_comm. reflexivity.
Qed.

Lemma trimEnd_split (s : jsstring) :
  exists r, s = trimEnd s ++ r /\ forallb isWhiteSpace r = true.
Proof.
  unfold trimEnd. destruct (trimStart_split (rev s)) as [l [Hs Hl]].
  exists (rev l). split.
  - rewrite <- rev_app_distr, <- Hs, rev_involutive; reflexivity.
  - rewrite forallb_rev; exact Hl.
Qed.

(** What [trim] removes is white space, on both sides. *)
Lemma trim_split (s : jsstring) :
  exists l r, s = l ++ trim s ++ r
              /\ forallb isWhiteSpace l = true /\ forallb isWhiteSpace r = true.
Proof.
  destruct (trimStart_split s) as [l [Hs Hl]].
  destruct (trimEnd_split (trimStart s)) as [r [Ht Hr]].
  exists l, r. unfold trim. rewrite <- Ht. auto.
Qed.

(** The first code unit of a trimmed string is not white space. *)
Lemma trim_first (s : jsstring) (c : char) (rest : jsstring) :
  trim s = c :: rest -> isWhiteSpace c = false.
Proof.
  unfold trim. intros H.
  destruct (trimEnd_split (trimStart s)) as [r [Ht _]].
  rewrite H in Ht. simpl in Ht.
  apply trimStart_head with (s := s) (rest := rest ++ r). exact Ht.
Qed.

(** The last code unit of a trimmed string is not white space. *)
Lemma trim_last (s : jsstring) (c : char) (front : jsstring) :
  trim s = front ++ [c] -> isWhiteSpace c = false.
Proof.
  unfold trim, trimEnd. intros H.
  apply (f_equal (@rev char)) in H.
  rewrite rev_involutive, rev_app_distr in H. simpl in H.
  exact (trimStart_head _ _ _ H).
Qed.

(** ** Promises *)

Lemma resolve_settled {A} (v : A) (p : settlement A) :
  isSettled p = true -> resolve v p = p.
Proof. destruct p; simpl; congruence. Qed.

Lemma reject_settled {A} (e : Error) (p : settlement A) :
  isSettled p = true -> reject e p = p.
Proof. destruct p; simpl; congruence. Qed.

(** ** Terminal Agent: the local path *)

Lemma local_data_only (pre : list ChildEvent) (st : TerminalAgent.LocalState) :
  forallb isData pre = true ->
  fold_left TerminalAgent.local_on pre st
  = {| TerminalAgent.l_stdout := TerminalAgent.l_stdout st ++ stdoutOf pre;
       TerminalAgent.l_stderr := TerminalAgent.l_stderr st ++ stderrOf pre;
       TerminalAgent.l_promise := TerminalAgent.l_promise st |}.
Proof.
  revert st; induction pre as [|ev pre IH]; intros st H; simpl in *.
  - rewrite !app_nil_r. destruct st; reflexivity.
  - apply andb_true_iff in H as [Hev Hpre].
    destruct ev; try discriminate; rewrite (IH _ Hpre); simpl;
      rewrite <- ?app_assoc; reflexivity.
Qed.

Lemma local_settled_stays (events : list ChildEvent) (st : TerminalAgent.LocalState) :
  isSettled (TerminalAgent.l_promise st) = true ->
  TerminalAgent.l_promise (fold_left TerminalAgent.local_on events st)
  = TerminalAgent.l_promise st.
Proof.
  revert st; induction events as [|ev events IH]; intros st H; simpl;
    [reflexivity|].
  assert (Hstep : TerminalAgent.l_promise (TerminalAgent.local_on st ev)
                  = TerminalAgent.l_promise st).
  { destruct ev; simpl; auto using resolve_settled, reject_settled. }
  rewrite IH; rewrite Hstep; auto.
Qed.

(** The first close after data events only settles the call with the
    trimmed output and the exit code; nothing that follows changes it. *)
Lemma local_close (pre post : list ChildEvent) (code : option Z) :
  forallb isData pre = true ->
  TerminalAgent.l_promise (TerminalAgent.local_run (pre ++ ChildClose code :: post))
  = Resolved {| TerminalAgent.exitCode := code;
                TerminalAgent.stdout := trim (stdoutOf pre);
                TerminalAgent.stderr := trim (stderrOf pre);
                TerminalAgent.success := isZero code |}.
Proof.
  intros Hpre. unfold TerminalAgent.local_run.
  rewrite fold_left_app, (local_data_only _ _ Hpre). simpl.
  rewrite local_settled_stays; reflexivity.
Qed.


(** C4. A local command whose child process completes -- it emits close,
    after any number of stdout and stderr chunks and before any error
    event -- resolves with a record holding the exit code, everything
    written to stdout, trimmed, everything written to stderr, trimmed, and
    a success flag equal to (exit code == 0).  Trimmed means: what was cut
    off at either end is white space, and neither end of what is left is. *)
Theorem C4_local_command_record
    (h : IExecuteFunctions) (command workingDirectory : jsstring) (itemIndex : nat)
    (pre post : list ChildEvent) (code : option Z) :
  getNodeParameter_string h (js "workingDirectory") itemIndex = Ok workingDirectory ->
  forallb isData pre = true ->
  exists r,
    TerminalAgent.executeLocalCommand h command itemIndex
      (pre ++ ChildClose code :: post) = Resolved r
    /\ TerminalAgent.exitCode r = code
    /\ TerminalAgent.stdout r = trim (stdoutOf pre)
    /\ TerminalAgent.stderr r = trim (stderrOf pre)
    /\ TerminalAgent.success r
       = match code with Some z => Z.eqb z 0 | None => false end
    /\ (exists l1 r1, stdoutOf pre = l1 ++ TerminalAgent.stdout r ++ r1
          /\ forallb isWhiteSpace l1 = true /\ forallb isWhiteSpace r1 = true)
    /\ (exists l2 r2, stderrOf pre = l2 ++ TerminalAgent.stderr r ++ r2
          /\ forallb isWhiteSpace l2 = true /\ forallb isWhiteSpace r2 = true).
Proof.
  intros Hwd Hpre. unfold TerminalAgent.executeLocalCommand. rewrite Hwd.
  rewrite (local_close _ _ _ Hpre).
  eexists; split; [reflexivity|]; simpl.
  repeat split; auto using trim_split.
Qed.

Lemma C4_local_command_record_witness :
  exists r,
    TerminalAgent.executeLocalCommand
      (Examples.host (Examples.terminalParams (js "local")) 1 false)
      (js "echo hello") 0
      ([StdoutData (js " hel"); StderrData (js "warn "); StdoutData (js "lo ")]
         ++ ChildClose (Some 3%Z) :: [StdoutData (js "late")])
    = Resolved r
    /\ TerminalAgent.exitCode r = Some 3%Z
    /\ TerminalAgent.stdout r = js "hello"
    /\ TerminalAgent.stderr r = js "warn"
    /\ TerminalAgent.success r = false.
Proof.
  destruct (C4_local_command_record
              (Examples.host (Examples.terminalParams (js "local")) 1 false)
              (js "echo hello") [] 0
              [StdoutData (js " hel"); StderrData (js "warn "); StdoutData (js "lo ")]
              [StdoutData (js "late")] (Some 3%Z) eq_refl eq_refl)
    as [r [Hr [Hc [Ho [He [Hs _]]]]]].
  exists r. repeat split; assumption.
Defined.

(** ** Terminal Agent: the SSH path *)



Section SshFacts.
Context {rt : Runtime}.
Variable timeout : number.
Import TerminalAgent.

Lemma ssh_settled_step (st : SshState) (ev : SshEvent) :
  isSettled (s_promise st) = true ->
  s_promise (ssh_on timeout st ev) = s_promise st.
Proof.
  intros H. destruct ev; simpl;
    repeat match goal with
           | |- context [if ?b then _ else _] => destruct b
           | |- context [match ?e with Some _ => _ | None => _ end] => destruct e
           end; simpl; auto using resolve_settled, reject_settled.
Qed.

Lemma ssh_settled_stays (events : list SshEvent) (st : SshState) :
  isSettled (s_promise st) = true ->
  s_promise (fold_left (ssh_on timeout) events st) = s_promise st.
Proof.
  revert st; induction events as [|ev events IH]; intros st H; simpl;
    [reflexivity|].
  rewrite IH; rewrite ssh_settled_step; auto.
Qed.

Lemma ssh_quiet_step (st : SshState) (ev : SshEvent) :
  s_timer st = false ->
  sshQuiet ev = true ->
  s_promise (ssh_on timeout st ev) = s_promise st
  /\ s_timer (ssh_on timeout st ev) = false.
Proof.
  intros Ht Hq. destruct ev; try discriminate; simpl.
  - destruct (s_stream st); simpl; auto.
  - destruct (s_stream st); simpl; auto.
  - rewrite Ht; auto.
Qed.

(** Once the timer is cleared, output and time alone never settle the
    call. *)
Lemma ssh_quiet_pending (events : list SshEvent) (st : SshState) :
  s_timer st = false ->
  forallb sshQuiet events = true ->
  s_promise (fold_left (ssh_on timeout) events st) = s_promise st
  /\ s_timer (fold_left (ssh_on timeout) events st) = false.
Proof.
  revert st; induction events as [|ev events IH]; intros st Ht Hq; simpl in *;
    [auto|].
  apply andb_true_iff in Hq as [Hev Hq].
  destruct (ssh_quiet_step st ev Ht Hev) as [Hp Ht'].
  destruct (IH _ Ht' Hq) as [IHp IHt].
  rewrite IHp, Hp; auto.
Qed.

Lemma ssh_unheard_initial (events : list SshEvent) :
  forallb sshUnheard events = true ->
  fold_left (ssh_on timeout) events ssh_init = ssh_init.
Proof.
  induction events as [|ev events IH]; intros H; simpl in *; [reflexivity|].
  apply andb_true_iff in H as [Hev H].
  destruct ev; try discriminate; simpl; auto.
Qed.

(** The part of the timeout that works: a connection that is not ready
    when the time is up rejects with the timeout error. *)
Lemma ssh_connect_timeout (pre post : list SshEvent) :
  forallb sshUnheard pre = true ->
  s_promise (ssh_run timeout (pre ++ TimerFired :: post))
  = Rejected (timeoutError timeout).
Proof.
  intros H. unfold ssh_run.
  rewrite fold_left_app, (ssh_unheard_initial _ H). simpl.
  rewrite ssh_settled_stays; reflexivity.
Qed.





End SshFacts.

(** ** MCP Connector: the WebSocket path *)

Section WsFacts.
Context {rt : Runtime}.
Variables (h : IExecuteFunctions) (id now operation : jsstring)
          (itemIndex : nat) (timeout : number).
Import MCPConnector.

Let on := ws_on h id now operation itemIndex timeout.


Lemma settled_resolve {A} (v : A) (p : settlement A) :
  isSettled (resolve v p) = true.
Proof. destruct p; reflexivity. Qed.

Lemma settled_reject {A} (e : Error) (p : settlement A) :
  isSettled (reject e p) = true.
Proof. destruct p; reflexivity. Qed.

Lemma ws_invariant_step (st : WsState) (ev : WsEvent) :
  wsInvariant st -> wsInvariant (on st ev).
Proof.
  intros [Hr Ht]. unfold on, wsInvariant.
  destruct ev; simpl;
    repeat match goal with
           | |- context [match ?e with Ok _ => _ | Throw _ => _ end] =>
               destruct e
           | |- context [if ?b then _ else _] => destruct b eqn:?
           end; simpl; split; intros;
    auto using settled_resolve, settled_reject; try discriminate.
Qed.

Lemma ws_invariant_run (events : list WsEvent) (st : WsState) :
  wsInvariant st -> wsInvariant (fold_left on events st).
Proof.
  revert st; induction events as [|ev events IH]; intros st H; simpl;
    auto using ws_invariant_step.
Qed.

Lemma ws_invariant_init : wsInvariant ws_init.
Proof. split; simpl; discriminate. Qed.

Lemma ws_settled_step (st : WsState) (ev : WsEvent) :
  isSettled (w_promise st) = true ->
  w_promise (on st ev) = w_promise st.
Proof.
  intros H. unfold on. destruct ev; simpl;
    repeat match goal with
           | |- context [match ?e with Ok _ => _ | Throw _ => _ end] =>
               destruct e
           | |- context [if ?b then _ else _] => destruct b
           end; simpl; auto using resolve_settled, reject_settled.
Qed.

Lemma ws_settled_stays (events : list WsEvent) (st : WsState) :
  isSettled (w_promise st) = true ->
  w_promise (fold_left on events st) = w_promise st.
Proof.
  revert st; induction events as [|ev events IH]; intros st H; simpl;
    [reflexivity|].
  rewrite IH; rewrite ws_settled_step; auto.
Qed.

Lemma ws_timer_step (st : WsState) :
  wsInvariant st -> isSettled (w_promise (on st WsTimerFired)) = true.
Proof.
  intros [Hr Ht]. unfold on; simpl.
  destruct (w_timer st); [|auto].
  destruct (responseReceived st); simpl; auto using settled_reject.
Qed.

Lemma ws_close_step (st : WsState) :
  wsInvariant st -> w_promise st = Pending ->
  w_promise (on st WsClose) = Rejected wsClosedError.
Proof.
  intros [Hr _] Hp. unfold on; simpl.
  destruct (responseReceived st).
  - rewrite Hp in Hr. discriminate (Hr eq_refl).
  - simpl. rewrite Hp. reflexivity.
Qed.

(** The WebSocket timer covers the whole call: whatever came before,
    once the time is up the call is settled. *)
Lemma ws_timer_settles (pre post : list WsEvent) :
  isSettled (executeWebSocketOperation h id now operation itemIndex timeout
               (pre ++ WsTimerFired :: post)) = true.
Proof.
  unfold executeWebSocketOperation, ws_run. rewrite fold_left_app. cbn [fold_left].
  pose proof (ws_timer_step _ (ws_invariant_run pre _ ws_invariant_init)) as Hs.
  unfold on in *. rewrite ws_settled_stays; unfold on; assumption.
Qed.

(** A pending call has received no response; a close then rejects it. *)
Lemma ws_close_pending (events post : list WsEvent) :
  executeWebSocketOperation h id now operation itemIndex timeout events = Pending ->
  executeWebSocketOperation h id now operation itemIndex timeout
    (events ++ WsClose :: post) = Rejected wsClosedError.
Proof.
  unfold executeWebSocketOperation, ws_run. intros Hp.
  rewrite fold_left_app. cbn [fold_left].
  pose proof (ws_close_step _ (ws_invariant_run events _ ws_invariant_init) Hp)
    as Hc.
  unfold on in *. rewrite ws_settled_stays; unfold on; rewrite Hc; reflexivity.
Qed.

End WsFacts.

(** C1 (the code departs from the specification).  In the SSH path the ready
    handler clears the timer before the command is even sent.  Once the
    connection is ready and the exec channel is open, a command that does
    not answer -- whatever output chunks arrive and however much time
    passes -- leaves the call pending for ever: no timeout error, the
    invocation hangs.  The timer is disarmed, so no later tick can settle
    the call either. *)
Theorem C1_ssh_command_without_answer_hangs
    {rt : Runtime} (timeout : number) (quiet : list TerminalAgent.SshEvent) :
  forallb sshQuiet quiet = true ->
  let st := TerminalAgent.ssh_run timeout
              (TerminalAgent.ConnReady :: TerminalAgent.ExecCallback None :: quiet) in
  TerminalAgent.s_promise st = Pending
  /\ TerminalAgent.s_timer st = false
  /\ await (TerminalAgent.s_promise st) = Hung.
Proof.
  intros Hq st.
  assert (H : TerminalAgent.s_promise st = Pending
              /\ TerminalAgent.s_timer st = false).
  { subst st. unfold TerminalAgent.ssh_run. cbn [fold_left].
    apply (ssh_quiet_pending timeout quiet); [reflexivity | exact Hq]. }
  destruct H as [Hp Ht]. rewrite Hp. auto.
Qed.

Lemma C1_ssh_command_without_answer_hangs_witness :
  TerminalAgent.executeRemoteCommand (rt := Examples.runtime)
    (Examples.host (Examples.terminalParams (js "remote")) 1 true)
    (js "sleep 3600") 0 30
    [TerminalAgent.ConnReady; TerminalAgent.ExecCallback None;
     TerminalAgent.StreamData (js "started"); TerminalAgent.TimerFired;
     TerminalAgent.TimerFired]
  = Pending.
Proof.
  exact (proj1 (C1_ssh_command_without_answer_hangs (rt := Examples.runtime) 30
                  [TerminalAgent.StreamData (js "started");
                   TerminalAgent.TimerFired; TerminalAgent.TimerFired]
                  eq_refl)).
Defined.

(** The same run seen from the node: with continue-on-failure enabled the
    batch of one remote item never returns. *)
Example ssh_batch_hangs :
  TerminalAgent.execute (rt := Examples.runtime)
    (Examples.host (Examples.terminalParams (js "remote")) 1 true)
    {| TerminalAgent.childEvents := fun _ => [];
       TerminalAgent.sshEvents := fun _ =>
         [TerminalAgent.ConnReady; TerminalAgent.ExecCallback None;
          TerminalAgent.TimerFired] |}
  = Hung.
Proof. reflexivity. Qed.

(** The WebSocket path under the same conditions: connection open,
    message sent, no answer, time up -- the call rejects with the timeout
    error. *)
Example ws_no_answer_times_out :
  MCPConnector.executeWebSocketOperation (rt := Examples.runtime)
    (Examples.host Examples.mcpParams 1 true) (js "id") (js "now")
    (js "listTools") 0 30
    [MCPConnector.WsOpen; MCPConnector.WsTimerFired]
  = Rejected (NodeOperationError
                (js "WebSocket operation timeout after 30 seconds")).
Proof. reflexivity. Qed.

(** C6. A WebSocket call of the MCP Connector that has received no message
    and is still unsettled (no error, no timeout, no failed send has
    settled it) when the connection's close event occurs rejects with the
    error that the connection closed unexpectedly; later events do not
    change that. *)
Theorem C6_close_before_any_message
    {rt : Runtime} (h : IExecuteFunctions) (id now operation : jsstring)
    (itemIndex : nat) (timeout : number) (events post : list MCPConnector.WsEvent) :
  forallb (fun ev => negb (isMessage ev)) events = true ->
  MCPConnector.executeWebSocketOperation h id now operation itemIndex timeout
    events = Pending ->
  MCPConnector.executeWebSocketOperation h id now operation itemIndex timeout
    (events ++ MCPConnector.WsClose :: post)
  = Rejected (NodeOperationError (js "WebSocket connection closed unexpectedly")).
Proof.
  intros _ Hp. exact (ws_close_pending h id now operation itemIndex timeout _ _ Hp).
Qed.

Lemma C6_close_before_any_message_witness :
  MCPConnector.executeWebSocketOperation (rt := Examples.runtime)
    (Examples.host Examples.mcpParams 1 false) (js "id") (js "now")
    (js "listTools") 0 30
    ([MCPConnector.WsOpen] ++ MCPConnector.WsClose :: [MCPConnector.WsTimerFired])
  = Rejected (NodeOperationError (js "WebSocket connection closed unexpectedly")).
Proof.
  apply (C6_close_before_any_message (rt := Examples.runtime)); reflexivity.
Defined.

(** ** Hub Monitor: the process monitor *)

Section MonitorFacts.
Context {rt : Runtime}.
Variables (pattern : jsstring) (windows : bool).
Import HubMonitor.

Lemma monitor_data_only (pre : list ChildEvent) (st : MonitorState) :
  forallb isData pre = true ->
  fold_left (monitor_on pattern windows) pre st
  = {| output := output st ++ stdoutOf pre; p_promise := p_promise st |}.
Proof.
  revert st; induction pre as [|ev pre IH]; intros st H; simpl in *.
  - rewrite app_nil_r. destruct st; reflexivity.
  - apply andb_true_iff in H as [Hev Hpre].
    destruct ev; try discriminate; rewrite (IH _ Hpre); simpl;
      rewrite <- ?app_assoc; reflexivity.
Qed.

Lemma monitor_settled_stays (events : list ChildEvent) (st : MonitorState) :
  isSettled (p_promise st) = true ->
  p_promise (fold_left (monitor_on pattern windows) events st)
  = p_promise st.
Proof.
  revert st; induction events as [|ev events IH]; intros st H; simpl;
    [reflexivity|].
  assert (Hstep : p_promise (monitor_on pattern windows st ev)
                  = p_promise st).
  { destruct ev; simpl; auto using reject_settled.
    destruct (isZero code); simpl; auto using reject_settled.
    destruct (parseProcessList _ _ _); simpl; auto using resolve_settled. }
  rewrite IH; rewrite Hstep; auto.
Qed.



End MonitorFacts.




(** ** Hub Monitor: parsing the process listing *)


Lemma pushLine_cases (isWindows : bool) (regex : option (jsstring -> bool))
    (processes : list HubMonitor.Process) (line : jsstring) :
  HubMonitor.pushLine isWindows regex processes line = processes
  \/ exists p, HubMonitor.pushLine isWindows regex processes line = processes ++ [p]
               /\ pushed isWindows regex line p.
Proof.
  unfold HubMonitor.pushLine, pushed.
  destruct (truthy (trim line)) eqn:Hl; simpl; [|left; reflexivity].
  destruct (HubMonitor.parseLine isWindows line) as [processName pid] eqn:Hp.
  destruct (truthy processName) eqn:Hn; simpl; [|left; reflexivity].
  destruct regex as [test|].
  - destruct (test processName) eqn:Ht; [|left; reflexivity].
    right. exists {| HubMonitor.name := processName; HubMonitor.pid := pid |}.
    simpl. auto.
  - right. exists {| HubMonitor.name := processName; HubMonitor.pid := pid |}.
    simpl. auto.
Qed.

Lemma parse_loop_entries (isWindows : bool) (regex : option (jsstring -> bool))
    (lines : list jsstring) (processes : list HubMonitor.Process)
    (p : HubMonitor.Process) :
  In p (fold_left (HubMonitor.pushLine isWindows regex) lines processes) ->
  In p processes \/ exists line, In line lines /\ pushed isWindows regex line p.
Proof.
  revert processes; induction lines as [|line lines IH]; intros processes H;
    simpl in *; [auto|].
  destruct (IH _ H) as [Hin | [l [Hl Hp]]].
  - destruct (pushLine_cases isWindows regex processes line) as [E | [q [E Hq]]];
      rewrite E in Hin; [auto|].
    apply in_app_or in Hin as [Hin | [<- | []]]; [auto|].
    right. exists line. auto.
  - right. exists l. auto.
Qed.

(** C7. For every listing text and every non-empty pattern that is a
    regular expression, on either platform, parseProcessList returns, and
    every entry it returns carries a name that the case-insensitive regular
    expression built from the pattern matches; the name is the non-empty
    one parsed from some line of the listing.  No returned entry has a name
    that fails the match. *)
Theorem C7_parseProcessList_only_matching
    {rt : Runtime} (output pattern : jsstring) (isWindows : bool)
    (test : jsstring -> bool) :
  truthy pattern = true ->
  RegExp_i pattern = Ok test ->
  exists processes,
    HubMonitor.parseProcessList output pattern isWindows = Ok processes
    /\ (forall p, In p processes ->
          test (HubMonitor.name p) = true
          /\ truthy (HubMonitor.name p) = true
          /\ exists line, In line (split HubMonitor.LF output)
                          /\ HubMonitor.parseLine isWindows line
                             = (HubMonitor.name p, HubMonitor.pid p))
    /\ (forall p, In p processes -> test (HubMonitor.name p) <> false).
Proof.
  intros Hne Hre. unfold HubMonitor.parseProcessList.
  rewrite Hne, Hre. eexists; split; [reflexivity|].
  assert (Hall : forall p,
             In p (fold_left (HubMonitor.pushLine isWindows (Some test))
                     (split HubMonitor.LF output) []) ->
             test (HubMonitor.name p) = true
             /\ truthy (HubMonitor.name p) = true
             /\ exists line, In line (split HubMonitor.LF output)
                             /\ HubMonitor.parseLine isWindows line
                                = (HubMonitor.name p, HubMonitor.pid p)).
  { intros p Hp.
    destruct (parse_loop_entries _ _ _ _ _ Hp) as [[] | [line [Hl [_ [Hparse [Hn Ht]]]]]].
    split; [exact Ht|]. split; [exact Hn|].
    exists line. auto. }
  split; [exact Hall|].
  intros p Hp. destruct (Hall p Hp) as [Ht _]. rewrite Ht. discriminate.
Qed.

Lemma C7_parseProcessList_only_matching_witness :
  exists processes,
    HubMonitor.parseProcessList (rt := Examples.runtime)
      Examples.psListing (js "node") false = Ok processes
    /\ map HubMonitor.name processes = [js "Node server.js"]
    /\ (forall p, In p processes ->
          Examples.contains_ci (js "node") (HubMonitor.name p) = true).
Proof.
  destruct (C7_parseProcessList_only_matching (rt := Examples.runtime)
              Examples.psListing (js "node") false
              (Examples.contains_ci (js "node")))
    as [processes [Hparse [Hall _]]].
  - reflexivity.
  - reflexivity.
  - exists processes. split; [exact Hparse|]. split.
    + vm_compute in Hparse. inversion Hparse. reflexivity.
    + intros p Hp. exact (proj1 (Hall p Hp)).
Defined.

(** ** Hub Monitor: the memory check *)

Lemma gt_true (x y : number) : HubMonitor.gt x y = true <-> y < x.
Proof.
  unfold HubMonitor.gt. rewrite negb_true_iff.
  split.
  - intros H. apply Qnot_le_lt. intros Hle.
    apply Qle_bool_iff in Hle. congruence.
  - intros H. destruct (Qle_bool x y) eqn:E; [|reflexivity].
    apply Qle_bool_iff in E. exfalso. exact (Qlt_not_le _ _ H E).
Qed.

Lemma gt_false (x y : number) : HubMonitor.gt x y = false <-> x <= y.
Proof.
  unfold HubMonitor.gt. rewrite negb_false_iff. apply Qle_bool_iff.
Qed.

Lemma usageStatus_ok (usage : number) :
  usage <= 70 -> HubMonitor.usageStatus usage = HubMonitor.ok.
Proof.
  intros H. unfold HubMonitor.usageStatus.
  assert (H90 : usage <= 90) by lra.
  apply gt_false in H, H90. rewrite H90, H. reflexivity.
Qed.

Lemma usageStatus_warning (usage : number) :
  70 < usage -> usage <= 90 -> HubMonitor.usageStatus usage = HubMonitor.warning.
Proof.
  intros H70 H90. unfold HubMonitor.usageStatus.
  apply gt_true in H70. apply gt_false in H90. rewrite H90, H70. reflexivity.
Qed.

Lemma usageStatus_critical (usage : number) :
  90 < usage -> HubMonitor.usageStatus usage = HubMonitor.critical.
Proof.
  intros H. unfold HubMonitor.usageStatus.
  apply gt_true in H. rewrite H. reflexivity.
Qed.

(** [Math.round] between two half-way points. *)
Lemma Math_round_between (x : number) (n : Z) :
  inject_Z n - (1 # 2) <= x -> x < inject_Z n + (1 # 2) -> Math_round x = n.
Proof.
  intros Hlo Hhi. unfold Math_round.
  pose proof (Qfloor_le (x + (1 # 2))) as Hf.
  pose proof (Qlt_floor (x + (1 # 2))) as Hc.
  rewrite inject_Z_plus in Hc.
  assert (H1 : inject_Z (Qfloor (x + (1 # 2))) < inject_Z (n + 1)).
  { rewrite inject_Z_plus. change (inject_Z 1) with 1 in *. lra. }
  assert (H2 : inject_Z n < inject_Z (Qfloor (x + (1 # 2)) + 1)).
  { rewrite inject_Z_plus. change (inject_Z 1) with 1 in *. lra. }
  rewrite <- Zlt_Qlt in H1, H2. lia.
Qed.

(** C3. The status the memory check derives from a usage percentage is ok
    for a usage of at most 70, warning for a usage above 70 and at most
    90, and critical for a usage above 90; so 70 is ok, 70.1 warning, 90
    warning and 90.1 critical.  The memory check classifies the usage it
    computed from the heap figures, before rounding. *)
Theorem C3_memory_usage_classification {rt : Runtime} (usage : number) :
  (usage <= 70 -> HubMonitor.usageStatus usage = HubMonitor.ok)
  /\ (70 < usage -> usage <= 90 ->
      HubMonitor.usageStatus usage = HubMonitor.warning)
  /\ (90 < usage -> HubMonitor.usageStatus usage = HubMonitor.critical)
  /\ HubMonitor.usageStatus 70 = HubMonitor.ok
  /\ HubMonitor.usageStatus (701 # 10) = HubMonitor.warning
  /\ HubMonitor.usageStatus 90 = HubMonitor.warning
  /\ HubMonitor.usageStatus (901 # 10) = HubMonitor.critical
  /\ (forall m, HubMonitor.m_status (HubMonitor.checkMemoryUsage m)
                = HubMonitor.usageStatus (HubMonitor.rawUsage m))
  /\ HubMonitor.statusName HubMonitor.ok = js "ok"
  /\ HubMonitor.statusName HubMonitor.warning = js "warning"
  /\ HubMonitor.statusName HubMonitor.critical = js "critical".
Proof.
  repeat split;
    auto using usageStatus_ok, usageStatus_warning, usageStatus_critical.
Qed.

Lemma C3_memory_usage_classification_witness :
  HubMonitor.m_status
    (HubMonitor.checkMemoryUsage (rt := Examples.runtime)
       {| HubMonitor.heapTotal := 1000; HubMonitor.heapUsed := 700 |})
  = HubMonitor.ok
  /\ HubMonitor.m_status
       (HubMonitor.checkMemoryUsage (rt := Examples.runtime)
          {| HubMonitor.heapTotal := 1000; HubMonitor.heapUsed := 701 |})
     = HubMonitor.warning
  /\ HubMonitor.m_status
       (HubMonitor.checkMemoryUsage (rt := Examples.runtime)
          {| HubMonitor.heapTotal := 1000; HubMonitor.heapUsed := 901 |})
     = HubMonitor.critical.
Proof.
  split; [|split].
  - apply (proj1 (C3_memory_usage_classification (rt := Examples.runtime)
                    (HubMonitor.rawUsage
                       {| HubMonitor.heapTotal := 1000; HubMonitor.heapUsed := 700 |}))).
    apply Qle_bool_imp_le. reflexivity.
  - apply (proj1 (proj2 (C3_memory_usage_classification (rt := Examples.runtime)
                    (HubMonitor.rawUsage
                       {| HubMonitor.heapTotal := 1000; HubMonitor.heapUsed := 701 |})))).
    + reflexivity.
    + apply Qle_bool_imp_le. reflexivity.
  - apply (proj1 (proj2 (proj2 (C3_memory_usage_classification (rt := Examples.runtime)
                    (HubMonitor.rawUsage
                       {| HubMonitor.heapTotal := 1000; HubMonitor.heapUsed := 901 |}))))).
    reflexivity.
Defined.

Lemma memoryFields_usage (c : HubMonitor.MemoryCheck) :
  obj_get (js "usage") (HubMonitor.memoryFields c)
  = Some (VNum (inject_Z (HubMonitor.m_usage c))).
Proof. reflexivity. Qed.

Lemma memoryFields_status (c : HubMonitor.MemoryCheck) :
  obj_get (js "status") (HubMonitor.memoryFields c)
  = Some (VStr (HubMonitor.statusName (HubMonitor.m_status c))).
Proof. reflexivity. Qed.

(** C10. The memory check reports the rounded usage but classifies the
    unrounded one: for a heap whose raw usage lies strictly between 70 and
    70.5 the record carries usage 70 together with status warning, although
    a usage of 70 classifies as ok. *)
Theorem C10_rounded_usage_and_status_disagree
    {rt : Runtime} (m : HubMonitor.MemoryUsage) :
  70 < HubMonitor.rawUsage m ->
  HubMonitor.rawUsage m < 705 # 10 ->
  HubMonitor.m_usage (HubMonitor.checkMemoryUsage m) = 70%Z
  /\ HubMonitor.m_status (HubMonitor.checkMemoryUsage m) = HubMonitor.warning
  /\ HubMonitor.usageStatus
       (inject_Z (HubMonitor.m_usage (HubMonitor.checkMemoryUsage m)))
     = HubMonitor.ok
  /\ obj_get (js "usage")
       (HubMonitor.memoryFields (HubMonitor.checkMemoryUsage m))
     = Some (VNum 70)
  /\ obj_get (js "status")
       (HubMonitor.memoryFields (HubMonitor.checkMemoryUsage m))
     = Some (VStr (js "warning")).
Proof.
  intros Hlo Hhi.
  assert (Hu : HubMonitor.m_usage (HubMonitor.checkMemoryUsage m) = 70%Z).
  { simpl. apply Math_round_between; change (inject_Z 70) with 70; lra. }
  assert (Hs : HubMonitor.m_status (HubMonitor.checkMemoryUsage m)
               = HubMonitor.warning).
  { simpl. apply usageStatus_warning; lra. }
  repeat split.
  - exact Hu.
  - exact Hs.
  - rewrite Hu. reflexivity.
  - rewrite memoryFields_usage, Hu. reflexivity.
  - rewrite memoryFields_status, Hs. reflexivity.
Qed.

Lemma C10_rounded_usage_and_status_disagree_witness :
  HubMonitor.m_usage
    (HubMonitor.checkMemoryUsage (rt := Examples.runtime)
       {| HubMonitor.heapTotal := 100000000; HubMonitor.heapUsed := 70100000 |})
  = 70%Z
  /\ HubMonitor.m_status
       (HubMonitor.checkMemoryUsage (rt := Examples.runtime)
          {| HubMonitor.heapTotal := 100000000; HubMonitor.heapUsed := 70100000 |})
     = HubMonitor.warning.
Proof.
  destruct (C10_rounded_usage_and_status_disagree (rt := Examples.runtime)
              {| HubMonitor.heapTotal := 100000000; HubMonitor.heapUsed := 70100000 |})
    as [Hu [Hs _]].
  - reflexivity.
  - reflexivity.
  - split; assumption.
Defined.

(** ** The item loop *)

Section ItemLoop.
Variables (body : nat -> outcome value) (onError : nat -> Error -> value).

(** With continue-on-failure the loop does not throw. *)
Lemma itemLoop_continue_no_throw (n i : nat) (acc : list value) :
  isThrown (itemLoop body onError true n i acc) = false.
Proof.
  revert i acc; induction n as [|n IH]; intros i acc; simpl; [reflexivity|].
  destruct (body i); auto.
Qed.

(** With continue-on-failure, what the loop returns is the entries of
    the items in order, behind what was there. *)
Lemma itemLoop_continue_returned (n i : nat) (acc out : list value) :
  itemLoop body onError true n i acc = Returned out ->
  out = acc ++ map (entryOf body onError) (seq i n).
Proof.
  revert i acc; induction n as [|n IH]; intros i acc H; simpl in *.
  - inversion H. rewrite app_nil_r. reflexivity.
  - unfold entryOf at 1.
    destruct (body i); try discriminate;
      rewrite (IH _ _ H), <- app_assoc; reflexivity.
Qed.

(** With continue-on-failure the loop returns unless an item hangs. *)
Lemma itemLoop_continue_returns (n i : nat) (acc : list value) :
  (forall j, (i <= j < i + n)%nat -> isHung (body j) = false) ->
  exists out, itemLoop body onError true n i acc = Returned out.
Proof.
  revert i acc; induction n as [|n IH]; intros i acc H; simpl.
  - eexists; reflexivity.
  - assert (Hi : isHung (body i) = false) by (apply H; lia).
    destruct (body i); try discriminate; apply IH; intros j Hj; apply H; lia.
Qed.

(** With continue-on-failure the loop stops at the first item that
    hangs, whatever the items before it did. *)
Lemma itemLoop_hangs (n i k : nat) (acc : list value) :
  (k < n)%nat ->
  (forall j, (i <= j < i + k)%nat -> isHung (body j) = false) ->
  body (i + k)%nat = Hung ->
  itemLoop body onError true n i acc = Hung.
Proof.
  revert i k acc; induction n as [|n IH]; intros i k acc Hk Hbefore Hhung;
    [lia|].
  destruct k as [|k].
  - cbn [itemLoop]. rewrite Nat.add_0_r in Hhung. rewrite Hhung. reflexivity.
  - cbn [itemLoop].
    assert (Hi : isHung (body i) = false) by (apply Hbefore; lia).
    destruct (body i) as [entry|e|]; [| |discriminate];
      (apply (IH (S i) k); [lia | intros j Hj; apply Hbefore; lia |
                            replace (S i + k)%nat with (i + S k)%nat by lia;
                            exact Hhung]).
Qed.

Lemma itemLoop_one_entry_per_item (n : nat) :
  oneEntryPerItem n body onError (itemLoop body onError true n 0 []).
Proof.
  split; [apply itemLoop_continue_no_throw|]. split.
  - intros out H. apply itemLoop_continue_returned in H. subst out.
    simpl. rewrite length_map, length_seq. auto.
  - intros H. apply itemLoop_continue_returns. intros j Hj. apply H. lia.
Qed.

End ItemLoop.

(** ** Web Browse Agent: the browser calls *)

Section BrowseFacts.
Import WebBrowseAgent.

Lemma quiet_pure {A} (m : Browse A) :
  (forall st, snd (m st) = st) -> quiet m.
Proof.
  intros H st. rewrite H. split; [reflexivity|].
  exists []. rewrite app_nil_r. auto.
Qed.

Lemma quiet_ret {A} (a : A) : quiet (ret a).
Proof. apply quiet_pure; reflexivity. Qed.

Lemma quiet_throw {A} (e : Error) : quiet (@throw A e).
Proof. apply quiet_pure; reflexivity. Qed.

Lemma quiet_liftB {A} (r : result A) : quiet (liftB r).
Proof. apply quiet_pure; reflexivity. Qed.

Lemma quiet_call {A} (c : BrowserCall) (answer : outcome A) :
  c <> Close -> quiet (call c answer).
Proof.
  intros Hc st; simpl. split; [reflexivity|].
  exists [c]. split; [reflexivity|]. intros [H | []]. congruence.
Qed.

(** Two quiet steps in a row. *)
Lemma quiet_then (s0 s1 s2 : State) :
  (browser s1 = browser s0
   /\ exists more, calls s1 = calls s0 ++ more /\ ~ In Close more) ->
  (browser s2 = browser s1
   /\ exists more, calls s2 = calls s1 ++ more /\ ~ In Close more) ->
  browser s2 = browser s0
  /\ exists more, calls s2 = calls s0 ++ more /\ ~ In Close more.
Proof.
  intros [Hb1 [m1 [Hc1 Hn1]]] [Hb2 [m2 [Hc2 Hn2]]].
  split; [congruence|]. exists (m1 ++ m2).
  split; [rewrite Hc2, Hc1, app_assoc; reflexivity|].
  intros Hin. apply in_app_or in Hin. tauto.
Qed.

Lemma quiet_bind {A B} (m : Browse A) (k : A -> Browse B) :
  quiet m -> (forall a, quiet (k a)) -> quiet (bindB m k).
Proof.
  intros Hm Hk st. unfold bindB. specialize (Hm st).
  destruct (m st) as [[a|e|] st']; simpl in *; try exact Hm.
  exact (quiet_then _ _ _ Hm (Hk a st')).
Qed.

Lemma quiet_rethrowB {A} (prefix : jsstring) (m : Browse A) :
  quiet m -> quiet (rethrowB prefix m).
Proof.
  intros Hm st. unfold rethrowB. specialize (Hm st).
  destruct (m st) as [o st']; exact Hm.
Qed.

Variables (h : IExecuteFunctions) (w : World).

Lemma quiet_pageOperation (prefix : jsstring) (i : nat) :
  quiet (pageOperation w prefix i).
Proof. apply quiet_rethrowB, quiet_call. discriminate. Qed.

Lemma quiet_executeItem (i : nat) : quiet (executeItem h w i).
Proof.
  unfold executeItem, executeNavigate, executeScreenshot, executeGetText,
    executeClick, executeFillForm, executeWaitForElement, executeScript.
  repeat first
    [ apply quiet_bind; [|intros ?]
    | apply quiet_liftB
    | apply quiet_ret
    | apply quiet_throw
    | apply quiet_pageOperation
    | match goal with |- quiet (if ?b then _ else _) => destruct b end ].
Qed.

Lemma quiet_itemLoopB (n i : nat) (acc : list value) :
  quiet (itemLoopB h w n i acc).
Proof.
  revert i acc; induction n as [|n IH]; intros i acc; simpl.
  - apply quiet_ret.
  - intros st. pose proof (quiet_executeItem i st) as Hitem.
    destruct (executeItem h w i st) as [[item|e|] st']; simpl in *.
    + exact (quiet_then _ _ _ Hitem (IH (S i) (acc ++ [item]) st')).
    + destruct (continueOnFail h); simpl; [|exact Hitem].
      exact (quiet_then _ _ _ Hitem (IH (S i) (acc ++ [errorEntry e]) st')).
    + exact Hitem.
Qed.

Lemma quiet_openPage (browserOptions : value) : quiet (openPage w browserOptions).
Proof.
  unfold openPage.
  repeat first
    [ apply quiet_bind; [|intros ?]
    | apply quiet_liftB
    | apply quiet_ret
    | apply quiet_call; discriminate
    | match goal with |- quiet (if ?b then _ else _) => destruct b end ].
Qed.

(** With continue-on-failure the inner loop does not throw, and what it
    returns has one more entry per item. *)
Lemma itemLoopB_continue (n i : nat) (acc : list value) (st : State) :
  continueOnFail h = true ->
  match fst (itemLoopB h w n i acc st) with
  | Returned out => List.length out = (List.length acc + n)%nat
  | Thrown _ => False
  | Hung => True
  end.
Proof.
  intros Hc. revert i acc st; induction n as [|n IH]; intros i acc st; simpl.
  - lia.
  - destruct (executeItem h w i st) as [[item|e|] st']; simpl; [| |exact I].
    + specialize (IH (S i) (acc ++ [item]) st').
      destruct (fst (itemLoopB h w n (S i) (acc ++ [item]) st')); auto.
      rewrite IH, length_app. simpl. lia.
    + rewrite Hc. specialize (IH (S i) (acc ++ [errorEntry e]) st').
      destruct (fst (itemLoopB h w n (S i) (acc ++ [errorEntry e]) st')); auto.
      rewrite IH, length_app. simpl. lia.
Qed.

End BrowseFacts.

(** ** Web Browse Agent: the whole batch *)

Section BrowseBatch.
Import WebBrowseAgent.
Variables (h : IExecuteFunctions) (w : World).

Lemma tryBlock_continue :
  continueOnFail h = true ->
  match fst (tryBlock h w start) with
  | Returned out => List.length out = List.length (getInputData h)
  | Thrown e => setupThrew h w e
  | Hung => True
  end.
Proof.
  intros Hc. unfold tryBlock, bindB, setupThrew.
  destruct (launchBrowser h w start) as [[browserOptions|e|] st] eqn:El;
    simpl; [| left; reflexivity | exact I].
  destruct (openPage w browserOptions st) as [[u|e|] st'] eqn:Eo; simpl;
    [| right; exists browserOptions, st; rewrite Eo; auto | exact I].
  pose proof (itemLoopB_continue h w (List.length (getInputData h)) 0 [] st' Hc)
    as Hloop.
  destruct (fst (itemLoopB h w (List.length (getInputData h)) 0 [] st'));
    simpl in *; auto; contradiction.
Qed.

Lemma execute_returned (out : list value) :
  fst (execute h w) = Returned out -> fst (tryBlock h w start) = Returned out.
Proof.
  unfold execute.
  destruct (tryBlock h w start) as [[out'|e|] st]; simpl;
    destruct (browser st); simpl; try destruct (close w); simpl;
    congruence.
Qed.

Lemma execute_thrown (e : Error) :
  fst (execute h w) = Thrown e ->
  fst (tryBlock h w start) = Thrown e \/ close w = Thrown e.
Proof.
  unfold execute.
  destruct (tryBlock h w start) as [[out'|e'|] st]; simpl;
    destruct (browser st); simpl; try destruct (close w); simpl;
    intros H; inversion H; auto.
Qed.

End BrowseBatch.

(** ** Hub Monitor: a pattern that is no regular expression *)

(** [new RegExp] throws inside the close listener, where nothing catches
    the exception and nothing rejects the promise. *)
Lemma monitor_malformed_pending
    {rt : Runtime} (pattern : jsstring) (isWindows : bool) (error : Error)
    (pre post : list ChildEvent) :
  truthy pattern = true ->
  RegExp_i pattern = Throw error ->
  forallb isData pre = true ->
  forallb isData post = true ->
  HubMonitor.p_promise
    (HubMonitor.monitor_run pattern isWindows
       (pre ++ ChildClose (Some 0%Z) :: post))
  = Pending.
Proof.
  intros Ht Hre Hpre Hpost. unfold HubMonitor.monitor_run.
  rewrite fold_left_app, (monitor_data_only pattern isWindows pre _ Hpre).
  cbn [fold_left]. unfold HubMonitor.monitor_on at 2. cbn [isZero Z.eqb negb].
  unfold HubMonitor.parseProcessList. rewrite Ht, Hre.
  rewrite (monitor_data_only pattern isWindows post _ Hpost). reflexivity.
Qed.

(** C2. The claim does not hold of the Hub Monitor as the code is written.
    With the host's continue-on-failure flag enabled, let item k of a batch
    run the process monitor with a pattern that is no regular expression,
    and let the listing command write its output and close with exit code
    0.  The failure of item k is neither caught nor turned into an error
    entry: the item never settles, and so the batch never returns a
    collection -- no entry for item k and none for the items after it --
    whatever the items before k did, as long as they settled. *)
Theorem C2_malformed_pattern_item_stops_the_batch
    {rt : Runtime} (h : IExecuteFunctions) (w : HubMonitor.World) (k : nat)
    (pattern : jsstring) (error : Error) (pre post : list ChildEvent) :
  continueOnFail h = true ->
  (k < List.length (getInputData h))%nat ->
  (forall j, (j < k)%nat -> isHung (HubMonitor.executeItem h w j) = false) ->
  getNodeParameter_string h (js "operation") k = Ok (js "processMonitor") ->
  getNodeParameter_string h (js "processPattern") k = Ok pattern ->
  truthy pattern = true ->
  RegExp_i pattern = Throw error ->
  HubMonitor.psEvents w k = pre ++ ChildClose (Some 0%Z) :: post ->
  forallb isData pre = true ->
  forallb isData post = true ->
  HubMonitor.executeItem h w k = Hung
  /\ HubMonitor.execute h w = Hung.
Proof.
  intros Hc Hk Hbefore Hop Hp Ht Hre Hev Hpre Hpost.
  assert (Hitem : HubMonitor.executeItem h w k = Hung).
  { unfold HubMonitor.executeItem. rewrite Hop. cbn [lift bind].
    replace (str_eqb (js "processMonitor") (js "systemHealth")) with false
      by reflexivity.
    replace (str_eqb (js "processMonitor") (js "serviceStatus")) with false
      by reflexivity.
    replace (str_eqb (js "processMonitor") (js "networkScan")) with false
      by reflexivity.
    replace (str_eqb (js "processMonitor") (js "processMonitor")) with true
      by reflexivity.
    unfold HubMonitor.executeProcessMonitor. rewrite Hp, Hev.
    rewrite (monitor_malformed_pending pattern _ error pre post Ht Hre Hpre Hpost).
    reflexivity. }
  split; [exact Hitem|].
  unfold HubMonitor.execute. rewrite Hc.
  apply (itemLoop_hangs _ _ _ 0 k); [exact Hk | | exact Hitem].
  intros j Hj. apply Hbefore. lia.
Qed.

Lemma C2_malformed_pattern_item_stops_the_batch_witness :
  isHung (HubMonitor.executeItem (rt := Examples.runtime)
            (MoreExamples.patternsHost 2) MoreExamples.listingWorld 1) = false
  /\ HubMonitor.execute (rt := Examples.runtime)
       (MoreExamples.patternsHost 2) MoreExamples.listingWorld
     = Hung.
Proof.
  split; [reflexivity|].
  apply (proj2 (C2_malformed_pattern_item_stops_the_batch
                  (rt := Examples.runtime)
                  (MoreExamples.patternsHost 2) MoreExamples.listingWorld 0
                  (js "(node") (mkError (js "Invalid regular expression"))
                  [StdoutData Examples.psListing] []
                  eq_refl (le_S 1 1 (le_n 1))
                  (fun j Hj => match Nat.nlt_0_r j Hj with end)
                  eq_refl eq_refl eq_refl eq_refl eq_refl eq_refl eq_refl)).
Defined.

(** ** Web Browse Agent: closing the browser *)

Section BrowseClose.
Import WebBrowseAgent.
Variables (h : IExecuteFunctions) (w : World).

(** A launch that returned has put the browser into the variable and is
    the one call made so far. *)
Lemma launch_returned (st : State) (browserOptions : value) :
  fst (launchBrowser h w st) = Returned browserOptions ->
  browser (snd (launchBrowser h w st)) = true
  /\ exists headless,
       calls (snd (launchBrowser h w st)) = calls st ++ [Launch headless].
Proof.
  unfold launchBrowser, bindB, liftB, call, assignBrowser, ret.
  destruct (getNodeParameter_any h (js "browserOptions") 0) as [options|e];
    simpl; [|discriminate].
  destruct (getProp options (js "headless")) as [headless|e]; simpl;
    [|discriminate].
  destruct (launch w) as [u|e|]; simpl; try discriminate.
  intros _. split; [reflexivity|]. eexists; reflexivity.
Qed.

(** After a launch that returned, the try block leaves the browser in
    the variable; its calls are the launch and then calls other than
    the closing. *)
Lemma tryBlock_after_launch (browserOptions : value) :
  fst (launchBrowser h w start) = Returned browserOptions ->
  browser (snd (tryBlock h w start)) = true
  /\ exists headless more,
       calls (snd (tryBlock h w start)) = Launch headless :: more
       /\ ~ In Close more.
Proof.
  intros Hl.
  destruct (launch_returned start browserOptions Hl) as [Hb [headless Hcalls]].
  destruct (launchBrowser h w start) as [o st] eqn:El. simpl in Hl, Hb, Hcalls.
  subst o.
  assert (Hq : quiet (bindB (openPage w browserOptions)
                        (fun _ => itemLoopB h w (List.length (getInputData h)) 0 []))).
  { apply quiet_bind; [apply quiet_openPage | intros; apply quiet_itemLoopB]. }
  assert (Ht : tryBlock h w start
               = bindB (openPage w browserOptions)
                   (fun _ => itemLoopB h w (List.length (getInputData h)) 0 []) st).
  { unfold tryBlock. unfold bindB at 1. rewrite El. reflexivity. }
  rewrite Ht.
  destruct (Hq st) as [Hb' [more [Hc' Hn]]].
  split; [congruence|]. exists headless, more.
  rewrite Hc', Hcalls. auto.
Qed.

(** The finally clause: a try block that ended with the browser in the
    variable is followed by exactly one more call, the closing. *)
Lemma execute_closes :
  isHung (fst (tryBlock h w start)) = false ->
  browser (snd (tryBlock h w start)) = true ->
  calls (snd (execute h w)) = calls (snd (tryBlock h w start)) ++ [Close].
Proof.
  unfold execute.
  destruct (tryBlock h w start) as [[out|e|] st]; simpl;
    intros Hh Hb; try discriminate; rewrite Hb;
    destruct (close w); reflexivity.
Qed.

End BrowseClose.

(** C8. In every invocation of the Web Browse Agent in which the browser
    was launched, and whose batch comes to an end -- all items complete,
    or an item's failure (or a failure while the page is opened) aborts
    it -- the browser is closed: the closing is the last call made on the
    driver, it is made once, and it comes after the launch and everything
    done on the page. *)
Theorem C8_browser_closed_at_end_of_batch
    (h : IExecuteFunctions) (w : WebBrowseAgent.World) (browserOptions : value) :
  fst (WebBrowseAgent.launchBrowser h w WebBrowseAgent.start)
  = Returned browserOptions ->
  isHung (fst (WebBrowseAgent.tryBlock h w WebBrowseAgent.start)) = false ->
  exists headless work,
    WebBrowseAgent.calls (snd (WebBrowseAgent.execute h w))
    = WebBrowseAgent.Launch headless :: work ++ [WebBrowseAgent.Close]
    /\ ~ In WebBrowseAgent.Close work
    /\ WebBrowseAgent.calls (snd (WebBrowseAgent.tryBlock h w WebBrowseAgent.start))
       = WebBrowseAgent.Launch headless :: work.
Proof.
  intros Hl Hh.
  destruct (tryBlock_after_launch h w browserOptions Hl)
    as [Hb [headless [work [Hcalls Hn]]]].
  exists headless, work.
  rewrite (execute_closes h w Hh Hb), Hcalls. auto.
Qed.

Lemma C8_browser_closed_at_end_of_batch_witness :
  exists headless work,
    WebBrowseAgent.calls
      (snd (WebBrowseAgent.execute
              (Examples.host Examples.browseParams 2 false) Examples.browseWorld))
    = WebBrowseAgent.Launch headless :: work ++ [WebBrowseAgent.Close]
    /\ ~ In WebBrowseAgent.Close work.
Proof.
  destruct (C8_browser_closed_at_end_of_batch
              (Examples.host Examples.browseParams 2 false) Examples.browseWorld
              (VObj []) eq_refl eq_refl)
    as [headless [work [Hcalls [Hn _]]]].
  exists headless, work. split; assumption.
Defined.

(** An item's failure aborts the batch: the browser is closed. *)
Example browser_closed_on_abort :
  WebBrowseAgent.execute
    (Examples.host Examples.browseParams 2 false) Examples.browseWorld
  = (Thrown (NodeOperationError
               (js "Navigation failed: net::ERR_CONNECTION_REFUSED")),
     {| WebBrowseAgent.calls :=
          [WebBrowseAgent.Launch true; WebBrowseAgent.NewPage;
           WebBrowseAgent.PageWork 0; WebBrowseAgent.Close];
        WebBrowseAgent.browser := true |}).
Proof. reflexivity. Qed.

(** All items complete: the browser is closed. *)
Example browser_closed_on_completion :
  snd (WebBrowseAgent.execute
         (Examples.host Examples.browseParams 2 true) Examples.browseWorld)
  = {| WebBrowseAgent.calls :=
         [WebBrowseAgent.Launch true; WebBrowseAgent.NewPage;
          WebBrowseAgent.PageWork 0; WebBrowseAgent.PageWork 1;
          WebBrowseAgent.Close];
       WebBrowseAgent.browser := true |}.
Proof. reflexivity. Qed.

(** ** MCP Connector: the HTTP path *)

(** C9. Every operation of the MCP Connector that goes over the HTTP
    connection type -- every connection type other than websocket --
    performs no network request, and when the message can be built it
    returns the fixed placeholder: success true, the response saying that
    HTTP MCP is not fully implemented yet, and the time of the call.  The
    server URL and the timeout play no part, and the operation only
    decides whether the message can be built. *)
Theorem C9_http_path_is_a_placeholder
    {rt : Runtime} (h : IExecuteFunctions) (w : MCPConnector.World)
    (i : nat) (connectionType serverUrl operation : jsstring)
    (timeout : number) (message : value) :
  getNodeParameter_string h (js "connectionType") i = Ok connectionType ->
  getNodeParameter_string h (js "serverUrl") i = Ok serverUrl ->
  getNodeParameter_string h (js "operation") i = Ok operation ->
  getNodeParameter_number h (js "timeout") i = Ok timeout ->
  str_eqb connectionType (js "websocket") = false ->
  MCPConnector.buildMCPMessage h (MCPConnector.randomId w i) operation i
  = Ok message ->
  MCPConnector.executeHttpOperation h (MCPConnector.randomId w i)
    (MCPConnector.clock w i) serverUrl operation i timeout
  = (Returned
       [ (js "success", VBool true);
         (js "response",
           VObj [ (js "message", VStr (js "HTTP MCP not fully implemented yet")) ]);
         (js "timestamp", VStr (MCPConnector.clock w i)) ],
     [])
  /\ MCPConnector.executeItem h w i
     = Returned
         (entry (obj_spread
                   [ (js "operation", VStr operation);
                     (js "connectionType", VStr connectionType);
                     (js "serverUrl", VStr serverUrl) ]
                   (MCPConnector.placeholderResponse (MCPConnector.clock w i))))
  /\ (forall id now url op j t,
        snd (MCPConnector.executeHttpOperation h id now url op j t) = [])
  /\ (forall url t,
        MCPConnector.executeHttpOperation h (MCPConnector.randomId w i)
          (MCPConnector.clock w i) url operation i t
        = MCPConnector.executeHttpOperation h (MCPConnector.randomId w i)
            (MCPConnector.clock w i) serverUrl operation i timeout).
Proof.
  intros Hct Hurl Hop Ht Hws Hbuild.
  assert (Hhttp : forall url t,
             MCPConnector.executeHttpOperation h (MCPConnector.randomId w i)
               (MCPConnector.clock w i) url operation i t
             = (Returned (MCPConnector.placeholderResponse (MCPConnector.clock w i)),
                [])).
  { intros url t. unfold MCPConnector.executeHttpOperation.
    rewrite Hbuild. reflexivity. }
  split; [apply Hhttp|]. split; [|split].
  - unfold MCPConnector.executeItem. rewrite Hct, Hurl, Hop, Ht.
    cbn [lift bind]. rewrite Hws, Hhttp. reflexivity.
  - intros id now url op j t. unfold MCPConnector.executeHttpOperation.
    destruct (MCPConnector.buildMCPMessage h id op j); reflexivity.
  - intros url t. rewrite !Hhttp. reflexivity.
Qed.

Lemma C9_http_path_is_a_placeholder_witness :
  fst (MCPConnector.executeHttpOperation (rt := Examples.runtime)
         (Examples.host Examples.mcpParams 1 false) (js "k3x") (js "now")
         (js "http://localhost:8080") (js "listTools") 0 30)
  = Returned
      [ (js "success", VBool true);
        (js "response",
          VObj [ (js "message", VStr (js "HTTP MCP not fully implemented yet")) ]);
        (js "timestamp", VStr (js "now")) ].
Proof.
  destruct (C9_http_path_is_a_placeholder (rt := Examples.runtime)
              (Examples.host Examples.mcpParams 1 false)
              {| MCPConnector.wsEvents := fun _ => [];
                 MCPConnector.randomId := fun _ => js "k3x";
                 MCPConnector.clock := fun _ => js "now" |}
              0 (js "http") (js "http://localhost:8080") (js "listTools") 30
              (VObj (obj_spread (MCPConnector.baseMessage (js "k3x"))
                       [ (js "method", VStr (js "tools/list")) ]))
              eq_refl eq_refl eq_refl eq_refl eq_refl eq_refl)
    as [Hhttp _].
  cbn [MCPConnector.randomId MCPConnector.clock] in Hhttp.
  rewrite Hhttp. reflexivity.
Defined.

(* ================================================================== *)
(** * Further properties of the code                                    *)
(* ================================================================== *)

(** ** Terminal Agent *)

Section SshMore.
Context {rt : Runtime}.
Variable timeout : number.
Import TerminalAgent.

(** [conn.end()] is never taken back. *)
Lemma ssh_ended_step (st : SshState) (ev : SshEvent) :
  s_ended st = true -> s_ended (ssh_on timeout st ev) = true.
Proof.
  intros H. destruct ev; simpl;
    repeat match goal with
           | |- context [if ?b then _ else _] => destruct b
           | |- context [match ?e with Some _ => _ | None => _ end] => destruct e
           end; simpl; auto.
Qed.

Lemma ssh_ended_stays (events : list SshEvent) (st : SshState) :
  s_ended st = true -> s_ended (fold_left (ssh_on timeout) events st) = true.
Proof.
  revert st; induction events as [|ev events IH]; intros st H; simpl;
    auto using ssh_ended_step.
Qed.

Lemma ssh_resolved_ended_step (st : SshState) (ev : SshEvent) :
  (isResolved (s_promise st) = true -> s_ended st = true) ->
  isResolved (s_promise (ssh_on timeout st ev)) = true ->
  s_ended (ssh_on timeout st ev) = true.
Proof.
  intros H. destruct ev; simpl;
    repeat match goal with
           | |- context [if ?b then _ else _] => destruct b
           | |- context [match ?e with Some _ => _ | None => _ end] => destruct e
           end; simpl; auto;
    destruct (s_promise st); simpl in *; auto; discriminate.
Qed.

Lemma ssh_resolved_ended_run (events : list SshEvent) (st : SshState) :
  (isResolved (s_promise st) = true -> s_ended st = true) ->
  isResolved (s_promise (fold_left (ssh_on timeout) events st)) = true ->
  s_ended (fold_left (ssh_on timeout) events st) = true.
Proof.
  revert st; induction events as [|ev events IH]; intros st H; simpl; [exact H|].
  apply IH. apply ssh_resolved_ended_step. exact H.
Qed.

(** While the command runs, output is appended and nothing else moves. *)
Lemma ssh_quiet_state (out : list SshEvent) (st : SshState) :
  s_timer st = false -> s_stream st = true ->
  forallb sshQuiet out = true ->
  fold_left (ssh_on timeout) out st
  = {| s_timer := false; s_execPending := s_execPending st; s_stream := true;
       s_ended := s_ended st;
       s_stdout := s_stdout st ++ sshStdoutOf out;
       s_stderr := s_stderr st ++ sshStderrOf out;
       s_promise := s_promise st |}.
Proof.
  revert st; induction out as [|ev out IH]; intros st Ht Hs Hq; simpl in *.
  - rewrite !app_nil_r. destruct st; simpl in *; subst; reflexivity.
  - apply andb_true_iff in Hq as [Hev Hq].
    destruct ev; try discriminate; simpl.
    + rewrite Hs. rewrite IH; auto. simpl. rewrite <- app_assoc. reflexivity.
    + rewrite Hs. rewrite IH; auto. simpl. rewrite <- app_assoc. reflexivity.
    + rewrite Ht. apply IH; auto.
Qed.

End SshMore.

(** Before the connection is ready no handler listens to the channel. *)
Lemma ssh_unheard_idle
    {rt : Runtime} (timeout : number) (events : list TerminalAgent.SshEvent)
    (st : TerminalAgent.SshState) :
  TerminalAgent.s_execPending st = false ->
  TerminalAgent.s_stream st = false ->
  forallb sshUnheard events = true ->
  fold_left (TerminalAgent.ssh_on timeout) events st = st.
Proof.
  intros He Hs. induction events as [|ev events IH]; intros H; simpl in *;
    [reflexivity|].
  apply andb_true_iff in H as [Hev H].
  destruct ev; try discriminate; simpl; rewrite ?He, ?Hs; auto.
Qed.

(** X1. The timer of a remote command, for either outcome of the call
    that starts the connection.  When that call returned and the
    connection is not ready when the configured time is up, the command
    rejects with the error built from SSH connection timeout after N
    seconds, N being the timeout as configured.  When that call threw, the
    command is rejected with the error as thrown, and the timer, which
    nothing cleared, changes nothing about that when it fires.  In both
    cases the firing timer ends the connection, and whatever the client
    delivers afterwards changes neither the rejection nor the ending. *)
Theorem X1_ssh_connection_timeout
    {rt : Runtime} (timeout : number) (connect : result unit)
    (pre post : list TerminalAgent.SshEvent) :
  forallb sshUnheard pre = true ->
  let st :=
    TerminalAgent.ssh_run_from timeout connect
      (pre ++ TerminalAgent.TimerFired :: post) in
  TerminalAgent.s_promise st
  = match connect with
    | Ok _ =>
        Rejected (NodeOperationError
                    (js "SSH connection timeout after "
                        ++ Number_toString timeout ++ js " seconds"))
    | Throw e => Rejected e
    end
  /\ TerminalAgent.s_ended st = true.
Proof.
  intros H st. subst st. unfold TerminalAgent.ssh_run_from.
  rewrite fold_left_app.
  rewrite (ssh_unheard_idle timeout pre (TerminalAgent.ssh_start connect));
    [| destruct connect; reflexivity | destruct connect; reflexivity | exact H].
  cbn [fold_left]. split.
  - rewrite ssh_settled_stays; destruct connect; reflexivity.
  - apply ssh_ended_stays. destruct connect; reflexivity.
Qed.

Lemma X1_ssh_connection_timeout_witness :
  TerminalAgent.executeRemoteCommand_from (rt := Examples.runtime)
    (Examples.host (Examples.terminalParams (js "remote")) 1 false)
    (js "ls") 0 10 (Ok tt)
    ([] ++ TerminalAgent.TimerFired :: [])
  = Rejected (NodeOperationError (js "SSH connection timeout after 10 seconds"))
  /\ TerminalAgent.executeRemoteCommand_from (rt := Examples.runtime)
       (Examples.host (Examples.terminalParams (js "remote")) 1 false)
       (js "ls") 0 10 (Throw (mkError (js "Cannot parse privateKey")))
       ([] ++ TerminalAgent.TimerFired :: [])
     = Rejected (mkError (js "Cannot parse privateKey")).
Proof.
  split.
  - exact (proj1 (X1_ssh_connection_timeout (rt := Examples.runtime) 10
                    (Ok tt) [] [] eq_refl)).
  - exact (proj1 (X1_ssh_connection_timeout (rt := Examples.runtime) 10
                    (Throw (mkError (js "Cannot parse privateKey"))) [] []
                    eq_refl)).
Defined.

(** X2. A remote command that completes resolves with the record of the
    local path: the exit code, what the stream delivered on stdout and on
    stderr after the channel was opened, each trimmed, and success equal to
    (exit code == 0).  What arrived before the connection was ready is not
    part of it, and timer ticks during the run do nothing. *)
Theorem X2_ssh_command_record
    {rt : Runtime} (timeout : number)
    (early out post : list TerminalAgent.SshEvent) (code : option Z) :
  forallb sshUnheard early = true ->
  forallb sshQuiet out = true ->
  TerminalAgent.s_promise
    (TerminalAgent.ssh_run timeout
       (early ++ TerminalAgent.ConnReady :: TerminalAgent.ExecCallback None
              :: out ++ TerminalAgent.StreamClose code :: post))
  = Resolved {| TerminalAgent.exitCode := code;
                TerminalAgent.stdout := trim (sshStdoutOf out);
                TerminalAgent.stderr := trim (sshStderrOf out);
                TerminalAgent.success := isZero code |}.
Proof.
  intros He Hq. unfold TerminalAgent.ssh_run.
  rewrite fold_left_app, (ssh_unheard_initial timeout early He).
  cbn [fold_left]. rewrite fold_left_app.
  rewrite (ssh_quiet_state timeout out
             (TerminalAgent.ssh_on timeout
                (TerminalAgent.ssh_on timeout TerminalAgent.ssh_init
                   TerminalAgent.ConnReady)
                (TerminalAgent.ExecCallback None)) eq_refl eq_refl Hq).
  cbn [fold_left]. rewrite ssh_settled_stays; reflexivity.
Qed.

Lemma X2_ssh_command_record_witness :
  TerminalAgent.executeRemoteCommand (rt := Examples.runtime)
    (Examples.host (Examples.terminalParams (js "remote")) 1 false)
    (js "uname") 0 30
    ([TerminalAgent.StreamData (js "lost")]
       ++ TerminalAgent.ConnReady :: TerminalAgent.ExecCallback None
       :: [TerminalAgent.StreamData (js " Lin"); TerminalAgent.TimerFired;
           TerminalAgent.StreamStderr (js "warn "); TerminalAgent.StreamData (js "ux ")]
       ++ TerminalAgent.StreamClose (Some 2%Z) :: [])
  = Resolved {| TerminalAgent.exitCode := Some 2%Z;
                TerminalAgent.stdout := js "Linux";
                TerminalAgent.stderr := js "warn";
                TerminalAgent.success := false |}.
Proof.
  exact (X2_ssh_command_record (rt := Examples.runtime) 30
           [TerminalAgent.StreamData (js "lost")]
           [TerminalAgent.StreamData (js " Lin"); TerminalAgent.TimerFired;
            TerminalAgent.StreamStderr (js "warn "); TerminalAgent.StreamData (js "ux ")]
           [] (Some 2%Z) eq_refl eq_refl).
Defined.

(** X3. Whenever a remote command has resolved, the connection has been
    ended: no event sequence resolves the call and leaves the SSH
    connection open. *)
Theorem X3_ssh_resolved_connection_ended
    {rt : Runtime} (timeout : number) (events : list TerminalAgent.SshEvent)
    (r : TerminalAgent.CommandResult) :
  TerminalAgent.s_promise (TerminalAgent.ssh_run timeout events) = Resolved r ->
  TerminalAgent.s_ended (TerminalAgent.ssh_run timeout events) = true.
Proof.
  intros H. unfold TerminalAgent.ssh_run in *.
  apply ssh_resolved_ended_run.
  - discriminate.
  - rewrite H. reflexivity.
Qed.

Lemma X3_ssh_resolved_connection_ended_witness :
  TerminalAgent.s_ended
    (TerminalAgent.ssh_run (rt := Examples.runtime) 30
       [TerminalAgent.ConnReady; TerminalAgent.ExecCallback None;
        TerminalAgent.StreamClose (Some 0%Z)])
  = true.
Proof.
  exact (X3_ssh_resolved_connection_ended (rt := Examples.runtime) 30
           [TerminalAgent.ConnReady; TerminalAgent.ExecCallback None;
            TerminalAgent.StreamClose (Some 0%Z)]
           _ eq_refl).
Defined.

(** X4. The local path has no timeout: as long as the child process only
    writes output and neither closes nor fails, the call stays pending and
    the item never finishes, whatever the configured timeout is. *)
Theorem X4_local_command_has_no_timeout
    {rt : Runtime} (h : IExecuteFunctions) (w : TerminalAgent.World) (i : nat)
    (command workingDirectory : jsstring) (timeout : number) :
  getNodeParameter_string h (js "executionMode") i = Ok (js "local") ->
  getNodeParameter_string h (js "command") i = Ok command ->
  getNodeParameter_number h (js "timeout") i = Ok timeout ->
  getNodeParameter_string h (js "workingDirectory") i = Ok workingDirectory ->
  forallb isData (TerminalAgent.childEvents w i) = true ->
  TerminalAgent.executeLocalCommand h command i (TerminalAgent.childEvents w i)
  = Pending
  /\ TerminalAgent.executeItem h w i = Hung.
Proof.
  intros Hm Hc Ht Hw Hd.
  assert (Hp : TerminalAgent.executeLocalCommand h command i
                 (TerminalAgent.childEvents w i) = Pending).
  { unfold TerminalAgent.executeLocalCommand, TerminalAgent.local_run.
    rewrite Hw, (local_data_only _ _ Hd). reflexivity. }
  split; [exact Hp|].
  unfold TerminalAgent.executeItem. rewrite Hm, Hc, Ht. cbn [lift bind].
  change (str_eqb (js "local") (js "local")) with true. cbv iota.
  rewrite Hp. reflexivity.
Qed.

Lemma X4_local_command_has_no_timeout_witness :
  TerminalAgent.executeItem (rt := Examples.runtime)
    (Examples.host (Examples.terminalParams (js "local")) 1 true)
    {| TerminalAgent.childEvents := fun _ => [StdoutData (js "tick")];
       TerminalAgent.sshEvents := fun _ => [] |} 0
  = Hung.
Proof.
  exact (proj2 (X4_local_command_has_no_timeout (rt := Examples.runtime)
                  (Examples.host (Examples.terminalParams (js "local")) 1 true)
                  {| TerminalAgent.childEvents := fun _ => [StdoutData (js "tick")];
                     TerminalAgent.sshEvents := fun _ => [] |} 0
                  (js "echo hello") [] 30 eq_refl eq_refl eq_refl eq_refl eq_refl)).
Defined.

(** X5. The output entry of a local command that completed carries, in
    this order, the command, the execution mode, the exit code (null when
    the process ended on a signal), stdout, stderr and the success flag. *)
Theorem X5_terminal_entry_of_local_command
    {rt : Runtime} (h : IExecuteFunctions) (w : TerminalAgent.World) (i : nat)
    (command workingDirectory : jsstring) (timeout : number)
    (pre post : list ChildEvent) (code : option Z) :
  getNodeParameter_string h (js "executionMode") i = Ok (js "local") ->
  getNodeParameter_string h (js "command") i = Ok command ->
  getNodeParameter_number h (js "timeout") i = Ok timeout ->
  getNodeParameter_string h (js "workingDirectory") i = Ok workingDirectory ->
  TerminalAgent.childEvents w i = pre ++ ChildClose code :: post ->
  forallb isData pre = true ->
  TerminalAgent.executeItem h w i
  = Returned
      (VObj [ (js "json",
                VObj [ (js "command", VStr command);
                       (js "executionMode", VStr (js "local"));
                       (js "exitCode",
                         match code with
                         | Some z => VNum (inject_Z z)
                         | None => VNull
                         end);
                       (js "stdout", VStr (trim (stdoutOf pre)));
                       (js "stderr", VStr (trim (stderrOf pre)));
                       (js "success", VBool (isZero code)) ]) ]).
Proof.
  intros Hm Hc Ht Hw He Hd.
  unfold TerminalAgent.executeItem. rewrite Hm, Hc, Ht. cbn [lift bind].
  change (str_eqb (js "local") (js "local")) with true. cbv iota.
  unfold TerminalAgent.executeLocalCommand. rewrite Hw, He, (local_close pre post code Hd).
  reflexivity.
Qed.

Lemma X5_terminal_entry_of_local_command_witness :
  TerminalAgent.executeItem (rt := Examples.runtime)
    (Examples.host (Examples.terminalParams (js "local")) 1 true)
    {| TerminalAgent.childEvents := fun _ =>
         [StdoutData (js "hello ")] ++ ChildClose None :: [];
       TerminalAgent.sshEvents := fun _ => [] |} 0
  = Returned
      (VObj [ (js "json",
                VObj [ (js "command", VStr (js "echo hello"));
                       (js "executionMode", VStr (js "local"));
                       (js "exitCode", VNull);
                       (js "stdout", VStr (js "hello"));
                       (js "stderr", VStr []);
                       (js "success", VBool false) ]) ]).
Proof.
  exact (X5_terminal_entry_of_local_command (rt := Examples.runtime)
           (Examples.host (Examples.terminalParams (js "local")) 1 true)
           {| TerminalAgent.childEvents := fun _ =>
                [StdoutData (js "hello ")] ++ ChildClose None :: [];
              TerminalAgent.sshEvents := fun _ => [] |} 0
           (js "echo hello") [] 30 [StdoutData (js "hello ")] [] None
           eq_refl eq_refl eq_refl eq_refl eq_refl eq_refl).
Defined.

(** ** The item loop without continue-on-failure *)

Section ItemLoopAbort.
Variables (body : nat -> outcome value) (onError : nat -> Error -> value).

Lemma itemLoop_abort (n i k : nat) (acc : list value) (e : Error) :
  (k < n)%nat ->
  (forall j, (i <= j < i + k)%nat -> exists v, body j = Returned v) ->
  body (i + k)%nat = Thrown e ->
  itemLoop body onError false n i acc = Thrown e.
Proof.
  revert i k acc; induction n as [|n IH]; intros i k acc Hk Hbefore Hfail;
    [lia|].
  simpl. destruct k as [|k].
  - rewrite Nat.add_0_r in Hfail. rewrite Hfail. reflexivity.
  - destruct (Hbefore i) as [v Hv]; [lia|]. rewrite Hv.
    apply (IH (S i) k); [lia | |].
    + intros j Hj. apply Hbefore. lia.
    + replace (S i + k)%nat with (i + S k)%nat by lia. exact Hfail.
Qed.

Lemma itemLoop_all_returned (cof : bool) (n i : nat) (acc : list value) :
  (forall j, (i <= j < i + n)%nat -> exists v, body j = Returned v) ->
  itemLoop body onError cof n i acc
  = Returned (acc ++ map (entryOf body onError) (seq i n)).
Proof.
  revert i acc; induction n as [|n IH]; intros i acc H; simpl.
  - rewrite app_nil_r. reflexivity.
  - destruct (H i) as [v Hv]; [lia|]. unfold entryOf at 1. rewrite Hv.
    rewrite IH; [rewrite <- app_assoc; reflexivity|].
    intros j Hj. apply H. lia.
Qed.

End ItemLoopAbort.

(** X6. Without continue-on-failure, in the Hub Monitor, the LM Studio
    Agent, the Terminal Agent and the MCP Connector alike, the first item
    that fails aborts the batch: execute throws that item's error and the
    entries of the items before it are not returned. *)
Theorem X6_first_failure_aborts_the_batch
    {rt : Runtime} (h : IExecuteFunctions)
    (monitor : HubMonitor.World) (lm : LMStudioAgent.World)
    (terminal : TerminalAgent.World) (mcp : MCPConnector.World) :
  continueOnFail h = false ->
  abortsOnFirstFailure (List.length (getInputData h))
    (HubMonitor.executeItem h monitor) (HubMonitor.execute h monitor)
  /\ abortsOnFirstFailure (List.length (getInputData h))
       (LMStudioAgent.executeItem h lm) (LMStudioAgent.execute h lm)
  /\ abortsOnFirstFailure (List.length (getInputData h))
       (TerminalAgent.executeItem h terminal) (TerminalAgent.execute h terminal)
  /\ abortsOnFirstFailure (List.length (getInputData h))
       (MCPConnector.executeItem h mcp) (MCPConnector.execute h mcp).
Proof.
  intros Hc.
  unfold HubMonitor.execute, LMStudioAgent.execute, TerminalAgent.execute,
    MCPConnector.execute, abortsOnFirstFailure.
  rewrite Hc.
  repeat split; intros k e Hk Hbefore Hfail;
    apply (itemLoop_abort _ _ _ 0 k [] e Hk); auto;
    intros j Hj; apply Hbefore; lia.
Qed.

Lemma X6_first_failure_aborts_the_batch_witness :
  HubMonitor.execute (rt := Examples.runtime)
    (Examples.host (Examples.monitorParams (js "node")) 2 false)
    Examples.monitorWorld
  = Thrown (NodeOperationError (js "Failed to get process list")).
Proof.
  destruct (X6_first_failure_aborts_the_batch (rt := Examples.runtime)
              (Examples.host (Examples.monitorParams (js "node")) 2 false)
              Examples.monitorWorld
              {| LMStudioAgent.chatCompletion := fun _ => Hung;
                 LMStudioAgent.textCompletion := fun _ => Hung;
                 LMStudioAgent.listModels := fun _ => Hung |}
              {| TerminalAgent.childEvents := fun _ => [];
                 TerminalAgent.sshEvents := fun _ => [] |}
              {| MCPConnector.wsEvents := fun _ => [];
                 MCPConnector.randomId := fun _ => [];
                 MCPConnector.clock := fun _ => [] |}
              eq_refl) as [Hmonitor _].
  apply (Hmonitor 0%nat).
  - simpl. lia.
  - intros j Hj. lia.
  - reflexivity.
Defined.

(** ** MCP Connector *)

Section WsMore.
Context {rt : Runtime}.
Variables (h : IExecuteFunctions) (id now operation : jsstring)
          (itemIndex : nat) (timeout : number).
Import MCPConnector.

(** While the connection only opens, the message goes out and the call
    waits with its timer armed. *)
Lemma ws_opens_state (message : value) (pre : list WsEvent) (st : WsState) :
  buildMCPMessage h id operation itemIndex = Ok message ->
  forallb isOpen pre = true ->
  fold_left (ws_on h id now operation itemIndex timeout) pre st
  = {| responseReceived := responseReceived st; w_timer := w_timer st;
       w_closeCalls := w_closeCalls st;
       w_sent := w_sent st ++ repeat message (List.length pre);
       w_promise := w_promise st |}.
Proof.
  intros Hb. revert st; induction pre as [|ev pre IH]; intros st Ho; simpl in *.
  - rewrite app_nil_r. destruct st; reflexivity.
  - apply andb_true_iff in Ho as [Hev Ho].
    destruct ev; try discriminate. rewrite (IH _ Ho). simpl. rewrite Hb. simpl.
    rewrite <- app_assoc. reflexivity.
Qed.

(** When the message cannot be built nothing is ever sent. *)
Lemma ws_nothing_sent (error : Error) (events : list WsEvent) (st : WsState) :
  buildMCPMessage h id operation itemIndex = Throw error ->
  w_sent (fold_left (ws_on h id now operation itemIndex timeout) events st)
  = w_sent st.
Proof.
  intros Hb. revert st; induction events as [|ev events IH]; intros st; simpl;
    [reflexivity|].
  rewrite IH. destruct ev; simpl; rewrite ?Hb;
    repeat match goal with
           | |- context [match ?e with Ok _ => _ | Throw _ => _ end] => destruct e
           | |- context [if ?b then _ else _] => destruct b
           end; reflexivity.
Qed.

End WsMore.

Section WsResolved.
Context {rt : Runtime}.
Variables (h : IExecuteFunctions) (id now operation : jsstring)
          (itemIndex : nat) (timeout : number).
Import MCPConnector.

Lemma ws_resolved_step (st : WsState) (ev : WsEvent) :
  wsResolvedInvariant st ->
  wsResolvedInvariant (ws_on h id now operation itemIndex timeout st ev).
Proof.
  unfold wsResolvedInvariant. intros H.
  destruct ev; simpl;
    repeat match goal with
           | |- context [match ?e with Ok _ => _ | Throw _ => _ end] => destruct e
           | |- context [if ?b then _ else _] => destruct b eqn:?
           end; simpl; auto; intros Hr;
    try (repeat split; simpl; auto; lia);
    destruct (w_promise st) eqn:Ep; simpl in *; try discriminate;
    destruct (H eq_refl) as [H1 [H2 H3]];
    repeat split; simpl; auto; try congruence; try lia.
Qed.

Lemma ws_resolved_run (events : list WsEvent) (st : WsState) :
  wsResolvedInvariant st ->
  wsResolvedInvariant
    (fold_left (ws_on h id now operation itemIndex timeout) events st).
Proof.
  revert st; induction events as [|ev events IH]; intros st H; simpl;
    auto using ws_resolved_step.
Qed.

End WsResolved.

(** X7. A WebSocket call whose connection opens and sends the message but
    brings no message, error or close before the configured time is up
    rejects with the error WebSocket operation timeout after N seconds and
    tells the socket to close; what arrives later does not change the
    error. *)
Theorem X7_websocket_timeout
    {rt : Runtime} (h : IExecuteFunctions) (id now operation : jsstring)
    (itemIndex : nat) (timeout : number) (message : value)
    (pre post : list MCPConnector.WsEvent) :
  MCPConnector.buildMCPMessage h id operation itemIndex = Ok message ->
  forallb isOpen pre = true ->
  MCPConnector.executeWebSocketOperation h id now operation itemIndex timeout
    (pre ++ MCPConnector.WsTimerFired :: post)
  = Rejected (NodeOperationError
                (js "WebSocket operation timeout after "
                    ++ Number_toString timeout ++ js " seconds"))
  /\ MCPConnector.w_closeCalls
       (MCPConnector.ws_run h id now operation itemIndex timeout
          (pre ++ [MCPConnector.WsTimerFired])) = 1%nat.
Proof.
  intros Hb Ho. unfold MCPConnector.executeWebSocketOperation, MCPConnector.ws_run.
  rewrite !fold_left_app, (ws_opens_state h id now operation itemIndex timeout
                             message pre _ Hb Ho).
  cbn [fold_left]. split; [|reflexivity].
  rewrite ws_settled_stays; reflexivity.
Qed.

Lemma X7_websocket_timeout_witness :
  MCPConnector.executeWebSocketOperation (rt := Examples.runtime)
    (Examples.host Examples.mcpParams 1 false) (js "id") (js "now")
    (js "listTools") 0 30
    ([MCPConnector.WsOpen] ++ MCPConnector.WsTimerFired
       :: [MCPConnector.WsMessage (js "{}")])
  = Rejected (NodeOperationError
                (js "WebSocket operation timeout after 30 seconds")).
Proof.
  exact (proj1 (X7_websocket_timeout (rt := Examples.runtime)
                  (Examples.host Examples.mcpParams 1 false) (js "id") (js "now")
                  (js "listTools") 0 30
                  (VObj (obj_spread (MCPConnector.baseMessage (js "id"))
                           [ (js "method", VStr (js "tools/list")) ]))
                  [MCPConnector.WsOpen] [MCPConnector.WsMessage (js "{}")]
                  eq_refl eq_refl)).
Defined.

(** X8. The first message decides a WebSocket call that was still
    waiting: if it parses as JSON the call resolves with success true, the
    parsed response and the time stamp; if it does not, the call rejects
    with Failed to parse response followed by the parser's message.  Later
    messages are ignored. *)
Theorem X8_websocket_first_message_decides
    {rt : Runtime} (h : IExecuteFunctions) (id now operation : jsstring)
    (itemIndex : nat) (timeout : number) (message : value) (data : jsstring)
    (pre post : list MCPConnector.WsEvent) :
  MCPConnector.buildMCPMessage h id operation itemIndex = Ok message ->
  forallb isOpen pre = true ->
  MCPConnector.executeWebSocketOperation h id now operation itemIndex timeout
    (pre ++ MCPConnector.WsMessage data :: post)
  = match JSON_parse data with
    | Ok response =>
        Resolved [ (js "success", VBool true);
                   (js "response", response);
                   (js "timestamp", VStr now) ]
    | Throw error =>
        Rejected (NodeOperationError
                    (js "Failed to parse response: " ++ JS.message error))
    end.
Proof.
  intros Hb Ho. unfold MCPConnector.executeWebSocketOperation, MCPConnector.ws_run.
  rewrite fold_left_app, (ws_opens_state h id now operation itemIndex timeout
                            message pre _ Hb Ho).
  cbn [fold_left]. rewrite ws_settled_stays.
  - simpl. destruct (JSON_parse data); reflexivity.
  - simpl. destruct (JSON_parse data); reflexivity.
Qed.

Lemma X8_websocket_first_message_decides_witness :
  MCPConnector.executeWebSocketOperation (rt := Examples.runtime)
    (Examples.host Examples.mcpParams 1 false) (js "id") (js "now")
    (js "listTools") 0 30
    ([MCPConnector.WsOpen] ++ MCPConnector.WsMessage (js "{}")
       :: [MCPConnector.WsMessage (js "oops"); MCPConnector.WsClose])
  = Resolved [ (js "success", VBool true);
               (js "response", VObj []);
               (js "timestamp", VStr (js "now")) ].
Proof.
  exact (X8_websocket_first_message_decides (rt := Examples.runtime)
           (Examples.host Examples.mcpParams 1 false) (js "id") (js "now")
           (js "listTools") 0 30
           (VObj (obj_spread (MCPConnector.baseMessage (js "id"))
                    [ (js "method", VStr (js "tools/list")) ]))
           (js "{}") [MCPConnector.WsOpen]
           [MCPConnector.WsMessage (js "oops"); MCPConnector.WsClose]
           eq_refl eq_refl).
Defined.

(** X9. When the message cannot be built -- an unknown operation, tool
    arguments or a custom message that are not JSON, a parameter the host
    does not have -- the call rejects on open with Failed to send message
    followed by the cause's message, and nothing is ever sent on the
    socket, whatever happens afterwards. *)
Theorem X9_websocket_send_failure
    {rt : Runtime} (h : IExecuteFunctions) (id now operation : jsstring)
    (itemIndex : nat) (timeout : number) (error : Error)
    (events post : list MCPConnector.WsEvent) :
  MCPConnector.buildMCPMessage h id operation itemIndex = Throw error ->
  MCPConnector.executeWebSocketOperation h id now operation itemIndex timeout
    (MCPConnector.WsOpen :: post)
  = Rejected (NodeOperationError
                (js "Failed to send message: " ++ JS.message error))
  /\ MCPConnector.w_sent
       (MCPConnector.ws_run h id now operation itemIndex timeout events) = [].
Proof.
  intros Hb. split.
  - unfold MCPConnector.executeWebSocketOperation, MCPConnector.ws_run.
    cbn [fold_left]. rewrite ws_settled_stays; simpl; rewrite Hb; reflexivity.
  - unfold MCPConnector.ws_run.
    rewrite (ws_nothing_sent h id now operation itemIndex timeout error _ _ Hb).
    reflexivity.
Qed.

Lemma X9_websocket_send_failure_witness :
  MCPConnector.executeWebSocketOperation (rt := Examples.runtime)
    (Examples.host Examples.mcpParams 1 false) (js "id") (js "now")
    (js "callTool") 0 30
    (MCPConnector.WsOpen :: [MCPConnector.WsClose])
  = Rejected (NodeOperationError
                (js "Failed to send message: Unexpected token")).
Proof.
  exact (proj1 (X9_websocket_send_failure (rt := Examples.runtime)
                  (Examples.host Examples.mcpParams 1 false) (js "id") (js "now")
                  (js "callTool") 0 30 (mkError (js "Unexpected token"))
                  [] [MCPConnector.WsClose] eq_refl)).
Defined.

(** X10. Whenever a WebSocket call has resolved, a response was received,
    the timer has been cleared and the socket has been told to close: no
    event sequence resolves the call and leaves the timer armed or the
    socket untouched. *)
Theorem X10_websocket_resolved_released
    {rt : Runtime} (h : IExecuteFunctions) (id now operation : jsstring)
    (itemIndex : nat) (timeout : number)
    (events : list MCPConnector.WsEvent) (result : list (jsstring * value)) :
  MCPConnector.executeWebSocketOperation h id now operation itemIndex timeout
    events = Resolved result ->
  let st := MCPConnector.ws_run h id now operation itemIndex timeout events in
  MCPConnector.responseReceived st = true
  /\ MCPConnector.w_timer st = false
  /\ (1 <= MCPConnector.w_closeCalls st)%nat.
Proof.
  intros Hr st.
  apply (ws_resolved_run h id now operation itemIndex timeout events
           MCPConnector.ws_init).
  - intros H. discriminate.
  - unfold MCPConnector.executeWebSocketOperation, MCPConnector.ws_run in Hr.
    rewrite Hr. reflexivity.
Qed.

Lemma X10_websocket_resolved_released_witness :
  MCPConnector.w_timer
    (MCPConnector.ws_run (rt := Examples.runtime)
       (Examples.host Examples.mcpParams 1 false) (js "id") (js "now")
       (js "listTools") 0 30
       [MCPConnector.WsOpen; MCPConnector.WsMessage (js "{}")])
  = false.
Proof.
  exact (proj1 (proj2 (X10_websocket_resolved_released (rt := Examples.runtime)
                         (Examples.host Examples.mcpParams 1 false)
                         (js "id") (js "now") (js "listTools") 0 30
                         [MCPConnector.WsOpen; MCPConnector.WsMessage (js "{}")]
                         _ eq_refl))).
Defined.

Lemma unknown_operation_message
    {rt : Runtime} (h : IExecuteFunctions) (id operation : jsstring) (i : nat) :
  knownOperation operation = false ->
  MCPConnector.buildMCPMessage h id operation i
  = Throw (NodeOperationError (js "Unknown operation: " ++ operation)).
Proof.
  unfold knownOperation. intros H.
  repeat (apply orb_false_iff in H; destruct H as [H ?]).
  unfold MCPConnector.buildMCPMessage.
  repeat match goal with
         | E : str_eqb operation ?k = false |- _ => rewrite E; clear E
         end.
  reflexivity.
Qed.

(** X11. An operation that is none of the six the connector knows is
    reported differently by the two transports: over HTTP the item fails
    with the error built from Unknown operation followed by the name; over
    WebSocket the connection is opened first and the item then fails with
    a second error, built from Failed to send message followed by the
    message of that first error.  Neither puts anything on the network. *)
Theorem X11_unknown_operation_on_both_transports
    {rt : Runtime} (h : IExecuteFunctions) (id now serverUrl operation : jsstring)
    (i : nat) (timeout : number) (post : list MCPConnector.WsEvent) :
  knownOperation operation = false ->
  MCPConnector.executeHttpOperation h id now serverUrl operation i timeout
  = (Thrown (NodeOperationError (js "Unknown operation: " ++ operation)), [])
  /\ MCPConnector.executeWebSocketOperation h id now operation i timeout
       (MCPConnector.WsOpen :: post)
     = Rejected (NodeOperationError
                   (js "Failed to send message: "
                       ++ message (NodeOperationError
                                     (js "Unknown operation: " ++ operation))))
  /\ MCPConnector.w_sent
       (MCPConnector.ws_run h id now operation i timeout
          (MCPConnector.WsOpen :: post)) = [].
Proof.
  intros Hk. pose proof (unknown_operation_message h id operation i Hk) as Hb.
  split; [|split].
  - unfold MCPConnector.executeHttpOperation. rewrite Hb. reflexivity.
  - unfold MCPConnector.executeWebSocketOperation, MCPConnector.ws_run.
    cbn [fold_left]. rewrite ws_settled_stays; simpl; rewrite Hb; reflexivity.
  - unfold MCPConnector.ws_run.
    rewrite (ws_nothing_sent h id now operation i timeout _ _ _ Hb). reflexivity.
Qed.

Lemma X11_unknown_operation_on_both_transports_witness :
  fst (MCPConnector.executeHttpOperation (rt := Examples.runtime)
         (Examples.host Examples.mcpParams 1 false) (js "id") (js "now")
         (js "http://localhost:8080") (js "ping") 0 30)
  = Thrown (NodeOperationError (js "Unknown operation: ping"))
  /\ MCPConnector.executeWebSocketOperation (rt := Examples.runtime)
       (Examples.host Examples.mcpParams 1 false) (js "id") (js "now")
       (js "ping") 0 30 (MCPConnector.WsOpen :: [])
     = Rejected (NodeOperationError
                   (js "Failed to send message: "
                       ++ message (NodeOperationError
                                     (js "Unknown operation: ping")))).
Proof.
  destruct (X11_unknown_operation_on_both_transports (rt := Examples.runtime)
              (Examples.host Examples.mcpParams 1 false) (js "id") (js "now")
              (js "http://localhost:8080") (js "ping") 0 30 [] eq_refl)
    as [Hhttp [Hws _]].
  split; [rewrite Hhttp; reflexivity | exact Hws].
Defined.

(** X12. Every message the connector builds for an operation other than
    sendMessage is a JSON-RPC envelope: an object whose jsonrpc field is
    2.0, whose id is the one drawn for the call, and whose method is one of
    initialize, tools/list, tools/call, resources/list and
    resources/read. *)
Theorem X12_built_message_is_an_envelope
    {rt : Runtime} (h : IExecuteFunctions) (id operation : jsstring) (i : nat)
    (message : value) :
  MCPConnector.buildMCPMessage h id operation i = Ok message ->
  str_eqb operation (js "sendMessage") = false ->
  exists fields method,
    message = VObj fields
    /\ obj_get (js "jsonrpc") fields = Some (VStr (js "2.0"))
    /\ obj_get (js "id") fields = Some (VStr id)
    /\ obj_get (js "method") fields = Some (VStr method)
    /\ In method methods.
Proof.
  unfold MCPConnector.buildMCPMessage, MCPConnector.rbind. intros Hb Hs.
  repeat match type of Hb with
         | (if ?b then _ else _) = _ => destruct b eqn:?
         | match ?e with Ok _ => _ | Throw _ => _ end = _ => destruct e eqn:?
         end;
    try discriminate; try congruence;
    inversion Hb; subst; clear Hb;
    eexists; eexists; (split; [reflexivity|]);
    cbn; repeat split; auto 10.
Qed.

Lemma X12_built_message_is_an_envelope_witness :
  exists fields,
    MCPConnector.buildMCPMessage (rt := Examples.runtime)
      (Examples.host Examples.mcpParams 1 false) (js "k3x") (js "readResource") 0
    = Ok (VObj fields)
    /\ obj_get (js "jsonrpc") fields = Some (VStr (js "2.0"))
    /\ obj_get (js "id") fields = Some (VStr (js "k3x")).
Proof.
  destruct (X12_built_message_is_an_envelope (rt := Examples.runtime)
              (Examples.host Examples.mcpParams 1 false) (js "k3x")
              (js "readResource") 0 _ eq_refl eq_refl)
    as [fields [method [Hm [Hj [Hi _]]]]].
  exists fields. inversion Hm; subst. repeat split; auto.
Defined.

(** ** Hub Monitor: the health checks *)

Lemma disk_settled_stays (events : list ChildEvent)
    (p : settlement HubMonitor.DiskCheck) :
  isSettled p = true -> fold_left HubMonitor.disk_on events p = p.
Proof.
  revert p; induction events as [|ev events IH]; intros p H; simpl;
    [reflexivity|].
  assert (Hstep : HubMonitor.disk_on p ev = p)
    by (destruct ev; simpl; auto using resolve_settled).
  rewrite Hstep. auto.
Qed.

Lemma disk_data_only (pre : list ChildEvent) (p : settlement HubMonitor.DiskCheck) :
  forallb isData pre = true -> fold_left HubMonitor.disk_on pre p = p.
Proof.
  revert p; induction pre as [|ev pre IH]; intros p H; simpl in *; [reflexivity|].
  apply andb_true_iff in H as [Hev H]. destruct ev; try discriminate; auto.
Qed.

(** The disk check settles on one of its two fixed records or not at
    all. *)
Lemma disk_outcomes (events : list ChildEvent) :
  HubMonitor.checkDiskSpace events = Pending
  \/ HubMonitor.checkDiskSpace events = Resolved HubMonitor.diskOk
  \/ HubMonitor.checkDiskSpace events = Resolved HubMonitor.diskUnknown.
Proof.
  unfold HubMonitor.checkDiskSpace.
  induction events as [|ev events IH]; [auto|]. simpl.
  destruct ev; simpl; auto; rewrite disk_settled_stays; auto.
Qed.

(** X13. The disk check is a fixture: it never rejects; once the listing
    command closes it reports 100GB total, 50GB free, usage 50 and status
    ok whatever the command printed and whatever its exit code; when the
    command cannot be started it reports unknown sizes, usage 0 and status
    error instead of failing. *)
Theorem X13_disk_check_is_fixed
    (pre post : list ChildEvent) (code : option Z) (error : Error) :
  forallb isData pre = true ->
  HubMonitor.checkDiskSpace (pre ++ ChildClose code :: post)
  = Resolved {| HubMonitor.d_total := js "100GB"; HubMonitor.d_free := js "50GB";
                HubMonitor.d_usage := 50; HubMonitor.d_status := js "ok" |}
  /\ HubMonitor.checkDiskSpace (pre ++ ChildError error :: post)
     = Resolved {| HubMonitor.d_total := js "unknown";
                   HubMonitor.d_free := js "unknown";
                   HubMonitor.d_usage := 0; HubMonitor.d_status := js "error" |}
  /\ (forall events, isRejected (HubMonitor.checkDiskSpace events) = false).
Proof.
  intros Hd. unfold HubMonitor.checkDiskSpace.
  rewrite !fold_left_app, !(disk_data_only pre _ Hd). simpl.
  rewrite !disk_settled_stays by reflexivity.
  repeat split. intros events.
  destruct (disk_outcomes events) as [E | [E | E]];
    unfold HubMonitor.checkDiskSpace in E; rewrite E; reflexivity.
Qed.

Lemma X13_disk_check_is_fixed_witness :
  HubMonitor.checkDiskSpace
    ([StdoutData (js "/dev/sda1 10G 9.9G 0.1G 99% /")] ++ ChildClose (Some 1%Z) :: [])
  = Resolved HubMonitor.diskOk.
Proof.
  exact (proj1 (X13_disk_check_is_fixed
                  [StdoutData (js "/dev/sda1 10G 9.9G 0.1G 99% /")] []
                  (Some 1%Z) (mkError []) eq_refl)).
Defined.

Lemma disk_usage_low (events : list ChildEvent) (d : HubMonitor.DiskCheck) :
  HubMonitor.checkDiskSpace events = Resolved d ->
  HubMonitor.gt (HubMonitor.d_usage d) 90 = false.
Proof.
  intros H. destruct (disk_outcomes events) as [E | [E | E]];
    rewrite E in H; inversion H; reflexivity.
Qed.

(** What the system health check returns once the disk check has
    settled. *)
Lemma systemHealth_settled
    {rt : Runtime} (w : HubMonitor.World) (i : nat) (d : HubMonitor.DiskCheck) :
  HubMonitor.checkDiskSpace (HubMonitor.diskEvents w i) = Resolved d ->
  let memory := HubMonitor.checkMemoryUsage (HubMonitor.memoryUsage w i) in
  let cpu := HubMonitor.checkCpuUsage (HubMonitor.random w i) (HubMonitor.cores w) in
  let memoryHigh := HubMonitor.gt (inject_Z (HubMonitor.m_usage memory)) 90 in
  let cpuHigh := HubMonitor.gt (inject_Z (HubMonitor.c_usage cpu)) 90 in
  HubMonitor.executeSystemHealth w i
  = Returned
      [ (js "status",
          VStr (if cpuHigh then js "critical"
                else if memoryHigh then js "warning" else js "healthy"));
        (js "checks",
          VObj [ (js "diskSpace", VObj (HubMonitor.diskFields d));
                 (js "memory", VObj (HubMonitor.memoryFields memory));
                 (js "cpu", VObj (HubMonitor.cpuFields cpu)) ]);
        (js "overall", VBool (negb (memoryHigh || cpuHigh))) ].
Proof.
  intros Hd memory cpu memoryHigh cpuHigh.
  unfold HubMonitor.executeSystemHealth. rewrite Hd. cbn [await bind].
  rewrite (disk_usage_low _ _ Hd).
  fold memory cpu. fold memoryHigh cpuHigh.
  destruct memoryHigh, cpuHigh; reflexivity.
Qed.

Lemma Math_round_upper (x : number) (n : Z) :
  x < inject_Z n + (1 # 2) -> (Math_round x <= n)%Z.
Proof.
  intros H. unfold Math_round.
  pose proof (Qfloor_le (x + (1 # 2))) as Hf.
  assert (H1 : inject_Z (Qfloor (x + (1 # 2))) < inject_Z (n + 1)).
  { rewrite inject_Z_plus. change (inject_Z 1) with 1. lra. }
  rewrite <- Zlt_Qlt in H1. lia.
Qed.

Lemma Math_round_lower (x : number) (n : Z) :
  inject_Z n - (1 # 2) <= x -> (n <= Math_round x)%Z.
Proof.
  intros H. unfold Math_round.
  pose proof (Qlt_floor (x + (1 # 2))) as Hc.
  assert (H2 : inject_Z n < inject_Z (Qfloor (x + (1 # 2)) + 1)) by lra.
  rewrite <- Zlt_Qlt in H2. lia.
Qed.

Lemma gt_inject_Z (a b : Z) :
  HubMonitor.gt (inject_Z a) (inject_Z b) = (b <? a)%Z.
Proof.
  destruct (b <? a)%Z eqn:E.
  - apply gt_true. rewrite <- Zlt_Qlt. apply Z.ltb_lt. exact E.
  - apply gt_false. rewrite <- Zle_Qle. apply Z.ltb_ge. exact E.
Qed.

(** X14. Once the disk check has settled, the system health check
    returns: status critical if the rounded CPU usage exceeds 90, otherwise
    warning if the rounded memory usage exceeds 90, otherwise healthy;
    overall is true exactly when neither exceeds 90; the three checks are
    listed as diskSpace, memory and cpu.  The disk check never lowers the
    health. *)
Theorem X14_system_health_formula
    {rt : Runtime} (w : HubMonitor.World) (i : nat) (d : HubMonitor.DiskCheck) :
  HubMonitor.checkDiskSpace (HubMonitor.diskEvents w i) = Resolved d ->
  let memory := HubMonitor.checkMemoryUsage (HubMonitor.memoryUsage w i) in
  let cpu := HubMonitor.checkCpuUsage (HubMonitor.random w i) (HubMonitor.cores w) in
  let memoryHigh := (90 <? HubMonitor.m_usage memory)%Z in
  let cpuHigh := (90 <? HubMonitor.c_usage cpu)%Z in
  HubMonitor.executeSystemHealth w i
  = Returned
      [ (js "status",
          VStr (if cpuHigh then js "critical"
                else if memoryHigh then js "warning" else js "healthy"));
        (js "checks",
          VObj [ (js "diskSpace", VObj (HubMonitor.diskFields d));
                 (js "memory", VObj (HubMonitor.memoryFields memory));
                 (js "cpu", VObj (HubMonitor.cpuFields cpu)) ]);
        (js "overall", VBool (negb (memoryHigh || cpuHigh))) ].
Proof.
  intros Hd memory cpu memoryHigh cpuHigh.
  rewrite (systemHealth_settled w i d Hd).
  change 90 with (inject_Z 90). rewrite !gt_inject_Z. reflexivity.
Qed.

Lemma X14_system_health_formula_witness :
  exists checks,
    HubMonitor.executeSystemHealth (rt := Examples.runtime) Examples.monitorWorld 0
    = Returned [ (js "status", VStr (js "healthy"));
                 (js "checks", VObj checks);
                 (js "overall", VBool true) ].
Proof.
  eexists.
  rewrite (X14_system_health_formula (rt := Examples.runtime)
             Examples.monitorWorld 0 HubMonitor.diskOk eq_refl).
  reflexivity.
Defined.

(** X15. The system health check and the performance metrics never
    throw: the errors System health check failed and Performance metrics
    failed cannot occur.  Each returns once the disk check has settled and
    otherwise never finishes. *)
Theorem X15_health_checks_never_throw
    {rt : Runtime} (w : HubMonitor.World) (i : nat) :
  isThrown (HubMonitor.executeSystemHealth w i) = false
  /\ isThrown (HubMonitor.executePerformanceMetrics w i) = false
  /\ isHung (HubMonitor.executeSystemHealth w i)
     = negb (isSettled (HubMonitor.checkDiskSpace (HubMonitor.diskEvents w i)))
  /\ isHung (HubMonitor.executePerformanceMetrics w i)
     = negb (isSettled (HubMonitor.checkDiskSpace (HubMonitor.diskEvents w i))).
Proof.
  unfold HubMonitor.executeSystemHealth, HubMonitor.executePerformanceMetrics.
  destruct (disk_outcomes (HubMonitor.diskEvents w i)) as [E | [E | E]];
    rewrite E; repeat split.
Qed.

(** X16. The health check compares the rounded memory usage with 90 while
    the memory check classifies the unrounded one: for a raw memory usage
    strictly between 90 and 90.5 (and a CPU reading below 90.5) the memory
    check inside the result says critical with usage 90, yet the health
    status is healthy and overall is true. *)
Theorem X16_critical_memory_but_healthy
    {rt : Runtime} (w : HubMonitor.World) (i : nat) (d : HubMonitor.DiskCheck) :
  HubMonitor.checkDiskSpace (HubMonitor.diskEvents w i) = Resolved d ->
  90 < HubMonitor.rawUsage (HubMonitor.memoryUsage w i) ->
  HubMonitor.rawUsage (HubMonitor.memoryUsage w i) < 905 # 10 ->
  HubMonitor.random w i * 100 < 905 # 10 ->
  let memory := HubMonitor.checkMemoryUsage (HubMonitor.memoryUsage w i) in
  let cpu := HubMonitor.checkCpuUsage (HubMonitor.random w i) (HubMonitor.cores w) in
  HubMonitor.m_status memory = HubMonitor.critical
  /\ HubMonitor.m_usage memory = 90%Z
  /\ HubMonitor.executeSystemHealth w i
     = Returned
         [ (js "status", VStr (js "healthy"));
           (js "checks",
             VObj [ (js "diskSpace", VObj (HubMonitor.diskFields d));
                    (js "memory", VObj (HubMonitor.memoryFields memory));
                    (js "cpu", VObj (HubMonitor.cpuFields cpu)) ]);
           (js "overall", VBool true) ].
Proof.
  intros Hd Hlo Hhi Hcpu memory cpu.
  assert (Hs : HubMonitor.m_status memory = HubMonitor.critical)
    by (apply usageStatus_critical; exact Hlo).
  assert (Hu : HubMonitor.m_usage memory = 90%Z).
  { simpl. apply Math_round_between; change (inject_Z 90) with 90; lra. }
  assert (Hc : (HubMonitor.c_usage cpu <= 90)%Z).
  { simpl. apply Math_round_upper. change (inject_Z 90) with 90. lra. }
  split; [exact Hs|]. split; [exact Hu|].
  assert (Hm : HubMonitor.gt (inject_Z (HubMonitor.m_usage memory)) 90 = false).
  { rewrite Hu. reflexivity. }
  assert (Hg : HubMonitor.gt (inject_Z (HubMonitor.c_usage cpu)) 90 = false).
  { apply gt_false. change 90 with (inject_Z 90). rewrite <- Zle_Qle. exact Hc. }
  rewrite (systemHealth_settled w i d Hd). fold memory cpu.
  rewrite Hm, Hg. reflexivity.
Qed.

Lemma X16_critical_memory_but_healthy_witness :
  HubMonitor.m_status
    (HubMonitor.checkMemoryUsage (rt := Examples.runtime)
       {| HubMonitor.heapTotal := 1000; HubMonitor.heapUsed := 902 |})
  = HubMonitor.critical
  /\ exists checks,
       HubMonitor.executeSystemHealth (rt := Examples.runtime)
         MoreExamples.hotWorld 0
       = Returned [ (js "status", VStr (js "healthy"));
                    (js "checks", VObj checks);
                    (js "overall", VBool true) ].
Proof.
  destruct (X16_critical_memory_but_healthy (rt := Examples.runtime)
              MoreExamples.hotWorld 0 HubMonitor.diskOk
              eq_refl eq_refl eq_refl eq_refl)
    as [Hs [_ Hh]].
  split; [exact Hs|]. eexists. exact Hh.
Defined.

Lemma rawUsage_bounds (m : HubMonitor.MemoryUsage) :
  saneHeap m -> 0 <= HubMonitor.rawUsage m /\ HubMonitor.rawUsage m <= 100.
Proof.
  intros [[Hu Hut] Ht]. unfold HubMonitor.rawUsage.
  assert (Ht' : 0 < inject_Z (HubMonitor.heapTotal m))
    by (change 0 with (inject_Z 0); rewrite <- Zlt_Qlt; exact Ht).
  assert (Hu' : 0 <= inject_Z (HubMonitor.heapUsed m))
    by (change 0 with (inject_Z 0); rewrite <- Zle_Qle; exact Hu).
  assert (Hut' : inject_Z (HubMonitor.heapUsed m) <= inject_Z (HubMonitor.heapTotal m))
    by (rewrite <- Zle_Qle; exact Hut).
  assert (H0 : 0 <= inject_Z (HubMonitor.heapUsed m) / inject_Z (HubMonitor.heapTotal m)).
  { apply Qle_shift_div_l; [exact Ht'|]. lra. }
  assert (H1 : inject_Z (HubMonitor.heapUsed m) / inject_Z (HubMonitor.heapTotal m) <= 1).
  { apply Qle_shift_div_r; [exact Ht'|]. lra. }
  split; lra.
Qed.

(** X17. For every heap reading a running process can give (used between
    0 and total, total positive) the memory check reports a usage between
    0 and 100, and its status is critical only when the heap is more than
    nine tenths full. *)
Theorem X17_memory_usage_in_range {rt : Runtime} (m : HubMonitor.MemoryUsage) :
  saneHeap m ->
  (0 <= HubMonitor.m_usage (HubMonitor.checkMemoryUsage m) <= 100)%Z
  /\ (HubMonitor.m_status (HubMonitor.checkMemoryUsage m) = HubMonitor.critical ->
      (9 * HubMonitor.heapTotal m < 10 * HubMonitor.heapUsed m)%Z).
Proof.
  intros Hs. destruct (rawUsage_bounds m Hs) as [H0 H100]. split.
  - simpl. split.
    + apply Math_round_lower. change (inject_Z 0) with 0. lra.
    + apply Math_round_upper. change (inject_Z 100) with 100. lra.
  - simpl. unfold HubMonitor.usageStatus.
    destruct (HubMonitor.gt (HubMonitor.rawUsage m) 90) eqn:E.
    + intros _. apply gt_true in E. destruct Hs as [[Hu Hut] Ht].
      unfold HubMonitor.rawUsage in E.
      assert (Ht' : 0 < inject_Z (HubMonitor.heapTotal m))
        by (change 0 with (inject_Z 0); rewrite <- Zlt_Qlt; exact Ht).
      assert (Hq : (9 # 10) < inject_Z (HubMonitor.heapUsed m)
                              / inject_Z (HubMonitor.heapTotal m)) by lra.
      apply (proj2 (Qmult_lt_r _ _ _ Ht')) in Hq.
      assert (Hne : ~ inject_Z (HubMonitor.heapTotal m) == 0) by lra.
      rewrite (Qmult_comm (_ / _)), Qmult_div_r in Hq by exact Hne.
      assert (Hz : inject_Z (9 * HubMonitor.heapTotal m)
                   < inject_Z (10 * HubMonitor.heapUsed m)).
      { rewrite !inject_Z_mult. change (inject_Z 9) with 9.
        change (inject_Z 10) with 10. lra. }
      rewrite <- Zlt_Qlt in Hz. exact Hz.
    + destruct (HubMonitor.gt (HubMonitor.rawUsage m) 70); discriminate.
Qed.

Lemma X17_memory_usage_in_range_witness :
  (0 <= HubMonitor.m_usage
          (HubMonitor.checkMemoryUsage (rt := Examples.runtime)
             {| HubMonitor.heapTotal := 1000; HubMonitor.heapUsed := 1000 |})
     <= 100)%Z.
Proof.
  apply (X17_memory_usage_in_range (rt := Examples.runtime)
           {| HubMonitor.heapTotal := 1000; HubMonitor.heapUsed := 1000 |}).
  unfold saneHeap. simpl. lia.
Defined.

(** ** Hub Monitor: the process listing *)

Lemma pushLine_filter (isWindows : bool) (test : jsstring -> bool)
    (all : list HubMonitor.Process) (line : jsstring) :
  HubMonitor.pushLine isWindows (Some test)
    (filter (fun p => test (HubMonitor.name p)) all) line
  = filter (fun p => test (HubMonitor.name p))
      (HubMonitor.pushLine isWindows None all line).
Proof.
  unfold HubMonitor.pushLine.
  destruct (negb (truthy (trim line))); [reflexivity|].
  destruct (HubMonitor.parseLine isWindows line) as [processName pid].
  destruct (truthy processName); simpl; [|reflexivity].
  rewrite filter_app. simpl.
  destruct (test processName); [reflexivity | rewrite app_nil_r; reflexivity].
Qed.

Lemma parse_loop_filter (isWindows : bool) (test : jsstring -> bool)
    (lines : list jsstring) (all : list HubMonitor.Process) :
  fold_left (HubMonitor.pushLine isWindows (Some test)) lines
    (filter (fun p => test (HubMonitor.name p)) all)
  = filter (fun p => test (HubMonitor.name p))
      (fold_left (HubMonitor.pushLine isWindows None) lines all).
Proof.
  revert all; induction lines as [|line lines IH]; intros all; simpl;
    [reflexivity|].
  rewrite pushLine_filter. apply IH.
Qed.

(** X19. Filtering by a pattern is exactly filtering the unfiltered
    listing: what parseProcessList returns for a pattern is what it returns
    for the empty pattern, in the same order, with the entries dropped
    whose name the regular expression does not match.  No matching process
    is lost. *)
Theorem X19_pattern_filters_the_full_listing
    {rt : Runtime} (output pattern : jsstring) (isWindows : bool)
    (test : jsstring -> bool) :
  truthy pattern = true ->
  RegExp_i pattern = Ok test ->
  exists all,
    HubMonitor.parseProcessList output [] isWindows = Ok all
    /\ HubMonitor.parseProcessList output pattern isWindows
       = Ok (filter (fun p => test (HubMonitor.name p)) all).
Proof.
  intros Hp Hre. unfold HubMonitor.parseProcessList. rewrite Hp, Hre.
  cbn [truthy]. eexists. split; [reflexivity|].
  f_equal. exact (parse_loop_filter isWindows test _ []).
Qed.

Lemma X19_pattern_filters_the_full_listing_witness :
  exists all,
    map HubMonitor.name all
    = [js "COMMAND"; js "/sbin/init"; js "Node server.js"]
    /\ HubMonitor.parseProcessList (rt := Examples.runtime)
         Examples.psListing (js "node") false
       = Ok (filter (fun p => Examples.contains_ci (js "node") (HubMonitor.name p))
               all).
Proof.
  destruct (X19_pattern_filters_the_full_listing (rt := Examples.runtime)
              Examples.psListing (js "node") false
              (Examples.contains_ci (js "node")) eq_refl eq_refl)
    as [all [Hall Hfiltered]].
  exists all. split; [|exact Hfiltered].
  vm_compute in Hall. inversion Hall. reflexivity.
Defined.

(** X20. When the listing command closes with exit code 0 and the pattern
    is usable, the process monitor resolves with the processes parsed from
    everything the command wrote to stdout, put together in order -- so a
    line cut in two by a chunk boundary is parsed as one line, and stderr
    plays no part --, with the pattern, and with a count equal to the
    number of processes. *)
Theorem X20_process_monitor_result
    {rt : Runtime} (h : IExecuteFunctions) (i : nat) (isWindows : bool)
    (pattern : jsstring) (pre post : list ChildEvent)
    (processes : list HubMonitor.Process) :
  getNodeParameter_string h (js "processPattern") i = Ok pattern ->
  forallb isData pre = true ->
  HubMonitor.parseProcessList (stdoutOf pre) pattern isWindows = Ok processes ->
  HubMonitor.executeProcessMonitor h i isWindows (pre ++ ChildClose (Some 0%Z) :: post)
  = Resolved
      [ (js "processes",
          VArr (map (fun p => VObj [ (js "name", VStr (HubMonitor.name p));
                                     (js "pid", VStr (HubMonitor.pid p)) ])
                  processes));
        (js "pattern", VStr pattern);
        (js "count", VNum (inject_Z (Z.of_nat (List.length processes)))) ].
Proof.
  intros Hp Hd Hparse. unfold HubMonitor.executeProcessMonitor. rewrite Hp.
  unfold HubMonitor.monitor_run.
  rewrite fold_left_app, (monitor_data_only pattern isWindows pre _ Hd).
  cbn [fold_left]. rewrite monitor_settled_stays.
  - simpl. rewrite Hparse. reflexivity.
  - simpl. rewrite Hparse. reflexivity.
Qed.

Lemma X20_process_monitor_result_witness :
  exists processes,
    map HubMonitor.name processes = [js "Node server.js"]
    /\ HubMonitor.executeProcessMonitor (rt := Examples.runtime)
         (Examples.host (Examples.monitorParams (js "node")) 1 false) 0 false
         ([StdoutData (firstn 60 Examples.psListing); StderrData (js "noise");
           StdoutData (skipn 60 Examples.psListing)]
            ++ ChildClose (Some 0%Z) :: [])
       = Resolved
           [ (js "processes",
               VArr (map (fun p => VObj [ (js "name", VStr (HubMonitor.name p));
                                          (js "pid", VStr (HubMonitor.pid p)) ])
                       processes));
             (js "pattern", VStr (js "node"));
             (js "count", VNum (inject_Z (Z.of_nat (List.length processes)))) ].
Proof.
  exists [ {| HubMonitor.name := js "Node server.js"; HubMonitor.pid := js "42" |} ].
  split; [reflexivity|].
  apply (X20_process_monitor_result (rt := Examples.runtime)
           (Examples.host (Examples.monitorParams (js "node")) 1 false) 0 false
           (js "node")
           [StdoutData (firstn 60 Examples.psListing); StderrData (js "noise");
            StdoutData (skipn 60 Examples.psListing)] []);
    reflexivity.
Defined.

(** X21. A pattern that is no regular expression is not reported as an
    error: the exception is thrown inside the close listener, where nothing
    catches it, so when the listing command closes with exit code 0 the
    call is neither resolved nor rejected, and output that follows does not
    settle it either. *)
Theorem X21_malformed_pattern_never_settles
    {rt : Runtime} (h : IExecuteFunctions) (i : nat) (isWindows : bool)
    (pattern : jsstring) (error : Error) (pre post : list ChildEvent) :
  getNodeParameter_string h (js "processPattern") i = Ok pattern ->
  truthy pattern = true ->
  RegExp_i pattern = Throw error ->
  forallb isData pre = true ->
  forallb isData post = true ->
  HubMonitor.executeProcessMonitor h i isWindows (pre ++ ChildClose (Some 0%Z) :: post)
  = Pending.
Proof.
  intros Hp Ht Hre Hpre Hpost. unfold HubMonitor.executeProcessMonitor. rewrite Hp.
  unfold HubMonitor.monitor_run.
  rewrite fold_left_app, (monitor_data_only pattern isWindows pre _ Hpre).
  cbn [fold_left]. unfold HubMonitor.monitor_on at 2. cbn [isZero Z.eqb negb].
  unfold HubMonitor.parseProcessList. rewrite Ht, Hre.
  rewrite (monitor_data_only pattern isWindows post _ Hpost). reflexivity.
Qed.

Lemma X21_malformed_pattern_never_settles_witness :
  HubMonitor.executeProcessMonitor (rt := Examples.runtime)
    (Examples.host (Examples.monitorParams (js "(node")) 1 false) 0 false
    ([StdoutData Examples.psListing] ++ ChildClose (Some 0%Z) :: [])
  = Pending.
Proof.
  exact (X21_malformed_pattern_never_settles (rt := Examples.runtime)
           (Examples.host (Examples.monitorParams (js "(node")) 1 false) 0 false
           (js "(node") (mkError (js "Invalid regular expression"))
           [StdoutData Examples.psListing] []
           eq_refl eq_refl eq_refl eq_refl eq_refl).
Defined.

Lemma remove_all_gone (c : char) (s : jsstring) : ~ In c (remove_all c s).
Proof.
  unfold remove_all. intros H. apply filter_In in H as [_ H].
  unfold char_eqb in H. rewrite N.eqb_refl in H. discriminate.
Qed.

Lemma split_ws_acc_wsFree (s : jsstring) (inRun : bool) (cur : jsstring) :
  wsFree cur = true -> Forall (fun piece => wsFree piece = true)
                         (split_ws_acc inRun cur s).
Proof.
  revert inRun cur; induction s as [|c s IH]; intros inRun cur Hcur; simpl.
  - constructor; [|constructor]. unfold wsFree in *. rewrite forallb_rev. exact Hcur.
  - destruct (isWhiteSpace c) eqn:Hc.
    + destruct inRun; [apply IH; exact Hcur|].
      constructor; [|apply IH; reflexivity].
      unfold wsFree in *. rewrite forallb_rev. exact Hcur.
    + apply IH. unfold wsFree in *. simpl. rewrite Hc, Hcur. reflexivity.
Qed.

Lemma nth_wsFree (n : nat) (parts : list jsstring) :
  Forall (fun piece => wsFree piece = true) parts ->
  wsFree (nth n parts []) = true.
Proof.
  intros H. revert n; induction H as [|p parts Hp H IH]; intros [|n]; simpl;
    auto.
Qed.

Lemma skipn_Forall {A} (P : A -> Prop) (n : nat) (l : list A) :
  Forall P l -> Forall P (skipn n l).
Proof.
  revert l; induction n as [|n IH]; intros l H; simpl; [exact H|].
  destruct H; [constructor | apply IH; assumption].
Qed.

Lemma join_space_chars (parts : list jsstring) (c : char) :
  Forall (fun piece => wsFree piece = true) parts ->
  In c (join [HubMonitor.SPACE] parts) ->
  isWhiteSpace c = true -> c = HubMonitor.SPACE.
Proof.
  intros H. induction H as [|p parts Hp H IH]; simpl; [contradiction|].
  assert (Hpc : In c p -> isWhiteSpace c = true -> c = HubMonitor.SPACE).
  { intros Hin Hw. unfold wsFree in Hp.
    rewrite forallb_forall in Hp. specialize (Hp c Hin).
    rewrite Hw in Hp. discriminate. }
  destruct parts as [|q parts]; [exact Hpc|].
  intros Hin Hw. apply in_app_or in Hin as [Hin | Hin]; [auto|].
  simpl in Hin. destruct Hin as [Hin | Hin]; [auto|]. auto.
Qed.

(** What the loop body reads off one line, by platform. *)
Lemma parseLine_clean (isWindows : bool) (line name pid : jsstring) :
  HubMonitor.parseLine isWindows line = (name, pid) ->
  if isWindows
  then ~ In HubMonitor.QUOTE name /\ ~ In HubMonitor.QUOTE pid
  else (forall c, In c name -> isWhiteSpace c = true -> c = HubMonitor.SPACE)
       /\ wsFree pid = true.
Proof.
  unfold HubMonitor.parseLine. destruct isWindows.
  - destruct (Nat.ltb 1 (List.length (split HubMonitor.COMMA line)));
      intros H; inversion H; subst; split;
      auto using remove_all_gone.
  - pose proof (split_ws_acc_wsFree (trim line) false [] eq_refl) as Hparts.
    fold (split_ws (trim line)) in Hparts.
    destruct (Nat.ltb 10 (List.length (split_ws (trim line))));
      intros H; apply pair_equal_spec in H as [Hn Hp]; subst name pid; split.
    + intros c. apply join_space_chars. apply skipn_Forall. exact Hparts.
    + apply nth_wsFree. exact Hparts.
    + intros c [].
    + reflexivity.
Qed.

(** X22. The entries parseProcessList returns are cleaned by platform.  On
    Windows neither the name nor the pid contains a double quote.  On Unix
    the pid contains no white space and the only white space in a name is
    the single space put between the words of the command line, so tabs
    and runs of blanks in the listing do not reach the result. *)
Theorem X22_entries_are_cleaned
    {rt : Runtime} (output pattern : jsstring) (isWindows : bool)
    (processes : list HubMonitor.Process) (p : HubMonitor.Process) :
  HubMonitor.parseProcessList output pattern isWindows = Ok processes ->
  In p processes ->
  if isWindows
  then ~ In 34%N (HubMonitor.name p) /\ ~ In 34%N (HubMonitor.pid p)
  else (forall c, In c (HubMonitor.name p) -> isWhiteSpace c = true -> c = 32%N)
       /\ wsFree (HubMonitor.pid p) = true.
Proof.
  unfold HubMonitor.parseProcessList. intros Hparse Hin.
  assert (Hline : exists regex line,
             pushed isWindows regex line p).
  { destruct (truthy pattern).
    - destruct (RegExp_i pattern) as [test|e]; [|discriminate].
      inversion Hparse; subst.
      destruct (parse_loop_entries _ _ _ _ _ Hin) as [[] | [line [_ Hl]]].
      exists (Some test), line. exact Hl.
    - inversion Hparse; subst.
      destruct (parse_loop_entries _ _ _ _ _ Hin) as [[] | [line [_ Hl]]].
      exists None, line. exact Hl. }
  destruct Hline as [regex [line [_ [Hl _]]]].
  exact (parseLine_clean isWindows line _ _ Hl).
Qed.

Lemma X22_entries_are_cleaned_witness :
  ~ In 34%N (js "node.exe") /\ ~ In 34%N (js "4711").
Proof.
  apply (X22_entries_are_cleaned (rt := Examples.runtime)
           ([34; 110; 111; 100; 101; 46; 101; 120; 101; 34; 44;
             34; 52; 55; 49; 49; 34; 44; 34; 67; 111; 110; 115; 111; 108; 101; 34]%N)
           (js "node") true
           [ {| HubMonitor.name := js "node.exe"; HubMonitor.pid := js "4711" |} ]
           {| HubMonitor.name := js "node.exe"; HubMonitor.pid := js "4711" |}).
  - reflexivity.
  - simpl. left. reflexivity.
Defined.

(** ** Web Browse Agent: what is called on the driver *)

Section OnlyCalls.
Import WebBrowseAgent.
Variable P : BrowserCall -> Prop.

Lemma only_pure {A} (m : Browse A) :
  (forall st, snd (m st) = st) -> onlyCalls P m.
Proof.
  intros H st. rewrite H. exists []. rewrite app_nil_r. auto.
Qed.

Lemma only_ret {A} (a : A) : onlyCalls P (ret a).
Proof. apply only_pure; reflexivity. Qed.

Lemma only_throw {A} (e : Error) : onlyCalls P (@throw A e).
Proof. apply only_pure; reflexivity. Qed.

Lemma only_liftB {A} (r : result A) : onlyCalls P (liftB r).
Proof. apply only_pure; reflexivity. Qed.

Lemma only_assignBrowser : onlyCalls P assignBrowser.
Proof. intros st. exists []. simpl. rewrite app_nil_r. auto. Qed.

Lemma only_call {A} (c : BrowserCall) (answer : outcome A) :
  P c -> onlyCalls P (call c answer).
Proof. intros Hc st. exists [c]. simpl. auto. Qed.

Lemma only_then (s0 s1 s2 : State) :
  (exists more, calls s1 = calls s0 ++ more /\ Forall P more) ->
  (exists more, calls s2 = calls s1 ++ more /\ Forall P more) ->
  exists more, calls s2 = calls s0 ++ more /\ Forall P more.
Proof.
  intros [m1 [Hc1 Hp1]] [m2 [Hc2 Hp2]]. exists (m1 ++ m2).
  split; [rewrite Hc2, Hc1, app_assoc; reflexivity|].
  apply Forall_app. auto.
Qed.

Lemma only_bind {A B} (m : Browse A) (k : A -> Browse B) :
  onlyCalls P m -> (forall a, onlyCalls P (k a)) -> onlyCalls P (bindB m k).
Proof.
  intros Hm Hk st. unfold bindB. specialize (Hm st).
  destruct (m st) as [[a|e|] st']; simpl in *; try exact Hm.
  exact (only_then _ _ _ Hm (Hk a st')).
Qed.

Lemma only_rethrowB {A} (prefix : jsstring) (m : Browse A) :
  onlyCalls P m -> onlyCalls P (rethrowB prefix m).
Proof.
  intros Hm st. unfold rethrowB. specialize (Hm st).
  destruct (m st) as [o st']; exact Hm.
Qed.

Variables (h : IExecuteFunctions) (w : World).

Lemma only_executeItem (i : nat) :
  P (PageWork i) -> onlyCalls P (executeItem h w i).
Proof.
  intros Hi.
  unfold executeItem, executeNavigate, executeScreenshot, executeGetText,
    executeClick, executeFillForm, executeWaitForElement, executeScript,
    pageOperation.
  repeat first
    [ apply only_bind; [|intros ?]
    | apply only_liftB
    | apply only_ret
    | apply only_throw
    | apply only_rethrowB
    | apply only_call; exact Hi
    | match goal with |- onlyCalls _ (if ?b then _ else _) => destruct b end ].
Qed.

Lemma only_itemLoopB (n i : nat) (acc : list value) :
  (forall j, (i <= j < i + n)%nat -> P (PageWork j)) ->
  onlyCalls P (itemLoopB h w n i acc).
Proof.
  revert i acc; induction n as [|n IH]; intros i acc Hp; simpl.
  - apply only_ret.
  - intros st.
    assert (Hitem : onlyCalls P (executeItem h w i))
      by (apply only_executeItem, Hp; lia).
    specialize (Hitem st).
    assert (Hrest : forall acc', onlyCalls P (itemLoopB h w n (S i) acc'))
      by (intros acc'; apply IH; intros j Hj; apply Hp; lia).
    destruct (executeItem h w i st) as [[item|e|] st']; simpl in *.
    + exact (only_then _ _ _ Hitem (Hrest _ st')).
    + destruct (continueOnFail h); simpl; [|exact Hitem].
      exact (only_then _ _ _ Hitem (Hrest _ st')).
    + exact Hitem.
Qed.

Lemma only_execute :
  (forall headless, P (Launch headless)) -> P NewPage -> P Close ->
  (forall width height,
      truthyValue width = true -> truthyValue height = true ->
      P (SetViewport width height)) ->
  (forall userAgent, truthyValue userAgent = true -> P (SetUserAgent userAgent)) ->
  (forall j, (j < List.length (getInputData h))%nat -> P (PageWork j)) ->
  Forall P (calls (snd (execute h w))).
Proof.
  intros Hlaunch Hpage Hclose Hview Hagent Hwork.
  assert (Hopen : forall browserOptions, onlyCalls P (openPage w browserOptions)).
  { intros browserOptions. unfold openPage.
    apply only_bind; [apply only_call; exact Hpage | intros _].
    apply only_bind; [apply only_liftB | intros width].
    apply only_bind; [apply only_liftB | intros height].
    apply only_bind.
    - destruct (truthyValue width || truthyValue height) eqn:E;
        [|apply only_ret].
      apply only_call, Hview; unfold orElse.
      + destruct (truthyValue width) eqn:Ew; [exact Ew | reflexivity].
      + destruct (truthyValue height) eqn:Eh; [exact Eh | reflexivity].
    - intros _. apply only_bind; [apply only_liftB | intros userAgent].
      destruct (truthyValue userAgent) eqn:E; [|apply only_ret].
      apply only_call, Hagent, E. }
  assert (Htry : onlyCalls P (tryBlock h w)).
  { unfold tryBlock.
    apply only_bind.
    - unfold launchBrowser.
      apply only_bind; [apply only_liftB | intros browserOptions].
      apply only_bind; [apply only_liftB | intros headless].
      apply only_bind; [apply only_call, Hlaunch | intros _].
      apply only_bind; [apply only_assignBrowser | intros _].
      apply only_ret.
    - intros browserOptions.
      apply only_bind; [apply Hopen | intros _].
      apply only_itemLoopB. intros j Hj. apply Hwork. lia. }
  destruct (Htry start) as [more [Hcalls Hmore]]. simpl in Hcalls.
  unfold execute.
  destruct (tryBlock h w start) as [[out|e|] st]; simpl in *;
    try (rewrite Hcalls; exact Hmore);
    destruct (browser st); simpl; try (rewrite Hcalls; exact Hmore);
    destruct (close w); simpl; rewrite Hcalls; apply Forall_app; auto.
Qed.

End OnlyCalls.

(** X23. The Web Browse Agent touches the page only for the items of the
    batch: every page operation it runs belongs to an item index below the
    number of input items.  For an empty batch no page operation runs at
    all, although the browser is still launched and closed. *)
Theorem X23_page_work_only_for_input_items
    (h : IExecuteFunctions) (w : WebBrowseAgent.World) (i : nat) :
  In (WebBrowseAgent.PageWork i)
     (WebBrowseAgent.calls (snd (WebBrowseAgent.execute h w))) ->
  (i < List.length (getInputData h))%nat.
Proof.
  intros Hin.
  assert (Hall : Forall (withinBatch (List.length (getInputData h)))
                   (WebBrowseAgent.calls (snd (WebBrowseAgent.execute h w)))).
  { apply only_execute; simpl; auto. }
  rewrite Forall_forall in Hall. exact (Hall _ Hin).
Qed.

Lemma X23_page_work_only_for_input_items_witness : (1 < 2)%nat.
Proof.
  apply (X23_page_work_only_for_input_items
           (Examples.host Examples.browseParams 2 true) Examples.browseWorld 1).
  simpl. auto 10.
Defined.

(** An empty batch: the browser is launched and closed, the page is
    opened, and nothing is done on it. *)
Example empty_batch_still_launches :
  WebBrowseAgent.execute
    (Examples.host Examples.browseParams 0 false) Examples.browseWorld
  = (Returned [],
     {| WebBrowseAgent.calls :=
          [WebBrowseAgent.Launch true; WebBrowseAgent.NewPage;
           WebBrowseAgent.Close];
        WebBrowseAgent.browser := true |}).
Proof. reflexivity. Qed.

(** X24. The driver is never handed a missing or zero viewport dimension
    or an empty user agent: whenever the agent sets the viewport both
    dimensions are truthy (a missing or zero one has been replaced by 1280
    or 720), and it sets the user agent only to a truthy value. *)
Theorem X24_viewport_and_user_agent_are_set_to_real_values
    (h : IExecuteFunctions) (w : WebBrowseAgent.World) :
  Forall saneCall (WebBrowseAgent.calls (snd (WebBrowseAgent.execute h w))).
Proof.
  apply only_execute; simpl; auto.
Qed.

(** X25. When the browser cannot be launched the invocation throws the
    launch error whatever the continue-on-failure flag says and however
    many items there are; no page is opened, no item is processed and,
    there being no browser, nothing is closed. *)
Theorem X25_launch_failure_aborts_everything
    (h : IExecuteFunctions) (w : WebBrowseAgent.World)
    (browserOptions headless : value) (e : Error) :
  getNodeParameter_any h (js "browserOptions") 0 = Ok browserOptions ->
  WebBrowseAgent.getProp browserOptions (js "headless") = Ok headless ->
  WebBrowseAgent.launch w = Thrown e ->
  WebBrowseAgent.execute h w
  = (Thrown e,
     {| WebBrowseAgent.calls :=
          [WebBrowseAgent.Launch (WebBrowseAgent.notFalse headless)];
        WebBrowseAgent.browser := false |}).
Proof.
  intros Ho Hh Hl.
  unfold WebBrowseAgent.execute, WebBrowseAgent.tryBlock,
    WebBrowseAgent.launchBrowser, WebBrowseAgent.bindB, WebBrowseAgent.liftB,
    WebBrowseAgent.call.
  rewrite Ho. cbn [lift]. rewrite Hh. cbn [lift]. rewrite Hl. reflexivity.
Qed.

Lemma X25_launch_failure_aborts_everything_witness :
  fst (WebBrowseAgent.execute
         (Examples.host Examples.browseParams 3 true) MoreExamples.noBrowserWorld)
  = Thrown (mkError (js "no chrome")).
Proof.
  rewrite (X25_launch_failure_aborts_everything
             (Examples.host Examples.browseParams 3 true)
             MoreExamples.noBrowserWorld
             (VObj []) VUndefined (mkError (js "no chrome"))
             eq_refl eq_refl eq_refl).
  reflexivity.
Defined.

Lemma tryBlock_ended_launched (h : IExecuteFunctions) (w : WebBrowseAgent.World) :
  (exists browserOptions,
      fst (WebBrowseAgent.launchBrowser h w WebBrowseAgent.start)
      = Returned browserOptions) ->
  WebBrowseAgent.browser (snd (WebBrowseAgent.tryBlock h w WebBrowseAgent.start))
  = true.
Proof.
  intros [browserOptions Hl].
  exact (proj1 (tryBlock_after_launch h w browserOptions Hl)).
Qed.

(** X26. An error while closing the browser replaces the outcome of the
    batch: if the browser was launched and the batch came to an end --
    with all its results or with an item's error -- and the closing
    throws, the invocation throws the closing error; the results or the
    item's error are lost. *)
Theorem X26_close_error_replaces_the_outcome
    (h : IExecuteFunctions) (w : WebBrowseAgent.World)
    (browserOptions : value) (e : Error) :
  fst (WebBrowseAgent.launchBrowser h w WebBrowseAgent.start)
  = Returned browserOptions ->
  isHung (fst (WebBrowseAgent.tryBlock h w WebBrowseAgent.start)) = false ->
  WebBrowseAgent.close w = Thrown e ->
  fst (WebBrowseAgent.execute h w) = Thrown e.
Proof.
  intros Hl Hh Hc.
  pose proof (tryBlock_ended_launched h w (ex_intro _ browserOptions Hl)) as Hb.
  unfold WebBrowseAgent.execute.
  destruct (WebBrowseAgent.tryBlock h w WebBrowseAgent.start) as [[out|e'|] st];
    simpl in *; try discriminate; rewrite Hb; unfold WebBrowseAgent.call;
    rewrite Hc; reflexivity.
Qed.

Lemma X26_close_error_replaces_the_outcome_witness :
  fst (WebBrowseAgent.execute
         (Examples.host Examples.browseParams 2 true) MoreExamples.closeFailsWorld)
  = Thrown (mkError (js "Target closed")).
Proof.
  exact (X26_close_error_replaces_the_outcome
           (Examples.host Examples.browseParams 2 true)
           MoreExamples.closeFailsWorld
           (VObj []) (mkError (js "Target closed")) eq_refl eq_refl eq_refl).
Defined.

(** ** The export fixer *)

Lemma isPrefix_app (p s : jsstring) : FixExports.isPrefix p (p ++ s) = true.
Proof.
  induction p as [|c p IH]; simpl; [reflexivity|].
  unfold char_eqb. rewrite N.eqb_refl. exact IH.
Qed.

Lemma includes_app (p a b : jsstring) :
  FixExports.includes p (a ++ p ++ b) = true.
Proof.
  induction a as [|c a IH]; simpl.
  - destruct (p ++ b) eqn:E; simpl; rewrite <- ?E, isPrefix_app; reflexivity.
  - rewrite IH. apply orb_true_r.
Qed.

Lemma includes_cons_false (p : jsstring) (c : char) (s : jsstring) :
  FixExports.includes p (c :: s) = false ->
  FixExports.isPrefix p (c :: s) = false /\ FixExports.includes p s = false.
Proof. simpl. intros H. apply orb_false_iff in H. exact H. Qed.

Lemma replaceAll_absent (p r s : jsstring) :
  FixExports.includes p s = false -> FixExports.replaceAll p r s = s.
Proof.
  unfold FixExports.replaceAll. induction s as [|c s IH]; intros H;
    [reflexivity|].
  apply includes_cons_false in H as [Hp Hs].
  cbn [FixExports.replaceAll_acc]. rewrite Hp, (IH Hs). reflexivity.
Qed.

(** X27. Whatever a node file contained, what the export fixer writes back
    contains the statement that exports the class by name. *)
Theorem X27_fixed_file_exports_the_class (className content : jsstring) :
  In className FixExports.classNames ->
  FixExports.includes (FixExports.exportStatement className)
    (FixExports.fixContent className content) = true.
Proof.
  intros _. unfold FixExports.fixContent.
  destruct (FixExports.includes (FixExports.exportStatement className)
              (FixExports.replaceAll (FixExports.exportClass className)
                 (js "class " ++ className) content)) eqn:E; cbn [negb].
  - exact E.
  - rewrite (app_assoc (trim _)). apply includes_app.
Qed.

Lemma X27_fixed_file_exports_the_class_witness :
  FixExports.fixContent (js "HubMonitor") (js " export class HubMonitor {} ")
  = js "class HubMonitor {}" ++ [10; 10]%N ++ js "export { HubMonitor };" ++ [10%N]
  /\ FixExports.includes (js "export { HubMonitor }")
       (FixExports.fixContent (js "HubMonitor") (js " export class HubMonitor {} "))
     = true.
Proof.
  split; [reflexivity|].
  apply (X27_fixed_file_exports_the_class (js "HubMonitor")).
  simpl. auto.
Defined.

(** X28. A node file that is already in the wanted form -- no export
    class declaration of the class, and the export statement present -- is
    written back unchanged. *)
Theorem X28_fixed_file_is_left_alone (className content : jsstring) :
  In className FixExports.classNames ->
  FixExports.includes (FixExports.exportClass className) content = false ->
  FixExports.includes (FixExports.exportStatement className) content = true ->
  FixExports.fixContent className content = content.
Proof.
  intros _ Hclass Hstmt. unfold FixExports.fixContent.
  rewrite (replaceAll_absent _ _ _ Hclass), Hstmt. reflexivity.
Qed.

Lemma X28_fixed_file_is_left_alone_witness :
  FixExports.fixContent (js "MCPConnector")
    (js "class MCPConnector {}  export { MCPConnector };  ")
  = js "class MCPConnector {}  export { MCPConnector };  ".
Proof.
  apply (X28_fixed_file_is_left_alone (js "MCPConnector")).
  - simpl. auto.
  - reflexivity.
  - reflexivity.
Defined.

(** ** Dispatch on the operation *)

(** X29. In the Hub Monitor, the LM Studio Agent and the Web Browse Agent
    an operation that is none of the node's own makes the item fail with
    Unknown operation followed by the name as given (the comparison is
    case-sensitive), before anything outside is called: in the Web Browse
    Agent the page is not touched. *)
Theorem X29_unknown_operation_fails_the_item
    {rt : Runtime} (h : IExecuteFunctions) (i : nat)
    (operation lmStudioUrl : jsstring)
    (monitor : HubMonitor.World) (lm : LMStudioAgent.World)
    (browse : WebBrowseAgent.World) (st : WebBrowseAgent.State) :
  getNodeParameter_string h (js "operation") i = Ok operation ->
  getNodeParameter_string h (js "lmStudioUrl") i = Ok lmStudioUrl ->
  (knownMonitorOperation operation = false ->
   HubMonitor.executeItem h monitor i
   = Thrown (NodeOperationError (js "Unknown operation: " ++ operation)))
  /\ (knownLmOperation operation = false ->
      LMStudioAgent.executeItem h lm i
      = Thrown (NodeOperationError (js "Unknown operation: " ++ operation)))
  /\ (knownBrowseOperation operation = false ->
      WebBrowseAgent.executeItem h browse i st
      = (Thrown (NodeOperationError (js "Unknown operation: " ++ operation)), st)).
Proof.
  intros Hop Hurl. split; [|split]; intros Hk.
  - unfold knownMonitorOperation in Hk.
    repeat (apply orb_false_iff in Hk; destruct Hk as [Hk ?]).
    unfold HubMonitor.executeItem. rewrite Hop. cbn [lift bind].
    repeat match goal with
           | E : str_eqb operation ?k = false |- _ => rewrite E; clear E
           end.
    reflexivity.
  - unfold knownLmOperation in Hk.
    repeat (apply orb_false_iff in Hk; destruct Hk as [Hk ?]).
    unfold LMStudioAgent.executeItem. rewrite Hurl, Hop. cbn [lift bind].
    repeat match goal with
           | E : str_eqb operation ?k = false |- _ => rewrite E; clear E
           end.
    reflexivity.
  - unfold knownBrowseOperation in Hk.
    repeat (apply orb_false_iff in Hk; destruct Hk as [Hk ?]).
    unfold WebBrowseAgent.executeItem, WebBrowseAgent.bindB, WebBrowseAgent.liftB.
    rewrite Hop. cbn [lift].
    repeat match goal with
           | E : str_eqb operation ?k = false |- _ => rewrite E; clear E
           end.
    reflexivity.
Qed.

Lemma X29_unknown_operation_fails_the_item_witness :
  HubMonitor.executeItem (rt := Examples.runtime)
    (Examples.host MoreExamples.shoutedParams 1 false) Examples.monitorWorld 0
  = Thrown (NodeOperationError (js "Unknown operation: SystemHealth")).
Proof.
  destruct (X29_unknown_operation_fails_the_item (rt := Examples.runtime)
              (Examples.host MoreExamples.shoutedParams 1 false) 0
              (js "SystemHealth") []
              Examples.monitorWorld
              {| LMStudioAgent.chatCompletion := fun _ => Hung;
                 LMStudioAgent.textCompletion := fun _ => Hung;
                 LMStudioAgent.listModels := fun _ => Hung |}
              Examples.browseWorld WebBrowseAgent.start eq_refl eq_refl)
    as [Hmonitor _].
  apply Hmonitor. reflexivity.
Defined.

(** ** A batch without failures *)

Lemma map_nth_seq (entries : list value) :
  map (fun j => nth j entries VUndefined) (seq 0 (List.length entries)) = entries.
Proof.
  induction entries as [|e entries IH]; [reflexivity|].
  simpl. f_equal. rewrite <- seq_shift, map_map. exact IH.
Qed.

Lemma itemLoop_every_entry (body : nat -> outcome value)
    (onError : nat -> Error -> value) (cof : bool) (n : nat) :
  returnsEveryEntry n body (itemLoop body onError cof n 0 []).
Proof.
  intros entries Hlen Hall.
  rewrite itemLoop_all_returned.
  - simpl. rewrite <- (map_nth_seq entries), Hlen. f_equal. apply map_ext_in.
    intros j Hj. apply in_seq in Hj. unfold entryOf. rewrite Hall by lia.
    reflexivity.
  - intros j Hj. eexists. apply Hall. lia.
Qed.

(** X30. The continue-on-failure flag only matters when an item fails:
    in the Hub Monitor, the LM Studio Agent, the Terminal Agent and the MCP
    Connector, a batch all of whose items succeed returns exactly the
    items' entries, in input order, whatever the flag is. *)
Theorem X30_batch_without_failures
    {rt : Runtime} (h : IExecuteFunctions)
    (monitor : HubMonitor.World) (lm : LMStudioAgent.World)
    (terminal : TerminalAgent.World) (mcp : MCPConnector.World) :
  returnsEveryEntry (List.length (getInputData h))
    (HubMonitor.executeItem h monitor) (HubMonitor.execute h monitor)
  /\ returnsEveryEntry (List.length (getInputData h))
       (LMStudioAgent.executeItem h lm) (LMStudioAgent.execute h lm)
  /\ returnsEveryEntry (List.length (getInputData h))
       (TerminalAgent.executeItem h terminal) (TerminalAgent.execute h terminal)
  /\ returnsEveryEntry (List.length (getInputData h))
       (MCPConnector.executeItem h mcp) (MCPConnector.execute h mcp).
Proof.
  unfold HubMonitor.execute, LMStudioAgent.execute, TerminalAgent.execute,
    MCPConnector.execute.
  repeat split; apply itemLoop_every_entry.
Qed.

Lemma X30_batch_without_failures_witness :
  MCPConnector.execute (rt := Examples.runtime)
    (Examples.host Examples.mcpParams 2 false)
    {| MCPConnector.wsEvents := fun _ => [];
       MCPConnector.randomId := fun _ => js "k3x";
       MCPConnector.clock := fun _ => js "now" |}
  = Returned
      (map (entryOf
              (MCPConnector.executeItem (rt := Examples.runtime)
                 (Examples.host Examples.mcpParams 2 false)
                 {| MCPConnector.wsEvents := fun _ => [];
                    MCPConnector.randomId := fun _ => js "k3x";
                    MCPConnector.clock := fun _ => js "now" |})
              MCPConnector.errorEntry)
         [0%nat; 1%nat]).
Proof.
  apply (proj2 (proj2 (proj2
           (X30_batch_without_failures (rt := Examples.runtime)
              (Examples.host Examples.mcpParams 2 false)
              Examples.monitorWorld
              {| LMStudioAgent.chatCompletion := fun _ => Hung;
                 LMStudioAgent.textCompletion := fun _ => Hung;
                 LMStudioAgent.listModels := fun _ => Hung |}
              {| TerminalAgent.childEvents := fun _ => [];
                 TerminalAgent.sshEvents := fun _ => [] |}
              {| MCPConnector.wsEvents := fun _ => [];
                 MCPConnector.randomId := fun _ => js "k3x";
                 MCPConnector.clock := fun _ => js "now" |})))).
  - reflexivity.
  - intros j Hj. destruct j as [|[|j]]; [reflexivity | reflexivity | simpl in Hj; lia].
Defined.

(** ** Continue on failure *)

Section BrowseOutcome.
Import WebBrowseAgent.

Lemma outcomeOnly_const {A} (m : Browse A) (o : outcome A) :
  (forall st, fst (m st) = o) -> outcomeOnly m.
Proof. intros H st st'. rewrite !H. reflexivity. Qed.

Lemma outcomeOnly_bind {A B} (m : Browse A) (k : A -> Browse B) :
  outcomeOnly m -> (forall a, outcomeOnly (k a)) -> outcomeOnly (bindB m k).
Proof.
  intros Hm Hk st st'. unfold bindB. specialize (Hm st st').
  destruct (m st) as [o s], (m st') as [o' s']; simpl in Hm; subst o'.
  destruct o; simpl; [apply Hk | reflexivity | reflexivity].
Qed.

Lemma outcomeOnly_rethrowB {A} (prefix : jsstring) (m : Browse A) :
  outcomeOnly m -> outcomeOnly (rethrowB prefix m).
Proof.
  intros Hm st st'. unfold rethrowB. specialize (Hm st st').
  destruct (m st) as [o s], (m st') as [o' s']; simpl in *. congruence.
Qed.

Variables (h : IExecuteFunctions) (w : World).

Lemma outcomeOnly_pageOperation (prefix : jsstring) (i : nat) :
  outcomeOnly (pageOperation w prefix i).
Proof.
  apply outcomeOnly_rethrowB, (outcomeOnly_const _ (pageWork w i)).
  reflexivity.
Qed.

Lemma outcomeOnly_executeItem (i : nat) : outcomeOnly (executeItem h w i).
Proof.
  unfold executeItem, executeNavigate, executeScreenshot, executeGetText,
    executeClick, executeFillForm, executeWaitForElement, executeScript.
  repeat first
    [ apply outcomeOnly_bind; [|intros ?]
    | apply outcomeOnly_pageOperation
    | match goal with
      | |- outcomeOnly (liftB ?r) =>
          apply (outcomeOnly_const _ (lift r)); reflexivity
      | |- outcomeOnly (ret ?a) =>
          apply (outcomeOnly_const _ (Returned a)); reflexivity
      | |- outcomeOnly (throw ?e) =>
          apply (outcomeOnly_const _ (Thrown e)); reflexivity
      | |- outcomeOnly (if ?b then _ else _) => destruct b
      end ].
Qed.

(** The outcome of the Web Browse Agent's inner loop is that of the item
    loop of the other nodes, run on the outcomes of its items. *)
Lemma itemLoopB_outcome (n i : nat) (acc : list value) (st : State) :
  fst (itemLoopB h w n i acc st)
  = itemLoop (browseItem h w) browseError (continueOnFail h) n i acc.
Proof.
  revert i acc st; induction n as [|n IH]; intros i acc st;
    cbn [itemLoopB itemLoop]; [reflexivity|].
  pose proof (outcomeOnly_executeItem i st start) as H.
  unfold browseItem at 1.
  destruct (executeItem h w i st) as [o st']; simpl in H. rewrite <- H.
  destruct o as [item|e|]; [apply IH | | reflexivity].
  unfold browseError at 2.
  destruct (continueOnFail h); [apply IH | reflexivity].
Qed.

Lemma tryBlock_after_setup (st : State) :
  setupReturned h w st ->
  tryBlock h w start = itemLoopB h w (List.length (getInputData h)) 0 [] st.
Proof.
  intros [browserOptions [st1 [u [Hl Ho]]]]. unfold tryBlock, bindB.
  rewrite Hl, Ho. reflexivity.
Qed.

(** A closing that returns leaves the outcome of the block as it is. *)
Lemma execute_outcome_closed (u : unit) :
  close w = Returned u -> fst (execute h w) = fst (tryBlock h w start).
Proof.
  intros Hclose. unfold execute, call. rewrite Hclose.
  destruct (tryBlock h w start) as [[out|e|] st]; simpl;
    destruct (browser st); reflexivity.
Qed.

End BrowseOutcome.

(** X31. What continue-on-failure does for the failures a node catches.
    With the host's flag enabled, in the Hub Monitor, the LM Studio Agent,
    the Terminal Agent and the MCP Connector the batch never throws; when
    it returns, the collection holds exactly one entry per input item, in
    input order -- the entry the item produced, or the error-shaped entry
    built from what the item threw or rejected with -- and it does return
    whenever every item settles.  The inner loop of the Web Browse Agent
    does the same from whatever state it starts in, and so does the whole
    batch of the Web Browse Agent once the browser and the page are set up
    and the closing of the browser returns; an error of that batch comes
    from the setup or from the closing, never from an item. *)
Theorem X31_continue_on_failure_one_entry_per_item
    {rt : Runtime} (h : IExecuteFunctions)
    (monitor : HubMonitor.World) (lm : LMStudioAgent.World)
    (terminal : TerminalAgent.World) (mcp : MCPConnector.World)
    (browse : WebBrowseAgent.World) :
  continueOnFail h = true ->
  oneEntryPerItem (List.length (getInputData h))
    (HubMonitor.executeItem h monitor) (HubMonitor.errorEntry monitor)
    (HubMonitor.execute h monitor)
  /\ oneEntryPerItem (List.length (getInputData h))
       (LMStudioAgent.executeItem h lm) LMStudioAgent.errorEntry
       (LMStudioAgent.execute h lm)
  /\ oneEntryPerItem (List.length (getInputData h))
       (TerminalAgent.executeItem h terminal) TerminalAgent.errorEntry
       (TerminalAgent.execute h terminal)
  /\ oneEntryPerItem (List.length (getInputData h))
       (MCPConnector.executeItem h mcp) MCPConnector.errorEntry
       (MCPConnector.execute h mcp)
  /\ (forall n st,
        oneEntryPerItem n (browseItem h browse) browseError
          (fst (WebBrowseAgent.itemLoopB h browse n 0 [] st)))
  /\ (forall st u,
        setupReturned h browse st ->
        WebBrowseAgent.close browse = Returned u ->
        oneEntryPerItem (List.length (getInputData h))
          (browseItem h browse) browseError
          (fst (WebBrowseAgent.execute h browse)))
  /\ (forall e,
        fst (WebBrowseAgent.execute h browse) = Thrown e ->
        setupThrew h browse e \/ WebBrowseAgent.close browse = Thrown e).
Proof.
  intros Hc.
  unfold HubMonitor.execute, LMStudioAgent.execute, TerminalAgent.execute,
    MCPConnector.execute.
  rewrite Hc.
  repeat (split; [apply itemLoop_one_entry_per_item|]).
  split; [|split].
  - intros n st. rewrite itemLoopB_outcome, Hc.
    apply itemLoop_one_entry_per_item.
  - intros st u Hsetup Hclose.
    rewrite (execute_outcome_closed h browse u Hclose).
    rewrite (tryBlock_after_setup h browse st Hsetup).
    rewrite itemLoopB_outcome, Hc. apply itemLoop_one_entry_per_item.
  - intros e H. apply execute_thrown in H as [H | H]; [left | right; exact H].
    pose proof (tryBlock_continue h browse Hc) as Ht. rewrite H in Ht. exact Ht.
Qed.

Lemma X31_continue_on_failure_one_entry_per_item_witness :
  (exists out,
     HubMonitor.execute (rt := Examples.runtime)
       (Examples.host (Examples.monitorParams (js "node")) 2 true)
       Examples.monitorWorld
     = Returned out
     /\ List.length out = 2%nat
     /\ nth 0 out VUndefined
        = HubMonitor.errorEntry Examples.monitorWorld 0
            (NodeOperationError (js "Failed to get process list")))
  /\ (exists out,
        fst (WebBrowseAgent.execute
               (Examples.host Examples.browseParams 2 true) Examples.browseWorld)
        = Returned out
        /\ List.length out = 2%nat
        /\ nth 0 out VUndefined
           = WebBrowseAgent.errorEntry
               (NodeOperationError
                  (js "Navigation failed: "
                      ++ message (mkError (js "net::ERR_CONNECTION_REFUSED"))))).
Proof.
  destruct (X31_continue_on_failure_one_entry_per_item (rt := Examples.runtime)
              (Examples.host (Examples.monitorParams (js "node")) 2 true)
              Examples.monitorWorld MoreExamples.idleLmWorld
              MoreExamples.idleTerminalWorld MoreExamples.idleMcpWorld
              Examples.browseWorld eq_refl)
    as [[_ [Hout Hreturns]] _].
  destruct (X31_continue_on_failure_one_entry_per_item (rt := Examples.runtime)
              (Examples.host Examples.browseParams 2 true)
              Examples.monitorWorld MoreExamples.idleLmWorld
              MoreExamples.idleTerminalWorld MoreExamples.idleMcpWorld
              Examples.browseWorld eq_refl)
    as [_ [_ [_ [_ [_ [Hbrowse _]]]]]].
  split.
  - destruct Hreturns as [out Hrun].
    + intros i Hi.
      destruct i as [|[|i]]; [reflexivity | reflexivity | simpl in Hi; lia].
    + exists out. destruct (Hout out Hrun) as [Hlen Hentries].
      split; [exact Hrun|]. split; [exact Hlen|].
      rewrite Hentries. reflexivity.
  - destruct (Hbrowse
                (snd (WebBrowseAgent.tryBlock
                        (Examples.host Examples.browseParams 0 true)
                        Examples.browseWorld WebBrowseAgent.start))
                tt)
      as [_ [Hout' Hreturns']].
    + exists (VObj []), (snd (WebBrowseAgent.launchBrowser
                                (Examples.host Examples.browseParams 2 true)
                                Examples.browseWorld WebBrowseAgent.start)), tt.
      split; reflexivity.
    + reflexivity.
    + destruct Hreturns' as [out Hrun].
      * intros i Hi.
        destruct i as [|[|i]]; [reflexivity | reflexivity | simpl in Hi; lia].
      * exists out. destruct (Hout' out Hrun) as [Hlen Hentries].
        split; [exact Hrun|]. split; [exact Hlen|].
        rewrite Hentries. reflexivity.
Defined.
